(** * SubwayNetwork: a transit-network shaped container

    A shallow embedding of [railway_data_structure.py] (the file
    [Subway_data_structure.py] holds the same code with English comments).

    Python objects are shared and mutated in place, so station objects live
    in an explicit object store ([heap]) and every reference to a station
    (dictionary values, track sequences, next/prev maps, shortcut pointers)
    is an address into that store.  Track objects are only reachable through
    [self.tracks], so they are stored there by value.  Python dictionaries
    keep insertion order and several functions iterate over them, so they
    are modelled as association lists with in-place replacement of an
    existing key; sets are [gset]s.

    Calls that may raise return a [result] carrying the network as the
    caller finds it afterwards.  The search loop of [find_optimal_route] is
    indexed by fuel, one unit per iteration.

    Costs mix Python ints and floats (1, 0.5, 0.3, 2, the transfer costs):
    a cost is an exact int or an IEEE 754 binary64 float as [SpecFloat]
    specifies it, with Python's conversion of an int operand, which raises
    OverflowError outside the float range.  The quotient of the statistics
    is an exact rational. *)

From Stdlib Require Import QArith.
From Stdlib Require Import SpecFloat.
From Stdlib Require Import Ascii Decimal DecimalNat DecimalString.
From stdpp Require Import base decidable option list strings gmap.

Close Scope Q_scope.

(** ** Enumerations *)

Module StationType.
Inductive t := REGULAR | JUNCTION | TERMINAL | EXPRESS | TRANSFER.
#[global] Instance eq_dec : EqDecision t.
Proof. solve_decision. Defined.
End StationType.

Module TrackType.
Inductive t := MAIN | BRANCH | EXPRESS | LOOP.
#[global] Instance eq_dec : EqDecision t.
Proof. solve_decision. Defined.

(** The [value] of the enum member. *)
Definition value (k : t) : string :=
  match k with
  | MAIN => "main" | BRANCH => "branch" | EXPRESS => "express" | LOOP => "loop"
  end.
End TrackType.

(** ** Python primitives *)

(** Insertion-ordered dictionaries. *)
Abbreviation dict K V := (list (K * V)).

Section Dict.
Context {K V : Type} `{EqDecision K}.

(** [d[k]] / [d.get(k)]. *)
Fixpoint dict_get (k : K) (d : dict K V) : option V :=
  match d with
  | [] => None
  | (k', v) :: d' => if decide (k = k') then Some v else dict_get k d'
  end.

(** [d[k] = v]: an existing key keeps its position, a new key goes last. *)
Fixpoint dict_set (k : K) (v : V) (d : dict K V) : dict K V :=
  match d with
  | [] => [(k, v)]
  | (k', v') :: d' =>
      if decide (k = k') then (k, v) :: d' else (k', v') :: dict_set k v d'
  end.

(** [d.values()] and [d.keys()], in iteration order. *)
Definition dict_values (d : dict K V) : list V := d.*2.

Definition dict_keys (d : dict K V) : list K := d.*1.
End Dict.

(** [str(n)] for a non-negative integer. *)
Definition str (n : nat) : string := NilEmpty.string_of_uint (Nat.to_uint n).

(** No underscore occurs in the string (decimal numerals are such). *)
Fixpoint plain (s : string) : bool :=
  match s with
  | "" => true
  | String c s' => negb (Ascii.eqb c "_"%char) && plain s'
  end.

(** [l[i]] with Python's negative indices; [None] stands for IndexError. *)
Definition py_index {A} (l : list A) (i : Z) : option A :=
  if (0 <=? i)%Z then l !! Z.to_nat i
  else if (- Z.of_nat (length l) <=? i)%Z
       then l !! Z.to_nat (Z.of_nat (length l) + i)
       else None.

(** Exceptions raised by the network operations. *)
Inductive exn := ValueError (msg : string) | IndexError | OverflowError.

(** What a call that leaves the network alone ends with. *)
Inductive outcome (A : Type) := Returns (v : A) | Raises (e : exn).
Arguments Returns {A} v.
Arguments Raises {A} e.

(** Addresses of station objects in the object store. *)
Abbreviation addr := nat (only parsing).

(** ** SubwayTrack *)

(** [stations] of the class is [track_stations] here (the network has a
    field of the same name); [is_bidirectional] and [capacity] are
    constants that nothing reads. *)
Record SubwayTrack := mkTrack {
  track_id : string;
  track_type : TrackType.t;
  color : string;
  track_stations : list addr;
  express_stops : gset string
}.

(** [SubwayTrack(track_id, track_type, color)] *)
Definition new_track (tid : string) (tt : TrackType.t) (c : string) : SubwayTrack :=
  mkTrack tid tt c [] ∅.

(** [track.stations.append(a)] *)
Definition track_append (a : addr) (t : SubwayTrack) : SubwayTrack :=
  mkTrack (track_id t) (track_type t) (color t) (track_stations t ++ [a])
    (express_stops t).

(** [track.express_stops.add(sid)] *)
Definition track_add_stop (sid : string) (t : SubwayTrack) : SubwayTrack :=
  mkTrack (track_id t) (track_type t) (color t) (track_stations t)
    (express_stops t ∪ {[sid]}).

(** [track.stations = l] *)
Definition track_set_stations (l : list addr) (t : SubwayTrack) : SubwayTrack :=
  mkTrack (track_id t) (track_type t) (color t) l (express_stops t).

(** ** Costs *)

(** A cost is a Python number: an int, exact and unbounded, or a float, an
    IEEE 754 binary64 value. *)
Inductive number := Int (z : Z) | Float (f : spec_float).

(** [float(z)], the conversion Python applies to an int operand of a mixed
    addition: the nearest float, ties to even; [None] stands for
    OverflowError (int too large to convert to float). *)
Definition float_of_int (z : Z) : option spec_float :=
  match binary_normalize 53 1024 z 0 false with
  | S754_infinity _ => None
  | f => Some f
  end.

(** Float addition, which rounds to nearest, ties to even, and overflows to
    an infinity without raising. *)
Definition float_add : spec_float → spec_float → spec_float := SFadd 53 1024.

(** The literals [0.5] and [0.3]: the floats nearest to 1/2 and 3/10. *)
Definition float_0_5 : spec_float := S754_finite false 4503599627370496 (-53).
Definition float_0_3 : spec_float := S754_finite false 5404319552844595 (-54).

(** [c + k] for an int [k]. *)
Definition add_int (c : number) (k : Z) : option number :=
  match c with
  | Int z => Some (Int (z + k))
  | Float f => f' ← float_of_int k; Some (Float (float_add f f'))
  end.

(** [c + x] for a float [x]. *)
Definition add_float (c : number) (x : spec_float) : option number :=
  match c with
  | Int z => f ← float_of_int z; Some (Float (float_add f x))
  | Float f => Some (Float (float_add f x))
  end.

(** The value of a number: a rational or an infinity.  A NaN has none. *)
Inductive value := NegInf | Finite (q : Q) | PosInf.

Definition float_value (f : spec_float) : option value :=
  match f with
  | S754_zero _ => Some (Finite 0)
  | S754_infinity s => Some (if s then NegInf else PosInf)
  | S754_nan => None
  | S754_finite s m e =>
      let m := if s then Z.neg m else Z.pos m in
      Some (Finite match e with
                   | Z0 => m # 1
                   | Z.pos p => (m * 2 ^ Z.pos p) # 1
                   | Z.neg p => m # 2 ^ p
                   end)
  end.

Definition number_value (c : number) : option value :=
  match c with
  | Int z => Some (Finite (z # 1))
  | Float f => float_value f
  end.

Definition value_ltb (x y : value) : bool :=
  match x, y with
  | NegInf, NegInf => false
  | NegInf, _ => true
  | Finite _, NegInf => false
  | Finite p, Finite q => negb (Qle_bool q p)
  | Finite _, PosInf => true
  | PosInf, _ => false
  end.

(** [a < b] on Python numbers: ints and floats compare by value, exactly,
    also with each other; a comparison with a NaN is false. *)
Definition number_ltb (a b : number) : bool :=
  match number_value a, number_value b with
  | Some x, Some y => value_ltb x y
  | _, _ => false
  end.

(** Stable sort by a cost key, as [list.sort(key=...)], which compares
    with [<] only.  (The costs of the search are never NaN, see
    [next_options_not_nan], so [<] orders them by value and every stable
    sort gives this list.) *)
Section Sort.
Context {A : Type} (key : A → number).

Fixpoint sort_insert (x : A) (l : list A) : list A :=
  match l with
  | [] => [x]
  | y :: l' =>
      if number_ltb (key y) (key x) then y :: sort_insert x l' else x :: y :: l'
  end.

Definition sort_by (l : list A) : list A := foldr sort_insert [] l.
End Sort.

(** A [for] loop that collects candidates and stops at the first exception
    ([None]). *)
Fixpoint collect {A B} (f : A → option (list B)) (l : list A)
  : option (list B) :=
  match l with
  | [] => Some []
  | x :: l' => ys ← f x; zs ← collect f l'; Some (ys ++ zs)
  end.

Section Network.
Context {Data : Type} `{!EqDecision Data}.

(** ** SubwayStation *)

(** The fields [passenger_capacity], [access_frequency], [is_active],
    [last_accessed] and [access_pattern] are set by the constructor and
    never read or written again; they are left out. *)
Record SubwayStation := mkStation {
  station_id : string;
  data : Data;
  station_type : StationType.t;
  next_stations : dict TrackType.t addr;
  prev_stations : dict TrackType.t addr;
  branch_connections : list addr;
  express_skip_to : option addr;
  transfer_destinations : list (addr * Z);
  line_colors : gset string
}.

(** [SubwayStation(station_id, data, station_type)] *)
Definition new_station (sid : string) (d : Data) (ty : StationType.t)
  : SubwayStation :=
  mkStation sid d ty [] [] [] None [] ∅.

Definition set_station_type (ty : StationType.t) (s : SubwayStation) :=
  mkStation (station_id s) (data s) ty (next_stations s) (prev_stations s)
    (branch_connections s) (express_skip_to s) (transfer_destinations s)
    (line_colors s).

Definition set_next (k : TrackType.t) (b : addr) (s : SubwayStation) :=
  mkStation (station_id s) (data s) (station_type s)
    (dict_set k b (next_stations s)) (prev_stations s)
    (branch_connections s) (express_skip_to s) (transfer_destinations s)
    (line_colors s).

Definition set_prev (k : TrackType.t) (b : addr) (s : SubwayStation) :=
  mkStation (station_id s) (data s) (station_type s)
    (next_stations s) (dict_set k b (prev_stations s))
    (branch_connections s) (express_skip_to s) (transfer_destinations s)
    (line_colors s).

Definition add_branch_connection (b : addr) (s : SubwayStation) :=
  mkStation (station_id s) (data s) (station_type s)
    (next_stations s) (prev_stations s)
    (branch_connections s ++ [b]) (express_skip_to s)
    (transfer_destinations s) (line_colors s).

Definition set_express_skip_to (b : addr) (s : SubwayStation) :=
  mkStation (station_id s) (data s) (station_type s)
    (next_stations s) (prev_stations s)
    (branch_connections s) (Some b) (transfer_destinations s)
    (line_colors s).

Definition add_transfer_destination (b : addr) (c : Z) (s : SubwayStation) :=
  mkStation (station_id s) (data s) (station_type s)
    (next_stations s) (prev_stations s)
    (branch_connections s) (express_skip_to s)
    (transfer_destinations s ++ [(b, c)]) (line_colors s).

Definition add_line_color (c : string) (s : SubwayStation) :=
  mkStation (station_id s) (data s) (station_type s)
    (next_stations s) (prev_stations s)
    (branch_connections s) (express_skip_to s) (transfer_destinations s)
    (line_colors s ∪ {[c]}).

(** ** The object store *)

Abbreviation heap_t := (list SubwayStation).

(** Creating an object: it gets the next free address. *)
Definition alloc (st : SubwayStation) (h : heap_t) : addr * heap_t :=
  (length h, h ++ [st]).

(** In-place mutation of the object at address [a]. *)
Definition mutate (a : addr) (f : SubwayStation → SubwayStation) (h : heap_t)
  : heap_t := alter f a h.

(** [a.station_id]; the empty string only for an address outside the store,
    which no operation produces. *)
Definition id_at (h : heap_t) (a : addr) : string :=
  from_option station_id "" (h !! a).

(** ** SubwayNetwork *)

(** [junctions], [network_map], [average_path_length] and
    [cache_efficiency] are initialised and never used. *)
Record SubwayNetwork := mkNetwork {
  heap : heap_t;
  stations : dict string addr;
  tracks : dict string SubwayTrack;
  total_data_items : nat
}.

(** [SubwayNetwork()] *)
Definition empty_network : SubwayNetwork := mkNetwork [] [] [] 0.

(** Outcome of a call that may raise: the state is the one the caller
    observes afterwards in both cases. *)
Inductive result (A : Type) :=
| Return (v : A) (s : SubwayNetwork)
| Raise (e : exn) (s : SubwayNetwork).
Arguments Return {A} v s.
Arguments Raise {A} e s.

Definition state_of {A} (r : result A) : SubwayNetwork :=
  match r with Return _ s => s | Raise _ s => s end.

(** *** create_main_line *)

(** The body of the [for i, data in enumerate(stations_data)] loop, run
    on the remaining items; [n] is [len(stations_data)]. *)
Fixpoint main_line_loop (line_id color : string) (n : nat)
    (i : nat) (items : list Data) (prev_station : option addr)
    (h : heap_t) (sts : dict string addr) (track : SubwayTrack)
  : heap_t * dict string addr * SubwayTrack :=
  match items with
  | [] => (h, sts, track)
  | d :: items' =>
      let sid := line_id +:+ "_station_" +:+ str i in
      let ty := if bool_decide (i = 0) || (Z.of_nat i =? Z.of_nat n - 1)%Z
                then StationType.TERMINAL else StationType.REGULAR in
      let '(station, h) := alloc (add_line_color color (new_station sid d ty)) h in
      let h := match prev_station with
               | Some p =>
                   let h := mutate station (set_prev TrackType.MAIN p) h in
                   mutate p (set_next TrackType.MAIN station) h
               | None => h
               end in
      main_line_loop line_id color n (S i) items' (Some station)
        h (dict_set sid station sts) (track_append station track)
  end.

Definition create_main_line (line_id : string) (stations_data : list Data)
    (color : string) (s : SubwayNetwork) : SubwayTrack * SubwayNetwork :=
  let track := new_track line_id TrackType.MAIN color in
  let '(h, sts, track) :=
    main_line_loop line_id color (length stations_data) 0 stations_data None
      (heap s) (stations s) track in
  (track,
   mkNetwork h sts (dict_set line_id track (tracks s))
     (total_data_items s + length stations_data)).

(** *** create_branch_line *)

(** The body of the [for i, data in enumerate(branch_data)] loop. *)
Fixpoint branch_line_loop (branch_id color : string) (n : nat)
    (junction_station : addr)
    (i : nat) (items : list Data) (prev_station : addr)
    (h : heap_t) (sts : dict string addr) (track : SubwayTrack)
  : heap_t * dict string addr * SubwayTrack :=
  match items with
  | [] => (h, sts, track)
  | d :: items' =>
      let sid := branch_id +:+ "_station_" +:+ str i in
      let ty := if (Z.of_nat i =? Z.of_nat n - 1)%Z
                then StationType.TERMINAL else StationType.REGULAR in
      let '(station, h) := alloc (add_line_color color (new_station sid d ty)) h in
      let h := mutate station (set_prev TrackType.BRANCH prev_station) h in
      let h := mutate prev_station (set_next TrackType.BRANCH station) h in
      let h := if bool_decide (i = 0)
               then mutate junction_station (add_branch_connection station) h
               else h in
      branch_line_loop branch_id color n junction_station (S i) items'
        station h (dict_set sid station sts) (track_append station track)
  end.

Definition create_branch_line (branch_id junction_station_id : string)
    (branch_data : list Data) (color : string) (s : SubwayNetwork)
  : result SubwayTrack :=
  match dict_get junction_station_id (stations s) with
  | None =>
      Raise (ValueError ("Junction station " +:+ junction_station_id +:+ " not found")) s
  | Some junction_station =>
      let h := mutate junction_station
                 (set_station_type StationType.JUNCTION) (heap s) in
      let track := new_track branch_id TrackType.BRANCH color in
      let '(h, sts, track) :=
        branch_line_loop branch_id color (length branch_data)
          junction_station 0 branch_data junction_station h (stations s) track in
      Return track
        (mkNetwork h sts (dict_set branch_id track (tracks s))
           (total_data_items s + length branch_data))
  end.

(** *** create_express_line *)

(** The body of the loop over [express_stations] for a selected station:
    retag, colour, and chain after the previously selected station. *)
Definition express_visit (color : string) (station : addr)
    (prev_express_station : option addr) (h : heap_t) : heap_t :=
  let h := mutate station (set_station_type StationType.EXPRESS) h in
  let h := mutate station (add_line_color color) h in
  match prev_express_station with
  | Some p =>
      let h := mutate station (set_prev TrackType.EXPRESS p) h in
      let h := mutate p (set_next TrackType.EXPRESS station) h in
      mutate p (set_express_skip_to station) h
  | None => h
  end.

(** The loop over [express_stations].  [inr h] is the store at the moment
    [main_track.stations[station_index]] raises IndexError. *)
Fixpoint express_line_loop (main_stations : list addr) (color : string)
    (idxs : list Z) (prev_express_station : option addr)
    (h : heap_t) (express_track : SubwayTrack)
  : heap_t * SubwayTrack + heap_t :=
  match idxs with
  | [] => inl (h, express_track)
  | station_index :: idxs' =>
      if (Z.of_nat (length main_stations) <=? station_index)%Z
      then express_line_loop main_stations color idxs' prev_express_station
             h express_track
      else
        match py_index main_stations station_index with
        | None => inr h
        | Some station =>
            let h := express_visit color station prev_express_station h in
            express_line_loop main_stations color idxs' (Some station) h
              (track_add_stop (id_at h station)
                 (track_append station express_track))
        end
  end.

Definition create_express_line (express_id main_line_id : string)
    (express_stations : list Z) (color : string) (s : SubwayNetwork)
  : result SubwayTrack :=
  (* main_track.stations is not changed by the loop, also when express_id
     is main_line_id: the new track is filed after the loop *)
  match dict_get main_line_id (tracks s) with
  | None => Raise (ValueError ("Main line " +:+ main_line_id +:+ " not found")) s
  | Some main_track =>
      let express_track := new_track express_id TrackType.EXPRESS color in
      match express_line_loop (track_stations main_track) color
              express_stations None (heap s) express_track with
      | inr h =>
          Raise IndexError
            (mkNetwork h (stations s) (tracks s) (total_data_items s))
      | inl (h, express_track) =>
          Return express_track
            (mkNetwork h (stations s)
               (dict_set express_id express_track (tracks s))
               (total_data_items s))
      end
  end.

(** *** create_loop_connection *)

Definition create_loop_connection (start_station_id end_station_id : string)
    (color : string) (s : SubwayNetwork) : result SubwayTrack :=
  match dict_get start_station_id (stations s),
        dict_get end_station_id (stations s) with
  | Some start_station, Some end_station =>
      let loop_id := "loop_" +:+ start_station_id +:+ "_" +:+ end_station_id in
      let loop_track := new_track loop_id TrackType.LOOP color in
      let h := mutate start_station (set_next TrackType.LOOP end_station) (heap s) in
      let h := mutate end_station (set_prev TrackType.LOOP start_station) h in
      let h := mutate start_station (add_line_color color) h in
      let h := mutate end_station (add_line_color color) h in
      let loop_track := track_set_stations [start_station; end_station] loop_track in
      Return loop_track
        (mkNetwork h (stations s) (dict_set loop_id loop_track (tracks s))
           (total_data_items s))
  | _, _ => Raise (ValueError "Start or end station not found for loop") s
  end.

(** *** add_transfer_connection *)

Definition add_transfer_connection (station1_id station2_id : string)
    (transfer_cost : Z) (s : SubwayNetwork) : SubwayNetwork :=
  match dict_get station1_id (stations s),
        dict_get station2_id (stations s) with
  | Some station1, Some station2 =>
      let h := mutate station1 (add_transfer_destination station2 transfer_cost) (heap s) in
      let h := mutate station2 (add_transfer_destination station1 transfer_cost) h in
      let h := mutate station1 (set_station_type StationType.TRANSFER) h in
      let h := mutate station2 (set_station_type StationType.TRANSFER) h in
      mkNetwork h (stations s) (tracks s) (total_data_items s)
  | _, _ => s
  end.

(** *** find_optimal_route *)

(** [_find_station_by_data]: first station of [self.stations.values()]
    whose payload equals [d].  (An address outside the store, which no
    operation produces, is passed over.) *)
Fixpoint first_with_data (h : heap_t) (d : Data) (l : list addr) : option addr :=
  match l with
  | [] => None
  | a :: l' =>
      match h !! a with
      | Some st => if decide (data st = d) then Some a else first_with_data h d l'
      | None => first_with_data h d l'
      end
  end.

Definition _find_station_by_data (s : SubwayNetwork) (d : Data) : option addr :=
  first_with_data (heap s) d (dict_values (stations s)).

(** A frontier entry: station, path, cost. *)
Abbreviation entry := (addr * list string * number)%type.

(** One guarded [next_options.append]: when the station id is not in
    [visited], the cost [c] is computed, which may raise OverflowError
    ([None]), and the candidate is collected. *)
Definition option_to (h : heap_t) (visited : gset string) (path : list string)
    (a : addr) (c : option number) : option (list entry) :=
  if bool_decide (id_at h a ∉ visited)
  then c ← c; Some [(a, path ++ [id_at h a], c)]
  else Some [].

(** The candidates collected in [next_options] for one expansion, in the
    order the five blocks append them; [visited] already holds the id of
    [current].  [None] stands for the OverflowError of a cost addition;
    nothing of the network has changed when it is raised. *)
Definition next_options (h : heap_t) (visited : gset string)
    (current : SubwayStation) (path : list string) (cost : number)
  : option (list entry) :=
  (* 1. next_stations.items() *)
  o1 ← collect (λ '(track_type, next_station),
          option_to h visited path next_station
            (next_cost ← add_int cost 1;
             if decide (track_type = TrackType.EXPRESS)
             then add_float cost float_0_5 else Some next_cost))
        (next_stations current);
  (* 2. express_skip_to *)
  o2 ← match express_skip_to current with
       | Some e => option_to h visited path e (add_float cost float_0_3)
       | None => Some []
       end;
  (* 3. branch_connections *)
  o3 ← collect (λ b, option_to h visited path b (add_int cost 1))
        (branch_connections current);
  (* 4. transfer_destinations *)
  o4 ← collect (λ '(t, transfer_cost),
          option_to h visited path t (add_int cost transfer_cost))
        (transfer_destinations current);
  (* 5. next_stations[LOOP] *)
  o5 ← match dict_get TrackType.LOOP (next_stations current) with
       | Some l => option_to h visited path l (add_int cost 2)
       | None => Some []
       end;
  Some (o1 ++ o2 ++ o3 ++ o4 ++ o5).

(** The [while queue] loop; one unit of [fuel] per iteration, [None] when
    the fuel runs out before the loop ends.  [current == end_station]
    compares objects, here addresses.  (An entry whose address is outside
    the store, which no operation produces, is dropped.) *)
Fixpoint route_loop (fuel : nat) (h : heap_t) (end_station : addr)
    (visited : gset string) (queue : list entry)
  : option (outcome (list string)) :=
  match fuel with
  | 0 => None
  | S fuel' =>
      match queue with
      | [] => Some (Returns [])
      | (current, path, cost) :: queue' =>
          match h !! current with
          | None => route_loop fuel' h end_station visited queue'
          | Some st =>
              if bool_decide (station_id st ∈ visited)
              then route_loop fuel' h end_station visited queue'
              else
                let visited := visited ∪ {[station_id st]} in
                if bool_decide (current = end_station) then Some (Returns path)
                else
                  match next_options h visited st path cost with
                  | None => Some (Raises OverflowError)
                  | Some next_options =>
                      route_loop fuel' h end_station visited
                        (queue' ++ sort_by (λ x : entry, x.2) next_options)
                  end
          end
      end
  end.

(** The station ids the loop adds to [visited], in order: a trace of the
    same loop, not part of what it returns. *)
Fixpoint route_expansions (fuel : nat) (h : heap_t) (end_station : addr)
    (visited : gset string) (queue : list entry) : list string :=
  match fuel with
  | 0 => []
  | S fuel' =>
      match queue with
      | [] => []
      | (current, path, cost) :: queue' =>
          match h !! current with
          | None => route_expansions fuel' h end_station visited queue'
          | Some st =>
              if bool_decide (station_id st ∈ visited)
              then route_expansions fuel' h end_station visited queue'
              else
                let visited := visited ∪ {[station_id st]} in
                station_id st ::
                if bool_decide (current = end_station) then []
                else
                  match next_options h visited st path cost with
                  | None => []
                  | Some next_options =>
                      route_expansions fuel' h end_station visited
                        (queue' ++ sort_by (λ x : entry, x.2) next_options)
                  end
          end
      end
  end.

(** The stations one hop away: every edge kind the search follows. *)
Definition successors (st : SubwayStation) : list addr :=
  (next_stations st).*2 ++ option_list (express_skip_to st)
  ++ branch_connections st ++ (transfer_destinations st).*1.

(** The stations the five blocks of an expansion look at, in order. *)
Definition next_targets (st : SubwayStation) : list addr :=
  (next_stations st).*2 ++ option_list (express_skip_to st)
  ++ branch_connections st ++ (transfer_destinations st).*1
  ++ option_list (dict_get TrackType.LOOP (next_stations st)).

(** An edge of the store: [b] is a successor of the station at [a]. *)
Definition edge (h : heap_t) (a b : addr) : Prop :=
  ∃ st, h !! a = Some st ∧ b ∈ successors st.

(** [b] can be reached from [a] along edges of the store. *)
Definition connected (h : heap_t) : relation addr := rtc (edge h).


(** An upper bound on the number of candidates one expansion can collect. *)
Definition out_degree (st : SubwayStation) : nat :=
  length (next_stations st) + 1 + length (branch_connections st)
  + length (transfer_destinations st) + 1.

(** Enough iterations for any search over the store [h]: the start entry,
    every candidate of every station, and the final look at the empty
    frontier. *)
Definition route_fuel (h : heap_t) : nat :=
  2 + sum_list_with out_degree h.

Definition find_optimal_route (s : SubwayNetwork) (start_data end_data : Data)
  : option (outcome (list string)) :=
  match _find_station_by_data s start_data, _find_station_by_data s end_data with
  | Some start_station, Some end_station =>
      route_loop (route_fuel (heap s)) (heap s) end_station ∅
        [(start_station, [id_at (heap s) start_station], Int 0)]
  | _, _ => Some (Returns [])
  end.

(** *** insert_data_optimally *)

(** The scan for the least loaded MAIN or BRANCH track.  The chosen track
    object is carried with its key in [self.tracks]; [None] for [min_load]
    is infinity. *)
Fixpoint least_loaded (ts : dict string SubwayTrack) (min_load : option nat)
    (target_track : option (string * SubwayTrack))
  : option (string * SubwayTrack) :=
  match ts with
  | [] => target_track
  | (k, track) :: ts' =>
      if bool_decide (track_type track ∈ [TrackType.MAIN; TrackType.BRANCH])
      then
        let load := length (track_stations track) in
        if match min_load with None => true | Some m => (load <? m)%nat end
        then least_loaded ts' (Some load) (Some (k, track))
        else least_loaded ts' min_load target_track
      else least_loaded ts' min_load target_track
  end.

(** The choice of [target_track]: the preferred line when it is given and
    exists, else the scan. *)
Definition choose_track (preferred_line : option string) (s : SubwayNetwork)
  : option (string * SubwayTrack) :=
  match preferred_line with
  | Some pl =>
      match (if bool_decide (pl ≠ "") then dict_get pl (tracks s) else None) with
      | Some track => Some (pl, track)
      | None => least_loaded (tracks s) None None
      end
  | None => least_loaded (tracks s) None None
  end.

Definition insert_data_optimally (d : Data) (preferred_line : option string)
    (s : SubwayNetwork) : string * SubwayNetwork :=
  match choose_track preferred_line s with
  | None =>
      let '(track, s) := create_main_line "main_0" [d] "blue" s in
      (track_id track, s)
  | Some (k, target_track) =>
      let sid := track_id target_track +:+ "_auto_"
                 +:+ str (length (track_stations target_track)) in
      let '(new_station, h) :=
        alloc (add_line_color (color target_track)
                 (new_station sid d StationType.REGULAR)) (heap s) in
      let h :=
        match last (track_stations target_track) with
        | Some last_station =>
            let h := mutate last_station
                       (set_next (track_type target_track) new_station) h in
            let h := mutate new_station
                       (set_prev (track_type target_track) last_station) h in
            let h := if bool_decide (station_type <$> h !! last_station
                                     = Some StationType.TERMINAL)
                     then mutate last_station
                            (set_station_type StationType.REGULAR) h
                     else h in
            mutate new_station (set_station_type StationType.TERMINAL) h
        | None => h
        end in
      (sid,
       mkNetwork h (dict_set sid new_station (stations s))
         (dict_set k (track_append new_station target_track) (tracks s))
         (total_data_items s + 1))
  end.

(** *** get_network_statistics *)

Record Statistics := mkStatistics {
  total_stations : nat;
  total_tracks : nat;
  stat_total_data_items : nat;
  junction_count : nat;
  express_stations : nat;
  transfer_hubs : nat;
  terminal_points : nat;
  track_distribution : dict string nat;
  avg_connectivity : Q
}.

(** The station objects of [self.stations.values()]. *)
Definition station_values (s : SubwayNetwork) : list SubwayStation :=
  omap (λ a, heap s !! a) (dict_values (stations s)).

(** [sum(1 for s in self.stations.values() if s.station_type == ty)] *)
Definition count_type (ty : StationType.t) (s : SubwayNetwork) : nat :=
  length (filter (λ st, station_type st = ty) (station_values s)).

Definition total_connections (s : SubwayNetwork) : nat :=
  sum_list_with
    (λ st, length (next_stations st) + length (prev_stations st)
           + length (branch_connections st) + length (transfer_destinations st))
    (station_values s).

Definition get_network_statistics (s : SubwayNetwork) : Statistics :=
  mkStatistics
    (length (stations s))
    (length (tracks s))
    (total_data_items s)
    (count_type StationType.JUNCTION s)
    (count_type StationType.EXPRESS s)
    (count_type StationType.TRANSFER s)
    (count_type StationType.TERMINAL s)
    (foldl (λ track_types track,
              let v := TrackType.value (track_type track) in
              dict_set v (default 0 (dict_get v track_types) + 1) track_types)
       [] (dict_values (tracks s)))
    (if bool_decide (stations s = []) then 0%Q
     else (inject_Z (Z.of_nat (total_connections s))
           / inject_Z (Z.of_nat (length (stations s))))%Q).

(** ** Sequences of calls *)

(** One call of a construction operation. *)
Inductive operation :=
| CreateMainLine (line_id : string) (stations_data : list Data) (color : string)
| CreateBranchLine (branch_id junction_station_id : string)
    (branch_data : list Data) (color : string)
| CreateExpressLine (express_id main_line_id : string)
    (express_stations : list Z) (color : string)
| CreateLoopConnection (start_station_id end_station_id : string) (color : string)
| AddTransferConnection (station1_id station2_id : string) (transfer_cost : Z)
| InsertDataOptimally (d : Data) (preferred_line : option string).

(** The network after the call, whether it returned or raised. *)
Definition run (op : operation) (s : SubwayNetwork) : SubwayNetwork :=
  match op with
  | CreateMainLine line_id stations_data color =>
      (create_main_line line_id stations_data color s).2
  | CreateBranchLine branch_id junction_station_id branch_data color =>
      state_of (create_branch_line branch_id junction_station_id branch_data color s)
  | CreateExpressLine express_id main_line_id express_stations color =>
      state_of (create_express_line express_id main_line_id express_stations color s)
  | CreateLoopConnection start_station_id end_station_id color =>
      state_of (create_loop_connection start_station_id end_station_id color s)
  | AddTransferConnection station1_id station2_id transfer_cost =>
      add_transfer_connection station1_id station2_id transfer_cost s
  | InsertDataOptimally d preferred_line =>
      (insert_data_optimally d preferred_line s).2
  end.

Definition run_all (ops : list operation) (s : SubwayNetwork) : SubwayNetwork :=
  foldl (λ s op, run op s) s ops.

(** [insert_data_optimally(d)] for each [d] in turn, without a preferred
    line: the returned values and the final network. *)
Fixpoint insert_all (items : list Data) (s : SubwayNetwork)
  : list string * SubwayNetwork :=
  match items with
  | [] => ([], s)
  | d :: items' =>
      let '(r, s) := insert_data_optimally d None s in
      let '(rs, s) := insert_all items' s in
      (r :: rs, s)
  end.

(** ** Views of the next/prev maps *)

Definition nxt (k : TrackType.t) (st : SubwayStation) : option addr :=
  dict_get k (next_stations st).

Definition prv (k : TrackType.t) (st : SubwayStation) : option addr :=
  dict_get k (prev_stations st).

End Network.

Arguments SubwayStation : clear implicits.
Arguments operation : clear implicits.
Arguments SubwayNetwork : clear implicits.
Arguments result : clear implicits.
Arguments Return {Data A} v s.
Arguments Raise {Data A} e s.

(** * Vocabulary of the specification *)

Section Predicates.
Context {Data : Type} `{!EqDecision Data}.
Implicit Types (s : SubwayNetwork Data) (h : list (SubwayStation Data))
  (st : SubwayStation Data) (a b p : nat) (k : TrackType.t)
  (f : SubwayStation Data → SubwayStation Data)
  (ts : dict string SubwayTrack) (track : SubwayTrack) (x : string)
  (visited : gset string).

(** The category [create_main_line] gives to the station at position [i] of
    [n]. *)
Definition main_line_type (n i : nat) : StationType.t :=
  if bool_decide (i = 0 ∨ i = n - 1) then StationType.TERMINAL
  else StationType.REGULAR.

(** Identifier, payload and category agree. *)
Definition same_core st st' : Prop :=
  station_id st' = station_id st ∧ data st' = data st
  ∧ station_type st' = station_type st.

(** The station after one transfer entry was appended and the category
    reset. *)
Definition with_transfer (other : nat) (cost : Z) st : SubwayStation Data :=
  set_station_type StationType.TRANSFER (add_transfer_destination other cost st).

(** The candidates that stations not yet visited can still contribute. *)
Definition pending h visited : nat :=
  sum_list_with out_degree (filter (λ st, station_id st ∉ visited) h).

(** Every next pointer of the store points into the store. *)
Definition closed h : Prop :=
  ∀ a st k b, h !! a = Some st → nxt k st = Some b → b < length h.

(** If [A.next[k]] is [B] then [B.prev[k]] is [A]. *)
Definition linked k h : Prop :=
  ∀ a st b, h !! a = Some st → nxt k st = Some b →
    ∃ st', h !! b = Some st' ∧ prv k st' = Some a.

(** A mutation that leaves the [k] entries of both maps alone. *)
Definition same_links k f : Prop :=
  ∀ st, nxt k (f st) = nxt k st ∧ prv k (f st) = prv k st.

(** A mutation whose new next pointers are below [n]. *)
Definition next_within (n : nat) f : Prop :=
  ∀ st k b, nxt k (f st) = Some b → nxt k st = Some b ∨ b < n.

(** Both properties together, for one edge kind. *)
Definition heap_ok k h : Prop := closed h ∧ linked k h.

(** The track's stations are objects of a store of [n] objects and the track
    is filed under its own identifier. *)
Definition track_ok (n : nat) (kt : string * SubwayTrack) : Prop :=
  Forall (λ a, a < n) (track_stations kt.2) ∧ track_id kt.2 = kt.1.

(** What every network built by the operations satisfies, for the edge
    kind [k]. *)
Definition good k s : Prop :=
  heap_ok k (heap s)
  ∧ Forall (λ kv, kv.2 < length (heap s)) (stations s)
  ∧ Forall (track_ok (length (heap s))) (tracks s)
  ∧ NoDup (dict_keys (tracks s)).

(** The objects of [h] are still in [h'], with their identifier and
    payload. *)
Definition extends h h' : Prop :=
  ∀ a st, h !! a = Some st →
    ∃ st', h' !! a = Some st' ∧ station_id st' = station_id st ∧ data st' = data st.

(** A MAIN or BRANCH track: what the least-loaded scan considers. *)
Definition linelike track : Prop :=
  track_type track ∈ [TrackType.MAIN; TrackType.BRANCH].

(** Some track is a MAIN or BRANCH track. *)
Definition has_line ts : Prop := ∃ key track, (key, track) ∈ ts ∧ linelike track.

(** [x] can no longer come out of an insertion without a preferred line. *)
Definition used ts x : Prop :=
  ((x = "main_0" ∨ x = "main_0_station_0") ∧ has_line ts)
  ∨ ∃ key track n, (key, track) ∈ ts ∧ linelike track
      ∧ x = track_id track +:+ "_auto_" +:+ str n
      ∧ n < length (track_stations track).



(** A number that is not the float NaN. *)
Definition not_nan (c : number) : Prop :=
  match c with Float S754_nan => False | _ => True end.

(** No station of the store has an EXPRESS next entry or an express
    shortcut: the two places where [0.5] and [0.3] are added. *)
Definition no_express h : Prop :=
  Forall (λ st, dict_get TrackType.EXPRESS (next_stations st) = None
                ∧ express_skip_to st = None) h.

End Predicates.

(** * Concrete networks *)

(** A main line of six items with an express line over its two ends. *)
Definition line_with_express : SubwayNetwork string :=
  state_of (create_express_line "X" "M" [0; 5]%Z "red"
              (create_main_line "M" ["A"; "B"; "C"; "D"; "E"; "F"] "blue"
                 empty_network).2).


(** A main line of three items. *)
Definition short_line : SubwayNetwork string :=
  run_all [CreateMainLine "M" ["A"; "B"; "C"] "blue"] empty_network.

(** Two loop connections into the same end station. *)
Definition two_loops : SubwayNetwork string :=
  run_all [CreateLoopConnection "M_station_0" "M_station_2" "yellow";
           CreateLoopConnection "M_station_1" "M_station_2" "yellow"] short_line.


(** Two express lines that end at the same station. *)
Definition two_express_lines : SubwayNetwork string :=
  run_all [CreateExpressLine "X" "M" [0; 2]%Z "red";
           CreateExpressLine "Y" "M" [1; 2]%Z "red"] short_line.

(** ** Walks *)

Section Walks.
Context {Data : Type} `{!EqDecision Data}.
Implicit Types (h : list (SubwayStation Data)).

(** Consecutive stations of [w] are joined by edges of the store. *)
Definition is_walk h (w : list nat) : Prop :=
  ∀ i a b, w !! i = Some a → w !! S i = Some b → edge h a b.

(** The path of a frontier entry spells a walk from [start] to its station. *)
Definition entry_walk h (start : nat) (x : nat * list string * number) : Prop :=
  ∃ w, x.1.2 = id_at h <$> w ∧ head w = Some start ∧ last w = Some x.1.1
       ∧ is_walk h w.

(** The station of a frontier entry. *)
Definition entry_station (x : nat * list string * number) : nat := x.1.1.

End Walks.

(** ** Filing *)

Section Filing.
Context {Data : Type} `{!EqDecision Data}.
Implicit Types (h : list (SubwayStation Data)) (s : SubwayNetwork Data).

(** The dictionary entry points at an object with the key as identifier. *)
Definition filed_entry h (kv : string * nat) : Prop :=
  ∃ st, h !! kv.2 = Some st ∧ station_id st = kv.1.

(** Every station is filed under its own identifier. *)
Definition filed s : Prop := Forall (filed_entry (heap s)) (stations s).

(** From [s] to [s'] nothing was removed or rewritten: the objects keep
    identifier and payload, the dictionaries keep their keys in place, and
    the item counter grew by the number of new objects, which bounds the
    number of new dictionary entries. *)
Definition grows s s' : Prop :=
  extends (heap s) (heap s')
  ∧ length (heap s) ≤ length (heap s')
  ∧ dict_keys (stations s) `prefix_of` dict_keys (stations s')
  ∧ dict_keys (tracks s) `prefix_of` dict_keys (tracks s')
  ∧ total_data_items s' + length (heap s) = total_data_items s + length (heap s')
  ∧ length (stations s') + length (heap s) ≤ length (stations s) + length (heap s').

End Filing.

(** ** Chains of new stations *)

Section Chains.
Context {Data : Type} `{!EqDecision Data}.

(** A station as the line loops leave it: linked to the one before and to
    the one after, where there is one. *)
Definition chain_station (k : TrackType.t) (st : SubwayStation Data)
    (before after : option nat) : SubwayStation Data :=
  let st := match before with Some p => set_prev k p st | None => st end in
  match after with Some n => set_next k n st | None => st end.

End Chains.

(** [track.color], where [color] names the colour of a call. *)
Abbreviation track_color := color.

(** ** benchmark_Subway_vs_traditional: building the network *)

Section Benchmark.
Context {Data : Type} `{!EqDecision Data}.

(** The [for i, data in enumerate(test_data)] loop that fills the network,
    from index [i] on; [rest] is what is left of [test_data] there.  The
    timing, the random route queries and the printing around it are left
    out. *)
Fixpoint benchmark_build_loop (test_data : list Data) (i : nat)
    (rest : list Data) (s : SubwayNetwork Data) : result Data unit :=
  match rest with
  | [] => Return tt s
  | d :: rest' =>
      if bool_decide (i mod 100 = 0) && bool_decide (0 < i)
      then
        match create_branch_line ("branch_" +:+ str (i / 100))
                ("main_0_station_" +:+ str (i / 2))
                (take 50 (drop i test_data)) "green" s with
        | Raise e s => Raise e s
        | Return _ s => benchmark_build_loop test_data (S i) rest' s
        end
      else
        benchmark_build_loop test_data (S i) rest'
          (insert_data_optimally d None s).2
  end.

Definition benchmark_build (test_data : list Data) : result Data unit :=
  benchmark_build_loop test_data 0 test_data empty_network.

(** The keys [insert_data_optimally] files stations under. *)
Definition inserted_key (key : string) : Prop :=
  key = "main_0_station_0" ∨ ∃ t n, key = t +:+ "_auto_" +:+ str n.

End Benchmark.

(** ** Chains of express stations *)

Section ExpressChains.
Context {Data : Type} `{!EqDecision Data}.

(** A selected station as [create_express_line] leaves it when no station
    is selected twice: retagged, coloured, and chained to the stations
    selected before and after it. *)
Definition express_station (color : string) (before after : option nat)
    (st : SubwayStation Data) : SubwayStation Data :=
  let st := add_line_color color (set_station_type StationType.EXPRESS st) in
  let st := match before with
            | Some p => set_prev TrackType.EXPRESS p st
            | None => st
            end in
  match after with
  | Some n => set_express_skip_to n (set_next TrackType.EXPRESS n st)
  | None => st
  end.

End ExpressChains.

(** * Facts about the Python primitives *)

Section DictFacts.
Context {K V : Type} `{EqDecision K}.
Implicit Types (d : dict K V) (k : K) (v : V).

Lemma dict_get_set_eq k v d : dict_get k (dict_set k v d) = Some v.
Proof.
  induction d as [|[k' v'] d IH]; simpl.
  - by rewrite decide_True.
  - destruct (decide (k = k')) as [->|Hne]; simpl.
    + by rewrite decide_True.
    + by rewrite decide_False.
Qed.

Lemma dict_get_set_ne k k' v d :
  k ≠ k' → dict_get k' (dict_set k v d) = dict_get k' d.
Proof.
  intros Hne. induction d as [|[k0 v0] d IH]; simpl.
  - by rewrite decide_False.
  - destruct (decide (k = k0)) as [->|Hne0]; simpl.
    + by rewrite !decide_False.
    + by rewrite IH.
Qed.

Lemma dict_keys_set k v d :
  dict_keys (dict_set k v d)
  = if bool_decide (k ∈ dict_keys d) then dict_keys d else dict_keys d ++ [k].
Proof.
  unfold dict_keys.
  induction d as [|[k0 v0] d IH]; csimpl; [done|].
  destruct (decide (k = k0)) as [->|Hne]; csimpl.
  - rewrite bool_decide_true; [done|]. apply elem_of_cons; by left.
  - rewrite IH. destruct (decide (k ∈ d.*1)) as [Hin|Hin].
    + rewrite !bool_decide_true; [done| |done]. apply elem_of_cons; by right.
    + rewrite !bool_decide_false; [done| |done].
      rewrite elem_of_cons. by intros [?|?].
Qed.

Lemma dict_keys_set_NoDup k v d :
  NoDup (dict_keys d) → NoDup (dict_keys (dict_set k v d)).
Proof.
  intros Hd. rewrite dict_keys_set.
  destruct (decide (k ∈ dict_keys d)) as [Hin|Hin];
    [by rewrite bool_decide_true|rewrite bool_decide_false by done].
  apply NoDup_app. split_and!; [done| |apply NoDup_singleton].
  intros x Hx ->%list_elem_of_singleton. done.
Qed.

Lemma dict_get_Some_elem k v d : dict_get k d = Some v → (k, v) ∈ d.
Proof.
  induction d as [|[k0 v0] d IH]; simpl; [done|].
  destruct (decide (k = k0)) as [->|Hne].
  - intros [= ->]. apply elem_of_cons; by left.
  - intros Hg. apply elem_of_cons; right; auto.
Qed.

Lemma dict_elem_get k v d : NoDup (dict_keys d) → (k, v) ∈ d → dict_get k d = Some v.
Proof.
  unfold dict_keys.
  induction d as [|[k0 v0] d IH]; csimpl; [by intros _ ?%elem_of_nil|].
  intros [Hnotin Hnd]%NoDup_cons [Heq|Hin]%elem_of_cons.
  - simplify_eq. by rewrite decide_True.
  - rewrite decide_False; [by apply IH|].
    intros ->. apply Hnotin. apply list_elem_of_fmap. by exists (k0, v).
Qed.

End DictFacts.

(** ** Identifiers built by the f-strings *)

Section Identifiers.
Implicit Types (s t u v : string) (n m : nat).

Lemma str_inj n m : str n = str m → n = m.
Proof.
  unfold str. intros Heq.
  assert (Some (Nat.to_uint n) = Some (Nat.to_uint m)) as [= Hu].
  { by rewrite <- !NilEmpty.usu, Heq. }
  by apply Unsigned.to_uint_inj.
Qed.

Lemma plain_string_of_uint (d : uint) : plain (NilEmpty.string_of_uint d) = true.
Proof. induction d; simpl; done. Qed.

Lemma plain_str n : plain (str n) = true.
Proof. apply plain_string_of_uint. Qed.

Lemma plain_app_underscore s t : plain (s +:+ String "_"%char t) = false.
Proof.
  induction s as [|c s IH]; [done|].
  change (String c s +:+ String "_"%char t) with (String c (s +:+ String "_"%char t)).
  simpl. rewrite IH. apply andb_false_r.
Qed.

Lemma app_assoc_string s t u : (s +:+ t) +:+ u = s +:+ t +:+ u.
Proof.
  induction s as [|c s IH]; [done|].
  change (String c (s +:+ t) +:+ u = String c (s +:+ t +:+ u)).
  by rewrite <- IH.
Qed.

(** Splitting at the last underscore is unambiguous. *)
Lemma split_last_underscore s t u v :
  plain u = true → plain v = true →
  s +:+ String "_"%char u = t +:+ String "_"%char v → s = t ∧ u = v.
Proof.
  intros Hu Hv. revert t.
  induction s as [|c s IH]; intros [|c' t] Heq.
  - by injection Heq as ->.
  - injection Heq as <- ->. by rewrite plain_app_underscore in Hu.
  - injection Heq as -> <-. by rewrite plain_app_underscore in Hv.
  - injection Heq as -> Heq. by destruct (IH _ Heq) as [-> ->].
Qed.

(** [f"{line_id}_station_{i}"] *)
Lemma station_id_inj line_id n m :
  line_id +:+ "_station_" +:+ str n = line_id +:+ "_station_" +:+ str m → n = m.
Proof. intros Heq. by do 2 apply (inj (String.app _)) in Heq; apply str_inj. Qed.

(** [f"{track_id}_auto_{n}"] *)
Lemma auto_id_shape s n :
  s +:+ "_auto_" +:+ str n = (s +:+ String "_"%char "auto") +:+ String "_"%char (str n).
Proof. by rewrite app_assoc_string. Qed.

Lemma station_id_shape s n :
  s +:+ "_station_" +:+ str n
  = (s +:+ String "_"%char "station") +:+ String "_"%char (str n).
Proof. by rewrite app_assoc_string. Qed.

Lemma auto_id_inj s t n m :
  s +:+ "_auto_" +:+ str n = t +:+ "_auto_" +:+ str m → s = t ∧ n = m.
Proof.
  rewrite !auto_id_shape.
  intros [Hst Hnm]%split_last_underscore; [|apply plain_str..].
  apply str_inj in Hnm as ->.
  by apply split_last_underscore in Hst as [-> _].
Qed.

Lemma auto_id_not_station s t n m :
  s +:+ "_auto_" +:+ str n ≠ t +:+ "_station_" +:+ str m.
Proof.
  rewrite auto_id_shape, station_id_shape.
  intros [Hst _]%split_last_underscore; [|apply plain_str..].
  by apply split_last_underscore in Hst as [_ ?].
Qed.

Lemma auto_id_not_main_0 s n : s +:+ "_auto_" +:+ str n ≠ "main_0".
Proof.
  rewrite auto_id_shape. change "main_0" with ("main" +:+ String "_"%char "0").
  intros [Hst _]%split_last_underscore; [|apply plain_str|done].
  assert (plain (s +:+ String "_"%char "auto") = plain "main") as Hp by by rewrite Hst.
  by rewrite plain_app_underscore in Hp.
Qed.
End Identifiers.

(** * Facts about the operations *)

Section Operations.
Context {Data : Type} `{!EqDecision Data}.
Implicit Types (s : SubwayNetwork Data) (h : list (SubwayStation Data))
  (st : SubwayStation Data) (a b p : nat).

(** ** The object store *)

Lemma lookup_mutate h a f x :
  mutate a f h !! x = if decide (a = x) then f <$> h !! x else h !! x.
Proof.
  unfold mutate. destruct (decide (a = x)) as [->|Hne].
  - apply list_lookup_alter_eq.
  - by apply list_lookup_alter_ne.
Qed.

Lemma lookup_mutate_eq h a f : mutate a f h !! a = f <$> h !! a.
Proof. apply list_lookup_alter_eq. Qed.

Lemma lookup_mutate_ne h a f x : a ≠ x → mutate a f h !! x = h !! x.
Proof. apply list_lookup_alter_ne. Qed.

Lemma length_mutate h a f : length (mutate a f h) = length h.
Proof. apply length_alter. Qed.

Lemma mutate_dangling h a f : length h ≤ a → mutate a f h = h.
Proof.
  intros Hle. apply list_eq. intros x. rewrite lookup_mutate.
  destruct (decide (a = x)) as [<-|]; [|done].
  by rewrite (lookup_ge_None_2 h a).
Qed.

(** ** Missing anchors *)

(** C2: a missing junction station, main line or loop endpoint makes the
    call raise the not-found error ([ValueError]) with the network exactly
    as it was before the call. *)
Theorem missing_anchor_raises_unchanged s :
  (∀ branch_id junction_station_id branch_data color,
     dict_get junction_station_id (stations s) = None →
     ∃ msg, create_branch_line branch_id junction_station_id branch_data color s
            = Raise (ValueError msg) s)
  ∧ (∀ express_id main_line_id express_stations color,
       dict_get main_line_id (tracks s) = None →
       ∃ msg, create_express_line express_id main_line_id express_stations color s
              = Raise (ValueError msg) s)
  ∧ (∀ start_station_id end_station_id color,
       dict_get start_station_id (stations s) = None
       ∨ dict_get end_station_id (stations s) = None →
       ∃ msg, create_loop_connection start_station_id end_station_id color s
              = Raise (ValueError msg) s).
Proof.
  split_and!.
  - intros bid jid items c Hnone. unfold create_branch_line.
    rewrite Hnone. eauto.
  - intros eid mid idxs c Hnone. unfold create_express_line.
    rewrite Hnone. eauto.
  - intros sid eid c Hnone. unfold create_loop_connection.
    destruct Hnone as [-> | ->]; [eauto|].
    destruct (dict_get sid (stations s)); eauto.
Qed.

(** ** add_transfer_connection *)

(** C7 (amended): with both stations present and distinct, each gets
    exactly one entry for the other and becomes TRANSFER, nothing else
    changes; a station connected to itself gets two entries; with a
    missing station the network is unchanged. *)
Theorem add_transfer_connection_spec s station1_id station2_id transfer_cost :
  let s' := add_transfer_connection station1_id station2_id transfer_cost s in
  (∀ a1 a2 st1 st2,
     dict_get station1_id (stations s) = Some a1 →
     dict_get station2_id (stations s) = Some a2 →
     heap s !! a1 = Some st1 → heap s !! a2 = Some st2 →
     stations s' = stations s ∧ tracks s' = tracks s
     ∧ total_data_items s' = total_data_items s
     ∧ (∀ x, x ≠ a1 → x ≠ a2 → heap s' !! x = heap s !! x)
     ∧ (a1 ≠ a2 →
        heap s' !! a1 = Some (with_transfer a2 transfer_cost st1)
        ∧ heap s' !! a2 = Some (with_transfer a1 transfer_cost st2))
     ∧ (a1 = a2 →
        heap s' !! a1
        = Some (set_station_type StationType.TRANSFER
                  (add_transfer_destination a1 transfer_cost
                     (add_transfer_destination a1 transfer_cost st1)))))
  ∧ (dict_get station1_id (stations s) = None
     ∨ dict_get station2_id (stations s) = None → s' = s).
Proof.
  intros s'. split.
  - intros a1 a2 st1 st2 H1 H2 Hst1 Hst2. subst s'.
    unfold add_transfer_connection. rewrite H1, H2. simpl.
    split_and!; try done.
    + intros x Hx1 Hx2. by rewrite !lookup_mutate_ne.
    + intros Hne. split.
      * rewrite lookup_mutate_ne, lookup_mutate_eq, lookup_mutate_ne,
          lookup_mutate_eq, Hst1 by done. done.
      * rewrite lookup_mutate_eq, lookup_mutate_ne, lookup_mutate_eq,
          lookup_mutate_ne, Hst2 by done. done.
    + intros <-. rewrite !lookup_mutate_eq, Hst1. done.
  - subst s'. unfold add_transfer_connection. intros [-> | ->]; [done|].
    by destruct (dict_get station1_id (stations s)).
Qed.

End Operations.

(** * create_main_line *)

Section MainLine.
Context {Data : Type} `{!EqDecision Data}.
Implicit Types (s : SubwayNetwork Data) (h : list (SubwayStation Data))
  (st : SubwayStation Data) (a b p : nat).

Lemma same_core_refl st : same_core st st.
Proof. done. Qed.

Lemma same_core_trans st1 st2 st3 :
  same_core st1 st2 → same_core st2 st3 → same_core st1 st3.
Proof. unfold same_core. intros (-> & -> & ->) (-> & -> & ->). done. Qed.

Lemma main_line_loop_spec line_id color n items :
  ∀ i prev h sts track h' sts' track',
    0 < n →
    main_line_loop line_id color n i items prev h sts track = (h', sts', track') →
    track_stations track' = track_stations track ++ seq (length h) (length items)
    ∧ length h' = length h + length items
    ∧ (∀ j d, items !! j = Some d →
         ∃ st, h' !! (length h + j) = Some st
               ∧ station_id st = line_id +:+ "_station_" +:+ str (i + j)
               ∧ data st = d ∧ station_type st = main_line_type n (i + j))
    ∧ (∀ a st, h !! a = Some st → ∃ st', h' !! a = Some st' ∧ same_core st st').
Proof.
  induction items as [|d items IH]; intros i prev h sts track h' sts' track' Hn; simpl.
  - intros [= <- <- <-]. rewrite app_nil_r, Nat.add_0_r.
    split_and!; [done..| |by eauto using same_core_refl]. by intros j d' ?.
  - set (new := add_line_color color (new_station _ d _)).
    set (h1 := match prev with Some p => _ | None => _ end).
    intros Hloop. apply IH in Hloop as (Htrk & Hlen & Hnew & Hold); [|done].
    assert (length h1 = S (length h)) as Hlen1.
    { subst h1. destruct prev; rewrite ?length_mutate, length_app; simpl; lia. }
    assert (∃ st1, h1 !! length h = Some st1 ∧ same_core new st1) as (st1 & Hst1 & Hcore1).
    { subst h1. destruct prev as [p|].
      - rewrite lookup_mutate. destruct (decide (p = length h)) as [->|Hp];
          rewrite lookup_mutate_eq, list_lookup_middle by done;
          (eexists; split; [done|]); by unfold same_core.
      - rewrite list_lookup_middle by done. eauto using same_core_refl. }
    assert (∀ a st, h !! a = Some st → ∃ st', h1 !! a = Some st' ∧ same_core st st')
      as Hold1.
    { intros a st Ha. pose proof (lookup_lt_Some _ _ _ Ha) as Hlt.
      subst h1. destruct prev as [p|].
      - rewrite lookup_mutate, lookup_mutate_ne, lookup_app_l, Ha by lia.
        destruct (decide (p = a)); (eexists; split; [done|]); by unfold same_core.
      - rewrite lookup_app_l, Ha by lia. eauto using same_core_refl. }
    rewrite Hlen1 in *. split_and!.
    + rewrite Htrk. simpl. by rewrite <- app_assoc.
    + rewrite Hlen. simpl. lia.
    + intros [|j] d' Hj; simpl in Hj.
      * injection Hj as <-. rewrite !Nat.add_0_r.
        destruct (Hold _ _ Hst1) as (st' & Hst' & Hcore').
        exists st'. split; [done|].
        destruct (same_core_trans _ _ _ Hcore1 Hcore') as (-> & -> & ->).
        subst new. simpl. split_and!; [done..|].
        unfold main_line_type.
        destruct (decide (i = 0)) as [->|Hi0].
        { by rewrite bool_decide_true by auto. }
        rewrite (bool_decide_false (i = 0)) by done. simpl.
        destruct (Z.eqb_spec (Z.of_nat i) (Z.of_nat n - 1)).
        { by rewrite bool_decide_true by lia. }
        by rewrite bool_decide_false by lia.
      * destruct (Hnew _ _ Hj) as (st' & Hst' & Hid & Hd & Hty).
        exists st'.
        replace (length h + S j) with (S (length h) + j) by lia.
        by replace (i + S j) with (S i + j) by lia.
    + intros a st Ha. destruct (Hold1 _ _ Ha) as (st1' & Ha1 & Hc1).
      destruct (Hold _ _ Ha1) as (st' & Ha' & Hc'). eauto using same_core_trans.
Qed.

(** C5: the track of [create_main_line] holds one station per item, with the
    payloads in input order, TERMINAL at both ends and REGULAR in between,
    and the item counter grows by the number of items. *)
Theorem create_main_line_spec s line_id (stations_data : list Data) color :
  1 ≤ length stations_data →
  let n := length stations_data in
  let track := (create_main_line line_id stations_data color s).1 in
  let s' := (create_main_line line_id stations_data color s).2 in
  dict_get line_id (tracks s') = Some track
  ∧ length (track_stations track) = n
  ∧ (λ a, data <$> heap s' !! a) <$> track_stations track = Some <$> stations_data
  ∧ (∀ i a, track_stations track !! i = Some a →
       station_type <$> heap s' !! a
       = Some (if bool_decide (i = 0 ∨ i = n - 1)
               then StationType.TERMINAL else StationType.REGULAR))
  ∧ total_data_items s' = total_data_items s + n.
Proof.
  intros Hn n track s'. subst track s'. unfold create_main_line.
  destruct (main_line_loop _ _ _ _ _ _ _ _ _) as [[h' sts'] track'] eqn:Hloop.
  apply main_line_loop_spec in Hloop as (Htrk & Hlen & Hnew & Hold); [|done].
  simpl in *. split_and!.
  - by rewrite dict_get_set_eq.
  - rewrite Htrk, length_seq. done.
  - rewrite Htrk. apply list_eq. intros j. rewrite !list_lookup_fmap.
    destruct (stations_data !! j) as [d|] eqn:Hj; simpl.
    + rewrite lookup_seq_lt by by eapply lookup_lt_Some. simpl.
      destruct (Hnew _ _ Hj) as (st & -> & _ & <- & _). done.
    + by rewrite lookup_seq_ge by by apply lookup_ge_None.
  - intros i a Hi. rewrite Htrk in Hi. simpl in Hi.
    apply lookup_seq in Hi as [-> Hi].
    destruct (lookup_lt_is_Some_2 stations_data i Hi) as [d Hd].
    destruct (Hnew _ _ Hd) as (st & -> & _ & _ & Hty). simpl. by rewrite Hty.
  - done.
Qed.

End MainLine.

(** Resolve lookups through a chain of mutations. *)
Ltac simpl_lookup :=
  repeat first
    [ rewrite lookup_mutate_eq
    | rewrite lookup_mutate_ne by (done || by apply not_eq_sym) ].

(** * create_express_line *)

Section ExpressLine.
Context {Data : Type} `{!EqDecision Data}.
Implicit Types (s : SubwayNetwork Data) (h : list (SubwayStation Data))
  (st : SubwayStation Data) (a b p : nat).

Lemma py_index_negative {A} (l : list A) (i : Z) :
  (- Z.of_nat (length l) ≤ i < 0)%Z →
  py_index l i = l !! Z.to_nat (Z.of_nat (length l) + i)
  ∧ is_Some (l !! Z.to_nat (Z.of_nat (length l) + i)).
Proof.
  intros Hi. unfold py_index.
  destruct (Z.leb_spec 0 i); [lia|].
  destruct (Z.leb_spec (- Z.of_nat (length l)) i); [|lia].
  split; [done|]. apply lookup_lt_is_Some. lia.
Qed.

Lemma py_index_below {A} (l : list A) (i : Z) :
  (i < - Z.of_nat (length l))%Z → py_index l i = None.
Proof.
  intros Hi. unfold py_index.
  destruct (Z.leb_spec 0 i); [lia|].
  destruct (Z.leb_spec (- Z.of_nat (length l)) i); [lia|done].
Qed.

End ExpressLine.

(** * get_network_statistics *)

Lemma station_id_ne line_id n m :
  n ≠ m → line_id +:+ "_station_" +:+ str n ≠ line_id +:+ "_station_" +:+ str m.
Proof. intros Hne Heq. by apply station_id_inj in Heq. Qed.

(** Decide the comparisons of station identifiers of one line. *)
Ltac decide_station_ids :=
  repeat (rewrite decide_False by (apply station_id_ne; lia); simpl).

Section Statistics.
Context {Data : Type} `{!EqDecision Data}.

(** C8: the statistics of a network that is one main line of three items. *)
Theorem statistics_three_station_line line_id (x y z : Data) color :
  let s := (create_main_line line_id [x; y; z] color empty_network).2 in
  let stats := get_network_statistics s in
  total_stations stats = 3
  ∧ terminal_points stats = 2
  ∧ junction_count stats = 0
  ∧ total_connections s = 4
  ∧ avg_connectivity stats
    = (inject_Z (Z.of_nat (total_connections s)) / inject_Z 3)%Q
  ∧ avg_connectivity stats = (4 # 3)%Q.
Proof.
  intros s stats. subst stats s.
  unfold create_main_line. simpl. decide_station_ids.
  unfold count_type, total_connections, station_values. simpl.
  decide_station_ids. split_and!; reflexivity.
Qed.
End Statistics.

(** * find_optimal_route: single loop iterations *)

Section RouteSteps.
Context {Data : Type} `{!EqDecision Data}.
Implicit Types (s : SubwayNetwork Data) (h : list (SubwayStation Data))
  (st : SubwayStation Data) (visited : gset string).

Lemma route_loop_skip fuel h e visited current path cost queue st :
  h !! current = Some st → station_id st ∈ visited →
  route_loop (S fuel) h e visited ((current, path, cost) :: queue)
  = route_loop fuel h e visited queue.
Proof. intros Hst Hin. simpl. by rewrite Hst, bool_decide_true. Qed.

Lemma route_loop_found fuel h visited current path cost queue st :
  h !! current = Some st → station_id st ∉ visited →
  route_loop (S fuel) h current visited ((current, path, cost) :: queue)
  = Some (Returns path).
Proof.
  intros Hst Hin. simpl.
  by rewrite Hst, bool_decide_false, bool_decide_true.
Qed.

Lemma route_loop_expand fuel h e visited current path cost queue st candidates :
  h !! current = Some st → station_id st ∉ visited → current ≠ e →
  next_options h (visited ∪ {[station_id st]}) st path cost = Some candidates →
  route_loop (S fuel) h e visited ((current, path, cost) :: queue)
  = route_loop fuel h e (visited ∪ {[station_id st]})
      (queue ++ sort_by (λ x : nat * list string * number, x.2) candidates).
Proof.
  intros Hst Hin Hne Hcand. simpl.
  by rewrite Hst, !bool_decide_false, Hcand.
Qed.

Lemma route_loop_overflow fuel h e visited current path cost queue st :
  h !! current = Some st → station_id st ∉ visited → current ≠ e →
  next_options h (visited ∪ {[station_id st]}) st path cost = None →
  route_loop (S fuel) h e visited ((current, path, cost) :: queue)
  = Some (Raises OverflowError).
Proof.
  intros Hst Hin Hne Hcand. simpl.
  by rewrite Hst, !bool_decide_false, Hcand.
Qed.

Lemma first_with_data_hit h (d : Data) a l st :
  h !! a = Some st → data st = d → first_with_data h d (a :: l) = Some a.
Proof. intros Hst Hd. simpl. by rewrite Hst, decide_True. Qed.

Lemma first_with_data_miss h (d : Data) a l st :
  h !! a = Some st → data st ≠ d →
  first_with_data h d (a :: l) = first_with_data h d l.
Proof. intros Hst Hd. simpl. by rewrite Hst, decide_False. Qed.

End RouteSteps.

Section ExpressScenario.
Context {Data : Type} `{!EqDecision Data}.

(** C1: on a main line of six items with an express line over indices 0
    and 5, the route from the first item to the last is the two-station path
    over the express shortcut: its candidate, at cost 0.3, is first in the
    sorted candidates of the start station. *)
Theorem express_shortcut_route line_id express_id (A B C D E F : Data) color color' :
  F ≠ A → F ≠ B → F ≠ C → F ≠ D → F ≠ E →
  let M i := line_id +:+ "_station_" +:+ str i in
  let s0 := (create_main_line line_id [A; B; C; D; E; F] color empty_network).2 in
  let s := state_of (create_express_line express_id line_id [0; 5]%Z color' s0) in
  find_optimal_route s A F = Some (Returns [M 0; M 5])
  ∧ ∃ st0 candidates, heap s !! 0 = Some st0
      ∧ next_options (heap s) {[M 0]} st0 [M 0] (Int 0) = Some candidates
      ∧ sort_by (λ x : nat * list string * number, x.2) candidates
        = [(5, [M 0; M 5], Float float_0_3);
           (5, [M 0; M 5], Float float_0_5);
           (1, [M 0; M 1], Int 1)].
Proof.
  intros HA HB HC HD HE M s0 s. subst s s0.
  unfold create_main_line. simpl. decide_station_ids.
  unfold create_express_line. simpl. rewrite decide_True by done. simpl.
  match goal with |- context [mkNetwork ?h _ _ _] => set (hp := h) end.
  assert (∃ st0 candidates, hp !! 0 = Some st0
      ∧ next_options hp {[M 0]} st0 [M 0] (Int 0) = Some candidates
      ∧ sort_by (λ x : nat * list string * number, x.2) candidates
        = [(5, [M 0; M 5], Float float_0_3);
           (5, [M 0; M 5], Float float_0_5);
           (1, [M 0; M 1], Int 1)]) as Hcand.
  { eexists _, _. split; [reflexivity|].
    unfold next_options, option_to. simpl.
    change (id_at hp 1) with (M 1). change (id_at hp 5) with (M 5).
    assert (M 1 ∉ ({[M 0]} : gset string)) as H1.
    { apply not_elem_of_singleton, station_id_ne. lia. }
    assert (M 5 ∉ ({[M 0]} : gset string)) as H5.
    { apply not_elem_of_singleton, station_id_ne. lia. }
    rewrite !bool_decide_true by done. split; reflexivity. }
  split; [|done].
  destruct Hcand as (st0 & candidates & Hst0 & Hopts & Hcand).
  unfold find_optimal_route, _find_station_by_data. simpl heap. simpl stations.
  unfold dict_values. simpl fmap.
  erewrite first_with_data_hit; [|reflexivity..].
  do 5 (erewrite first_with_data_miss; [|reflexivity|by apply not_eq_sym]).
  erewrite first_with_data_hit; [|reflexivity..].
  change (route_fuel hp) with (S (S (sum_list_with out_degree hp))).
  assert (station_id st0 = M 0) as Hid by by injection Hst0 as <-.
  change (id_at hp 0) with (M 0).
  erewrite route_loop_expand;
    [|exact Hst0|set_solver|done|by rewrite Hid, (left_id_L ∅ (∪))].
  rewrite Hid, (left_id_L ∅ (∪)), Hcand. simpl app.
  erewrite route_loop_found; [done|reflexivity|].
  simpl. apply not_elem_of_singleton, station_id_ne. lia.
Qed.
End ExpressScenario.

(** * find_optimal_route: termination *)

Section RouteTermination.
Context {Data : Type} `{!EqDecision Data}.
Implicit Types (s : SubwayNetwork Data) (h : list (SubwayStation Data))
  (st : SubwayStation Data) (visited : gset string)
  (queue : list (nat * list string * number)).

Lemma sort_insert_length {A} (key : A → number) x (l : list A) :
  length (sort_insert key x l) = S (length l).
Proof.
  induction l as [|y l IH]; simpl; [done|].
  destruct (number_ltb _ _); simpl; by rewrite ?IH.
Qed.

Lemma sort_by_length {A} (key : A → number) (l : list A) :
  length (sort_by key l) = length l.
Proof.
  induction l as [|x l IH]; simpl; [done|].
  by rewrite sort_insert_length, IH.
Qed.

Lemma sort_insert_elem {A} (key : A → number) x y (l : list A) :
  y ∈ sort_insert key x l ↔ y = x ∨ y ∈ l.
Proof.
  induction l as [|z l IH]; simpl.
  - rewrite list_elem_of_singleton, elem_of_nil. tauto.
  - destruct (number_ltb _ _).
    + rewrite !elem_of_cons, IH. tauto.
    + by rewrite elem_of_cons.
Qed.

Lemma sort_by_elem {A} (key : A → number) y (l : list A) :
  y ∈ sort_by key l ↔ y ∈ l.
Proof.
  induction l as [|x l IH]; simpl; [done|].
  by rewrite sort_insert_elem, elem_of_cons, IH.
Qed.

(** The candidates of one guarded append, without their costs. *)
Lemma option_to_targets h visited path a c r :
  option_to h visited path a c = Some r →
  r.*1 = (λ b, (b, path ++ [id_at h b])) <$> filter (λ b, id_at h b ∉ visited) [a].
Proof.
  unfold option_to. rewrite filter_cons, filter_nil.
  destruct (decide (id_at h a ∉ visited)) as [Hnew|Hold].
  - rewrite bool_decide_true by done.
    destruct c as [c|]; [|done]. by intros [= <-].
  - rewrite bool_decide_false by done. by intros [= <-].
Qed.

Lemma collect_targets {A} h visited path (f : A → option (list (nat * list string * number)))
    (g : A → nat) (l : list A) r :
  (∀ x, ∃ c, f x = option_to h visited path (g x) c) →
  collect f l = Some r →
  r.*1 = (λ b, (b, path ++ [id_at h b]))
           <$> filter (λ b, id_at h b ∉ visited) (g <$> l).
Proof.
  intros Hf. revert r. induction l as [|x l IH]; intros r; cbn [collect].
  - by intros [= <-].
  - destruct (Hf x) as [c Hx].
    destruct (f x) as [ys|] eqn:Hys; [|done]. cbn [mbind option_bind].
    destruct (collect f l) as [zs|]; [|done]. cbn [mbind option_bind].
    intros [= <-].
    symmetry in Hx. apply option_to_targets in Hx.
    rewrite fmap_app, Hx, (IH zs eq_refl), fmap_cons.
    change (g x :: (g <$> l)) with ([g x] ++ (g <$> l)).
    by rewrite filter_app, fmap_app.
Qed.

(** The candidates of an expansion, without their costs: the targets whose
    id is not visited, each with the path extended by its id. *)
Lemma next_options_targets h visited st path cost candidates :
  next_options h visited st path cost = Some candidates →
  candidates.*1
  = (λ b, (b, path ++ [id_at h b]))
      <$> filter (λ b, id_at h b ∉ visited) (next_targets st).
Proof.
  unfold next_options, next_targets.
  destruct (collect _ (next_stations st)) as [o1|] eqn:H1; [|done]. simpl.
  destruct (match express_skip_to st with Some _ => _ | None => _ end)
    as [o2|] eqn:H2; [|done]. simpl.
  destruct (collect _ (branch_connections st)) as [o3|] eqn:H3; [|done]. simpl.
  destruct (collect _ (transfer_destinations st)) as [o4|] eqn:H4; [|done]. simpl.
  destruct (match dict_get TrackType.LOOP (next_stations st) with
            | Some _ => _ | None => _ end) as [o5|] eqn:H5; [|done]. simpl.
  intros [= <-]. rewrite !filter_app, !fmap_app. f_equal; [|f_equal; [|f_equal; [|f_equal]]].
  - eapply (collect_targets _ _ _ _ snd); [|exact H1]. intros [k b]. by eexists.
  - destruct (express_skip_to st) as [e|].
    + by apply option_to_targets in H2.
    + by injection H2 as <-.
  - rewrite <- (list_fmap_id (branch_connections st)).
    eapply (collect_targets _ _ _ _ id); [|exact H3]. intros b. by eexists.
  - eapply (collect_targets _ _ _ _ fst); [|exact H4]. intros [t c]. by eexists.
  - destruct (dict_get TrackType.LOOP (next_stations st)) as [l|].
    + by apply option_to_targets in H5.
    + by injection H5 as <-.
Qed.

Lemma next_targets_length st : length (next_targets st) ≤ out_degree st.
Proof.
  unfold next_targets, out_degree. rewrite !length_app, !length_fmap.
  destruct (express_skip_to st), (dict_get _ _); simpl; lia.
Qed.

Lemma next_options_length h visited st path cost candidates :
  next_options h visited st path cost = Some candidates →
  length candidates ≤ out_degree st.
Proof.
  intros Hc%next_options_targets. apply (f_equal length) in Hc.
  rewrite !length_fmap in Hc. rewrite Hc.
  etrans; [apply length_filter|apply next_targets_length].
Qed.

Lemma pending_le h visited : pending h visited ≤ sum_list_with out_degree h.
Proof.
  unfold pending. induction h as [|st h IH]; simpl; [done|].
  rewrite filter_cons. destruct (decide _); simpl; lia.
Qed.

Lemma pending_visit h visited a st :
  h !! a = Some st → station_id st ∉ visited →
  out_degree st + pending h (visited ∪ {[station_id st]}) ≤ pending h visited.
Proof.
  intros Hst Hnew. unfold pending. revert a Hst.
  induction h as [|st' h IH]; intros a Hst; [done|].
  rewrite !filter_cons.
  assert (sum_list_with out_degree
            (filter (λ st0, station_id st0 ∉ visited ∪ {[station_id st]}) h)
          ≤ sum_list_with out_degree (filter (λ st0, station_id st0 ∉ visited) h))
    as Hmono.
  { clear. induction h as [|x h IH]; [done|]. rewrite !filter_cons.
    destruct (decide (station_id x ∉ visited ∪ {[station_id st]})) as [Hx|Hx].
    - rewrite decide_True by set_solver. simpl. lia.
    - destruct (decide (station_id x ∉ visited)); simpl; lia. }
  destruct a as [|a]; simpl in Hst.
  - injection Hst as ->.
    rewrite decide_False by set_solver. rewrite decide_True by done.
    simpl. lia.
  - specialize (IH _ Hst).
    destruct (decide (station_id st' ∉ visited ∪ {[station_id st]})) as [Hx|Hx].
    + rewrite decide_True by set_solver. simpl. lia.
    + destruct (decide (station_id st' ∉ visited)); simpl; lia.
Qed.

Lemma route_loop_terminates fuel h e visited queue :
  length queue + pending h visited < fuel →
  is_Some (route_loop fuel h e visited queue).
Proof.
  revert visited queue.
  induction fuel as [|fuel IH]; intros visited queue Hfuel; [lia|].
  destruct queue as [|[[current path] cost] queue]; simpl; [done|].
  simpl in Hfuel.
  destruct (h !! current) as [st|] eqn:Hst; [|apply IH; lia].
  destruct (decide (station_id st ∈ visited)) as [Hin|Hin].
  { rewrite bool_decide_true by done. apply IH. lia. }
  rewrite bool_decide_false by done.
  destruct (bool_decide (current = e)); [done|].
  destruct (next_options _ _ _ _ _) as [candidates|] eqn:Hcand; [|done].
  apply IH. rewrite length_app, sort_by_length.
  pose proof (next_options_length _ _ _ _ _ _ Hcand).
  pose proof (pending_visit h visited current st Hst Hin). lia.
Qed.

Lemma route_loop_more_fuel fuel fuel' h e visited queue r :
  route_loop fuel h e visited queue = Some r → fuel ≤ fuel' →
  route_loop fuel' h e visited queue = Some r.
Proof.
  revert fuel' visited queue.
  induction fuel as [|fuel IH]; intros fuel' visited queue Hrun Hle; [done|].
  destruct fuel' as [|fuel']; [lia|]. simpl in *.
  destruct queue as [|[[current pth] cost] queue]; [done|].
  destruct (h !! current) as [st|]; [|apply IH; [done|lia]].
  destruct (bool_decide (station_id st ∈ visited)); [apply IH; [done|lia]|].
  destruct (bool_decide (current = e)); [done|].
  destruct (next_options _ _ _ _ _); [|done].
  apply IH; [done|lia].
Qed.

Lemma route_expansions_fresh fuel h e visited queue x :
  x ∈ route_expansions fuel h e visited queue → x ∉ visited.
Proof.
  revert visited queue.
  induction fuel as [|fuel IH]; intros visited queue; simpl; [by intros ?%elem_of_nil|].
  destruct queue as [|[[current path] cost] queue]; [by intros ?%elem_of_nil|].
  destruct (h !! current) as [st|]; [|apply IH].
  destruct (decide (station_id st ∈ visited)) as [Hin|Hin].
  { rewrite bool_decide_true by done. apply IH. }
  rewrite bool_decide_false by done.
  intros [->|Hx]%elem_of_cons; [done|].
  destruct (bool_decide (current = e)); [by apply elem_of_nil in Hx|].
  destruct (next_options _ _ _ _ _); [|by apply elem_of_nil in Hx].
  apply IH in Hx. set_solver.
Qed.

Lemma route_expansions_NoDup fuel h e visited queue :
  NoDup (route_expansions fuel h e visited queue).
Proof.
  revert visited queue.
  induction fuel as [|fuel IH]; intros visited queue; simpl; [apply NoDup_nil_2|].
  destruct queue as [|[[current path] cost] queue]; [apply NoDup_nil_2|].
  destruct (h !! current) as [st|]; [|apply IH].
  destruct (bool_decide (station_id st ∈ visited)); [apply IH|].
  apply NoDup_cons. split.
  - destruct (bool_decide (current = e)); [apply not_elem_of_nil|].
    destruct (next_options _ _ _ _ _); [|apply not_elem_of_nil].
    intros Hx%route_expansions_fresh. set_solver.
  - destruct (bool_decide (current = e)); [apply NoDup_nil_2|].
    destruct (next_options _ _ _ _ _); [apply IH|apply NoDup_nil_2].
Qed.

Lemma find_optimal_route_is_Some s (start_data end_data : Data) :
  is_Some (find_optimal_route s start_data end_data).
Proof.
  unfold find_optimal_route.
  destruct (_find_station_by_data s start_data); [|done].
  destruct (_find_station_by_data s end_data); [|done].
  apply route_loop_terminates. unfold route_fuel. simpl.
  pose proof (pending_le (heap s) ∅). lia.
Qed.

(** C9: the search ends.  From any loop state the number of iterations is
    bounded by the frontier length plus the candidates the unvisited
    stations can still contribute, no station id is expanded twice, and
    [find_optimal_route] runs with enough fuel for its initial state. *)
Theorem find_optimal_route_terminates s (start_data end_data : Data) :
  is_Some (find_optimal_route s start_data end_data)
  ∧ ∀ h e visited queue,
      (∃ r, ∀ fuel, length queue + pending h visited < fuel →
                    route_loop fuel h e visited queue = Some r)
      ∧ ∀ fuel, NoDup (route_expansions fuel h e visited queue)
                ∧ ∀ x, x ∈ route_expansions fuel h e visited queue → x ∉ visited.
Proof.
  split; [apply find_optimal_route_is_Some|].
  intros h e visited queue. split.
  - destruct (route_loop_terminates (S (length queue + pending h visited))
                h e visited queue) as [r Hr]; [lia|].
    exists r. intros fuel Hfuel.
    eapply route_loop_more_fuel; [done|lia].
  - intros fuel. split; [apply route_expansions_NoDup|].
    intros x. apply route_expansions_fresh.
Qed.

End RouteTermination.

(** * Costs: the float range *)

Section FloatRange.
Local Open Scope Z_scope.

Lemma digits2_pos_size p : digits2_pos p = Pos.size p.
Proof. induction p; simpl; by rewrite ?IHp. Qed.












(** The literals: [0.5] is exact, [0.3] is within half a unit in the last
    place (2^-55) of 3/10, and both are floats in canonical form. *)
Lemma float_literals :
  valid_binary 53 1024 float_0_5 = true
  ∧ valid_binary 53 1024 float_0_3 = true
  ∧ (∃ q, float_value float_0_5 = Some (Finite q) ∧ (q == 1 # 2)%Q)
  ∧ (∃ q, float_value float_0_3 = Some (Finite q)
          ∧ ((q - (3 # 10)) * inject_Z (2 ^ 55) < 1)%Q
          ∧ (((3 # 10) - q) * inject_Z (2 ^ 55) < 1)%Q).
Proof.
  split_and!; [done|done|by eexists|].
  eexists. split_and!; [done|..]; vm_compute; done.
Qed.

(** Rounding a non-negative mantissa never gives a NaN. *)
Lemma shr_1_nonneg s : 0 ≤ shr_m s → 0 ≤ shr_m (shr_1 s).
Proof. destruct s as [m r t]. destruct m as [|p|p]; [done| |done]. by destruct p. Qed.

Lemma iter_shr_1_nonneg p : ∀ s, 0 ≤ shr_m s → 0 ≤ shr_m (SpecFloat.iter_pos shr_1 p s).
Proof.
  induction p as [p IH|p IH|]; intros s Hs; simpl.
  - by apply IH, IH, shr_1_nonneg.
  - by apply IH, IH.
  - by apply shr_1_nonneg.
Qed.

Lemma shr_fexp_nonneg m e l mrs e' :
  0 ≤ m → shr_fexp 53 1024 m e l = (mrs, e') → 0 ≤ shr_m mrs.
Proof.
  intros Hm. unfold shr_fexp, shr.
  assert (shr_m (shr_record_of_loc m l) = m) as Hrec by by destruct l as [|[]].
  destruct (fexp 53 1024 (Zdigits2 m + e) - e) as [|n|n]; intros [= <- <-].
  - by rewrite Hrec.
  - apply iter_shr_1_nonneg. by rewrite Hrec.
  - by rewrite Hrec.
Qed.

Lemma binary_round_aux_not_nan sx m e l :
  0 ≤ m → binary_round_aux 53 1024 sx m e l ≠ S754_nan.
Proof.
  intros Hm. unfold binary_round_aux.
  destruct (shr_fexp 53 1024 m e l) as [mrs' e'] eqn:H1.
  destruct (shr_fexp 53 1024 _ e' loc_Exact) as [mrs'' e''] eqn:H2.
  apply shr_fexp_nonneg in H1; [|done].
  apply shr_fexp_nonneg in H2.
  - destruct (shr_m mrs'') as [|q|q]; [done| |done].
    by destruct (Z.leb e'' (1024 - 53)).
  - destruct (loc_of_shr_record mrs') as [|[]]; simpl; try done; try lia.
    destruct (Z.even (shr_m mrs')); lia.
Qed.

Lemma binary_normalize_not_nan m e szero :
  binary_normalize 53 1024 m e szero ≠ S754_nan.
Proof.
  unfold binary_normalize, binary_round.
  destruct m as [|p|p]; [done|..];
    destruct (shl_align _ _ _) as [mz ez];
    by apply binary_round_aux_not_nan.
Qed.

(** Adding a float that is zero or finite to one that is not NaN does not
    give a NaN: no difference of infinities arises. *)
Lemma float_add_not_nan f x :
  f ≠ S754_nan → x ≠ S754_nan → (∀ s, x ≠ S754_infinity s) →
  float_add f x ≠ S754_nan.
Proof.
  intros Hf Hx Hinf. unfold float_add, SFadd.
  destruct f as [sf|sf| |sf mf ef]; [| |done|];
    destruct x as [sx|sx| |sx mx ex]; try done;
    try (by destruct (Hinf sx)).
  - by destruct sf, sx.
  - apply binary_normalize_not_nan.
Qed.

Lemma float_of_int_finite k f :
  float_of_int k = Some f → f ≠ S754_nan ∧ ∀ s, f ≠ S754_infinity s.
Proof.
  unfold float_of_int.
  pose proof (binary_normalize_not_nan k 0 false) as Hnan.
  destruct (binary_normalize 53 1024 k 0 false); [| |done|];
    intros [= <-]; by split.
Qed.

Lemma add_int_not_nan c k c' : not_nan c → add_int c k = Some c' → not_nan c'.
Proof.
  destruct c as [z|f]; simpl; [by intros _ [= <-]|].
  intros Hf. destruct (float_of_int k) as [f'|] eqn:Hk; [|done].
  intros [= <-]. simpl.
  apply float_of_int_finite in Hk as [Hnan Hinf].
  pose proof (float_add_not_nan f f') as Hadd.
  destruct (float_add f f'); try done.
  apply Hadd; [by destruct f|done..].
Qed.

Lemma add_float_not_nan c x c' :
  not_nan c → x = float_0_5 ∨ x = float_0_3 →
  add_float c x = Some c' → not_nan c'.
Proof.
  intros Hc Hx.
  assert (x ≠ S754_nan ∧ ∀ s, x ≠ S754_infinity s) as [Hnan Hinf].
  { by destruct Hx as [-> | ->]. }
  destruct c as [z|f]; simpl.
  - destruct (float_of_int z) as [f|] eqn:Hz; [|done].
    intros [= <-]. simpl.
    apply float_of_int_finite in Hz as [Hf _].
    pose proof (float_add_not_nan f x Hf Hnan Hinf).
    by destruct (float_add f x).
  - intros [= <-]. simpl.
    pose proof (float_add_not_nan f x) as Hadd.
    destruct (float_add f x); try done.
    apply Hadd; [by destruct f|done..].
Qed.

End FloatRange.

(** * find_optimal_route: when no cost addition overflows *)

Section RouteInRange.
Context {Data : Type} `{!EqDecision Data}.
Implicit Types (s : SubwayNetwork Data) (h : list (SubwayStation Data))
  (st : SubwayStation Data) (visited : gset string)
  (queue : list (nat * list string * number)).

Lemma dict_elem_is_Some {K V} `{EqDecision K} (k : K) (v : V) (d : dict K V) :
  (k, v) ∈ d → is_Some (dict_get k d).
Proof.
  induction d as [|[k0 v0] d IH]; simpl; [by intros ?%elem_of_nil|].
  destruct (decide (k = k0)) as [->|Hne]; [by eexists|].
  intros [[= ? ?]|Hin]%elem_of_cons; [done|by apply IH].
Qed.




Lemma option_to_within (P : number → Prop) h visited path a c :
  (∃ c', c = Some c' ∧ P c') →
  ∃ r, option_to h visited path a c = Some r ∧ Forall (λ x, P x.2) r.
Proof.
  intros (c' & -> & Hc). unfold option_to.
  destruct (bool_decide _); simpl; eexists; (split; [done|]).
  - by apply Forall_singleton.
  - apply Forall_nil_2.
Qed.

Lemma collect_within {A B} (P : B → Prop) (f : A → option (list B)) (l : list A) :
  (∀ x, x ∈ l → ∃ r, f x = Some r ∧ Forall P r) →
  ∃ r, collect f l = Some r ∧ Forall P r.
Proof.
  induction l as [|x l IH]; intros Hf; simpl.
  - eexists. split; [done|apply Forall_nil_2].
  - destruct (Hf x) as (ys & -> & Hys); [apply elem_of_cons; by left|].
    destruct IH as (zs & -> & Hzs).
    { intros y Hy. apply Hf, elem_of_cons. by right. }
    simpl. eexists. split; [done|]. by apply Forall_app.
Qed.

(** An expansion whose additions all succeed, with costs in [P]. *)
Lemma next_options_within (P : number → Prop) h visited st path cost :
  (∀ k, k = 1%Z ∨ k = 2%Z ∨ k ∈ (transfer_destinations st).*2 →
        ∃ c', add_int cost k = Some c' ∧ P c') →
  (is_Some (dict_get TrackType.EXPRESS (next_stations st)) →
   ∃ c', add_float cost float_0_5 = Some c' ∧ P c') →
  (is_Some (express_skip_to st) →
   ∃ c', add_float cost float_0_3 = Some c' ∧ P c') →
  ∃ candidates, next_options h visited st path cost = Some candidates
                ∧ Forall (λ x, P x.2) candidates.
Proof.
  intros Hint Hhalf Hskip. unfold next_options.
  set (P' := λ x : nat * list string * number, P x.2).
  assert (∃ o, collect (λ '(track_type, next_station),
                  option_to h visited path next_station
                    (next_cost ← add_int cost 1;
                     if decide (track_type = TrackType.EXPRESS)
                     then add_float cost float_0_5 else Some next_cost))
                 (next_stations st) = Some o ∧ Forall P' o) as (o1 & -> & H1).
  { apply collect_within. intros [k b] Hin. apply option_to_within.
    destruct (Hint 1%Z) as (c1 & -> & Hc1); [by left|]. simpl.
    destruct (decide (k = TrackType.EXPRESS)) as [->|]; [|by eexists].
    apply Hhalf. by eapply dict_elem_is_Some. }
  assert (∃ o, match express_skip_to st with
               | Some e => option_to h visited path e (add_float cost float_0_3)
               | None => Some []
               end = Some o ∧ Forall P' o) as (o2 & -> & H2).
  { destruct (express_skip_to st) as [e|] eqn:He.
    - apply option_to_within, Hskip. rewrite ?He. by eexists.
    - eexists. split; [done|apply Forall_nil_2]. }
  assert (∃ o, collect (λ b, option_to h visited path b (add_int cost 1))
                 (branch_connections st) = Some o ∧ Forall P' o) as (o3 & -> & H3).
  { apply collect_within. intros b _. apply option_to_within, Hint. by left. }
  assert (∃ o, collect (λ '(t, transfer_cost),
                  option_to h visited path t (add_int cost transfer_cost))
                 (transfer_destinations st) = Some o ∧ Forall P' o) as (o4 & -> & H4).
  { apply collect_within. intros [t k] Hin. apply option_to_within, Hint.
    right; right. apply list_elem_of_fmap. by exists (t, k). }
  assert (∃ o, match dict_get TrackType.LOOP (next_stations st) with
               | Some l => option_to h visited path l (add_int cost 2)
               | None => Some []
               end = Some o ∧ Forall P' o) as (o5 & -> & H5).
  { destruct (dict_get TrackType.LOOP (next_stations st)) as [l|].
    - apply option_to_within, Hint. by right; left.
    - eexists. split; [done|apply Forall_nil_2]. }
  simpl. eexists. split; [done|]. by rewrite !Forall_app.
Qed.

(** The loop returns when every expansion succeeds; [P n] holds of the
    costs in the frontier with [n] iterations to go. *)
Lemma route_loop_returns (P : nat → number → Prop) fuel h e visited queue :
  (∀ n c, P (S n) c → P n c) →
  (∀ n v st path cost,
     n < fuel → st ∈ h → P (S n) cost →
     ∃ candidates, next_options h v st path cost = Some candidates
                   ∧ Forall (λ x, P n x.2) candidates) →
  Forall (λ x, P fuel x.2) queue →
  ∀ r, route_loop fuel h e visited queue = Some r → ∃ path, r = Returns path.
Proof.
  intros Hmono. revert visited queue.
  induction fuel as [|fuel IH]; intros visited queue Hexp Hq r; simpl; [done|].
  destruct queue as [|[[current pth] cost] queue]; [intros [= <-]; by eexists|].
  apply Forall_cons in Hq as [Hcost Hq]. simpl in Hcost.
  assert (Forall (λ x, P fuel x.2) queue) as Hq'.
  { eapply Forall_impl; [done|]. intros x. apply Hmono. }
  assert (∀ n v st path cost,
            n < fuel → st ∈ h → P (S n) cost →
            ∃ candidates, next_options h v st path cost = Some candidates
                          ∧ Forall (λ x, P n x.2) candidates) as Hexp'.
  { intros n v st path c ?. apply Hexp. lia. }
  destruct (h !! current) as [st|] eqn:Hst; [|by apply IH].
  destruct (bool_decide (station_id st ∈ visited)); [by apply IH|].
  destruct (bool_decide (current = e)); [intros [= <-]; by eexists|].
  destruct (Hexp fuel (visited ∪ {[station_id st]}) st pth cost)
    as (candidates & -> & Hcand); [lia|by eapply list_elem_of_lookup_2|done|].
  apply IH; [done|]. apply Forall_app. split; [done|].
  apply Forall_forall. intros x Hx%sort_by_elem.
  by apply (proj1 (Forall_forall _ _) Hcand).
Qed.

Lemma option_to_costs (P : number → Prop) h visited path a c r :
  (∀ c', c = Some c' → P c') →
  option_to h visited path a c = Some r → Forall (λ x, P x.2) r.
Proof.
  intros Hc. unfold option_to. destruct (bool_decide _).
  - destruct c as [c'|]; [|done]. intros [= <-].
    apply Forall_singleton. by apply Hc.
  - intros [= <-]. apply Forall_nil_2.
Qed.

Lemma collect_costs {A B} (P : B → Prop) (f : A → option (list B)) (l : list A) r :
  (∀ x ys, f x = Some ys → Forall P ys) →
  collect f l = Some r → Forall P r.
Proof.
  intros Hf. revert r. induction l as [|x l IH]; intros r; simpl.
  - intros [= <-]. apply Forall_nil_2.
  - destruct (f x) as [ys|] eqn:Hys; [|done]. simpl.
    destruct (collect f l) as [zs|]; [|done]. simpl. intros [= <-].
    apply Forall_app. split; [by eapply Hf|by apply IH].
Qed.

(** The costs of the candidates are never NaN. *)
Lemma next_options_not_nan h visited st path cost candidates :
  not_nan cost →
  next_options h visited st path cost = Some candidates →
  Forall (λ x, not_nan x.2) candidates.
Proof.
  intros Hcost. unfold next_options.
  destruct (collect _ (next_stations st)) as [o1|] eqn:H1; [|done]. simpl.
  destruct (match express_skip_to st with Some _ => _ | None => _ end)
    as [o2|] eqn:H2; [|done]. simpl.
  destruct (collect _ (branch_connections st)) as [o3|] eqn:H3; [|done]. simpl.
  destruct (collect _ (transfer_destinations st)) as [o4|] eqn:H4; [|done]. simpl.
  destruct (match dict_get TrackType.LOOP (next_stations st) with
            | Some _ => _ | None => _ end) as [o5|] eqn:H5; [|done]. simpl.
  intros [= <-]. rewrite !Forall_app. split_and!.
  - eapply collect_costs; [|exact H1]. intros [k b] ys.
    apply option_to_costs. intros c'.
    destruct (add_int cost 1) as [c1|] eqn:Hc1; [|done]. simpl.
    destruct (decide (k = TrackType.EXPRESS)).
    + apply add_float_not_nan; [done|by left].
    + intros [= <-]. by eapply add_int_not_nan.
  - destruct (express_skip_to st) as [e|]; [|injection H2 as <-; apply Forall_nil_2].
    eapply option_to_costs; [|exact H2].
    intros c'. apply add_float_not_nan; [done|by right].
  - eapply collect_costs; [|exact H3]. intros b ys.
    apply option_to_costs. intros c'. by apply add_int_not_nan.
  - eapply collect_costs; [|exact H4]. intros [t k] ys.
    apply option_to_costs. intros c'. by apply add_int_not_nan.
  - destruct (dict_get TrackType.LOOP (next_stations st)) as [l|];
      [|injection H5 as <-; apply Forall_nil_2].
    eapply option_to_costs; [|exact H5].
    intros c'. by apply add_int_not_nan.
Qed.


(** Without express entries every cost stays an int, and ints never
    overflow. *)
Lemma find_optimal_route_no_express s (start_data end_data : Data) :
  no_express (heap s) →
  ∃ path, find_optimal_route s start_data end_data = Some (Returns path).
Proof.
  intros Hno.
  destruct (find_optimal_route_is_Some s start_data end_data) as [r Hr].
  rewrite Hr. unfold find_optimal_route in Hr.
  destruct (_find_station_by_data s start_data) as [a|];
    [|injection Hr as <-; by eexists].
  destruct (_find_station_by_data s end_data) as [b|];
    [|injection Hr as <-; by eexists].
  destruct (route_loop_returns (λ _ c, ∃ z, c = Int z)
              (route_fuel (heap s)) (heap s) b ∅
              [(a, [id_at (heap s) a], Int 0)]) with (r := r)
    as [path ->]; [done| | |done|by eexists].
  - intros n v st path cost _ Hst [z ->].
    apply (proj1 (Forall_forall _ _) Hno) in Hst as [Hexp Hskip].
    apply (next_options_within (λ c, ∃ z, c = Int z)).
    + intros k _. simpl. eexists. split; [done|by eexists].
    + rewrite Hexp. by intros [? ?].
    + rewrite Hskip. by intros [? ?].
  - apply Forall_singleton. by eexists.
Qed.

End RouteInRange.


(** * find_optimal_route: empty results *)

Section RouteEmpty.
Context {Data : Type} `{!EqDecision Data}.
Implicit Types (s : SubwayNetwork Data) (h : list (SubwayStation Data))
  (st : SubwayStation Data) (visited : gset string)
  (queue : list (nat * list string * number)).

Lemma next_targets_successors st b : b ∈ next_targets st ↔ b ∈ successors st.
Proof.
  unfold next_targets, successors. rewrite !elem_of_app. split; [|tauto].
  intros [?|[?|[?|[?|Hb]]]]; [tauto..|]. left.
  destruct (dict_get TrackType.LOOP (next_stations st)) as [l|] eqn:Hl;
    [|by apply elem_of_nil in Hb].
  apply list_elem_of_singleton in Hb as ->.
  apply dict_get_Some_elem in Hl. apply list_elem_of_fmap. by eexists (_, _).
Qed.

(** A candidate is a target that is not visited, with the path extended by
    its id. *)
Lemma next_options_elem h visited st path cost candidates x :
  next_options h visited st path cost = Some candidates → x ∈ candidates →
  let b := x.1.1 in
  b ∈ next_targets st ∧ (id_at h b ∉ visited)
  ∧ x.1.2 = path ++ [id_at h b].
Proof.
  intros Hc%next_options_targets Hx.
  assert (x.1 ∈ candidates.*1) as Hx1 by (apply list_elem_of_fmap; by exists x).
  rewrite Hc in Hx1. apply list_elem_of_fmap in Hx1 as (b & -> & Hb).
  by apply list_elem_of_filter in Hb as [? ?].
Qed.

(** Every candidate is one hop away from the expanded station. *)
Lemma next_options_successors h visited st path cost candidates x :
  next_options h visited st path cost = Some candidates → x ∈ candidates →
  x.1.1 ∈ successors st.
Proof.
  intros Hc Hx. apply next_targets_successors.
  by destruct (next_options_elem _ _ _ _ _ _ _ Hc Hx).
Qed.





End RouteEmpty.

(** * The next/prev invariant *)

Section Links.
Context {Data : Type} `{!EqDecision Data}.
Implicit Types (s : SubwayNetwork Data) (h : list (SubwayStation Data))
  (st : SubwayStation Data) (a b p : nat) (k : TrackType.t)
  (f : SubwayStation Data → SubwayStation Data).

Lemma lookup_mutate_Some h a f x st' :
  mutate a f h !! x = Some st' →
  ∃ st, h !! x = Some st ∧ st' = if decide (a = x) then f st else st.
Proof.
  rewrite lookup_mutate. destruct (decide (a = x)) as [->|Hne].
  - destruct (h !! x) as [st|]; [|done]. intros [= <-]. eauto.
  - eauto.
Qed.

Lemma closed_mutate h a f :
  next_within (length h) f → closed h → closed (mutate a f h).
Proof.
  intros Hf Hc x st' k b (st & Hst & ->)%lookup_mutate_Some Hn.
  rewrite length_mutate.
  destruct (decide (a = x)); [|by eapply Hc].
  apply Hf in Hn as [Hn|Hn]; [by eapply Hc|done].
Qed.

Lemma linked_mutate k h a f :
  same_links k f → linked k h → linked k (mutate a f h).
Proof.
  intros Hf Hl x st' b (st & Hst & ->)%lookup_mutate_Some Hn.
  assert (nxt k st = Some b) as Hn'.
  { destruct (decide (a = x)); [by rewrite <- (proj1 (Hf st))|done]. }
  destruct (Hl _ _ _ Hst Hn') as (stb & Hstb & Hp).
  rewrite lookup_mutate, Hstb. destruct (decide (a = b)); simpl.
  - eexists; split; [done|]. by rewrite (proj2 (Hf stb)).
  - eauto.
Qed.

Lemma same_links_set_station_type k ty :
  same_links (Data := Data) k (set_station_type ty).
Proof. done. Qed.
Lemma same_links_add_line_color k c :
  same_links (Data := Data) k (add_line_color c).
Proof. done. Qed.
Lemma same_links_add_branch_connection k b :
  same_links (Data := Data) k (add_branch_connection b).
Proof. done. Qed.
Lemma same_links_set_express_skip_to k b :
  same_links (Data := Data) k (set_express_skip_to b).
Proof. done. Qed.
Lemma same_links_add_transfer_destination k b c :
  same_links (Data := Data) k (add_transfer_destination b c).
Proof. done. Qed.
Lemma same_links_set_next k k' b :
  k ≠ k' → same_links (Data := Data) k (set_next k' b).
Proof.
  intros Hne st. split; [|done]. unfold nxt. simpl. by apply dict_get_set_ne.
Qed.
Lemma same_links_set_prev k k' b :
  k ≠ k' → same_links (Data := Data) k (set_prev k' b).
Proof.
  intros Hne st. split; [done|]. unfold prv. simpl. by apply dict_get_set_ne.
Qed.

Lemma next_within_keep n f :
  (∀ st, next_stations (f st) = next_stations st) → next_within n f.
Proof. intros Hf st k b. unfold nxt. rewrite Hf. by left. Qed.

Lemma next_within_set_next n k b :
  b < n → next_within (Data := Data) n (set_next k b).
Proof.
  intros Hb st k' b'. unfold nxt. simpl.
  destruct (decide (k = k')) as [->|Hne].
  - rewrite dict_get_set_eq. intros [= <-]. by right.
  - rewrite dict_get_set_ne by done. by left.
Qed.

Lemma heap_ok_keep k h a f :
  (∀ st, next_stations (f st) = next_stations st) → same_links k f →
  heap_ok k h → heap_ok k (mutate a f h).
Proof.
  intros Hnext Hf [Hc Hl]. split.
  - by apply closed_mutate; [apply next_within_keep|].
  - by apply linked_mutate.
Qed.

Lemma heap_ok_set_next k k' h a b :
  k ≠ k' → b < length h → heap_ok k h → heap_ok k (mutate a (set_next k' b) h).
Proof.
  intros Hne Hb [Hc Hl]. split.
  - by apply closed_mutate; [apply next_within_set_next|].
  - by apply linked_mutate; [apply same_links_set_next|].
Qed.

Lemma heap_ok_set_prev k k' h a b :
  k ≠ k' → heap_ok k h → heap_ok k (mutate a (set_prev k' b) h).
Proof.
  intros Hne. apply heap_ok_keep; [done|]. by apply same_links_set_prev.
Qed.

(** A new object without next pointers. *)
Lemma heap_ok_alloc k h st :
  next_stations st = [] → heap_ok k h → heap_ok k (h ++ [st]).
Proof.
  intros Hst [Hc Hl]. split.
  - intros a st' k' b Ha Hn. rewrite length_app. simpl.
    apply lookup_app_Some in Ha as [Ha|[_ Ha]].
    + pose proof (Hc _ _ _ _ Ha Hn). lia.
    + apply list_lookup_singleton_Some in Ha as [_ <-].
      unfold nxt in Hn. by rewrite Hst in Hn.
  - intros a st' b Ha Hn.
    apply lookup_app_Some in Ha as [Ha|[_ Ha]].
    + destruct (Hl _ _ _ Ha Hn) as (stb & Hb & Hp).
      exists stb. split; [|done]. by apply lookup_app_l_Some.
    + apply list_lookup_singleton_Some in Ha as [_ <-].
      unfold nxt in Hn. by rewrite Hst in Hn.
Qed.

(** A new object chained after an existing one, for any edge kind [k']. *)
Lemma heap_ok_link k k' h p st :
  next_stations st = [] → p < length h → heap_ok k h →
  heap_ok k (mutate p (set_next k' (length h))
               (mutate (length h) (set_prev k' p) (h ++ [st]))).
Proof.
  intros Hst Hp [Hc Hl].
  set (new := length h).
  assert (∀ x stx, x ≠ new →
            mutate p (set_next k' new) (mutate new (set_prev k' p) (h ++ [st])) !! x
            = Some stx →
            ∃ st0, h !! x = Some st0
                   ∧ stx = if decide (p = x) then set_next k' new st0 else st0)
    as Hold.
  { intros x stx Hx (st1 & H1 & ->)%lookup_mutate_Some.
    rewrite lookup_mutate_ne in H1 by done.
    apply lookup_app_Some in H1 as [H1|[Hge H1]]; [by eauto|].
    apply list_lookup_singleton_Some in H1 as [? _]. subst new. lia. }
  assert (mutate p (set_next k' new) (mutate new (set_prev k' p) (h ++ [st])) !! new
          = Some (set_prev k' p st)) as Hnew.
  { rewrite lookup_mutate_ne by (subst new; lia).
    rewrite lookup_mutate_eq. subst new. by rewrite list_lookup_middle. }
  split.
  - intros x stx k0 b Hx Hn. rewrite !length_mutate, length_app. simpl.
    destruct (decide (x = new)) as [->|Hxn].
    { rewrite Hnew in Hx. injection Hx as <-.
      unfold nxt in Hn. simpl in Hn. by rewrite Hst in Hn. }
    destruct (Hold _ _ Hxn Hx) as (st0 & Hst0 & ->).
    destruct (decide (p = x)) as [->|Hpx].
    + unfold nxt in Hn. simpl in Hn.
      destruct (decide (k' = k0)) as [->|Hk].
      * rewrite dict_get_set_eq in Hn. injection Hn as <-. subst new. lia.
      * rewrite dict_get_set_ne in Hn by done.
        pose proof (Hc _ _ _ _ Hst0 Hn). lia.
    + pose proof (Hc _ _ _ _ Hst0 Hn). lia.
  - intros x stx b Hx Hn.
    destruct (decide (x = new)) as [->|Hxn].
    { rewrite Hnew in Hx. injection Hx as <-.
      unfold nxt in Hn. simpl in Hn. by rewrite Hst in Hn. }
    destruct (Hold _ _ Hxn Hx) as (st0 & Hst0 & ->).
    assert (∀ b0, nxt k st0 = Some b0 →
              ∃ st', mutate p (set_next k' new)
                       (mutate new (set_prev k' p) (h ++ [st])) !! b0 = Some st'
                     ∧ prv k st' = Some x) as Hkeep.
    { intros b0 Hn0. destruct (Hl _ _ _ Hst0 Hn0) as (stb & Hb & Hpb).
      pose proof (lookup_lt_Some _ _ _ Hb) as Hlt.
      rewrite lookup_mutate, lookup_mutate_ne by (subst new; lia).
      rewrite lookup_app_l, Hb by done.
      destruct (decide (p = b0)); eauto. }
    destruct (decide (p = x)) as [->|Hpx]; [|by apply Hkeep].
    unfold nxt in Hn. simpl in Hn.
    destruct (decide (k' = k)) as [->|Hk].
    + rewrite dict_get_set_eq in Hn. injection Hn as <-.
      rewrite Hnew. eexists; split; [done|]. unfold prv. simpl.
      apply dict_get_set_eq.
    + rewrite dict_get_set_ne in Hn by done. by apply Hkeep.
Qed.

Lemma mutate_comm h a b f g :
  a ≠ b → mutate a f (mutate b g h) = mutate b g (mutate a f h).
Proof. intros Hne. unfold mutate. by apply list_alter_alter_ne. Qed.

End Links.

(** * Well-formed networks *)

Section WellFormed.
Context {Data : Type} `{!EqDecision Data}.
Implicit Types (s : SubwayNetwork Data) (h : list (SubwayStation Data))
  (st : SubwayStation Data) (a b p : nat) (k : TrackType.t)
  (sts : dict string nat) (track : SubwayTrack).

Lemma Forall_dict_set {K V} `{EqDecision K} (P : K * V → Prop) key v (d : dict K V) :
  P (key, v) → Forall P d → Forall P (dict_set key v d).
Proof.
  intros Hv. induction 1 as [|[k0 v0] d Hx Hd IH]; simpl.
  - by apply Forall_singleton.
  - destruct (decide (key = k0)); by apply Forall_cons.
Qed.

Lemma track_ok_mono n m kt : n ≤ m → track_ok n kt → track_ok m kt.
Proof.
  intros Hle [Hin Hid]. split; [|done].
  eapply Forall_impl; [done|]. simpl. lia.
Qed.

Lemma stations_mono n m sts :
  n ≤ m → Forall (λ kv, kv.2 < n) sts → Forall (λ kv, kv.2 < m) sts.
Proof. intros Hle Hn. eapply Forall_impl; [done|]. simpl. lia. Qed.

(** ** create_main_line *)

Lemma main_line_loop_good k line_id color n items :
  ∀ i prev h sts track h' sts' track',
    main_line_loop line_id color n i items prev h sts track = (h', sts', track') →
    heap_ok k h → (∀ p, prev = Some p → p < length h) →
    Forall (λ kv, kv.2 < length h) sts →
    Forall (λ a, a < length h) (track_stations track) →
    heap_ok k h' ∧ length h ≤ length h'
    ∧ Forall (λ kv, kv.2 < length h') sts'
    ∧ Forall (λ a, a < length h') (track_stations track')
    ∧ track_id track' = track_id track.
Proof.
  induction items as [|d items IH];
    intros i prev h sts track h' sts' track'; simpl.
  - intros [= <- <- <-] ????. by split_and!.
  - set (new := add_line_color color (new_station _ d _)).
    set (h1 := match prev with Some p => _ | None => _ end).
    intros Hloop Hok Hprev Hsts Htrack.
    assert (heap_ok k h1 ∧ length h1 = S (length h)) as [Hok1 Hlen1].
    { subst h1. destruct prev as [p|].
      - split; [by apply heap_ok_link; [|apply Hprev|]|].
        rewrite !length_mutate, length_app. simpl. lia.
      - split; [by apply heap_ok_alloc|]. rewrite length_app. simpl. lia. }
    apply IH in Hloop as (Hok' & Hlen' & Hsts' & Htrack' & Hid); first last.
    + simpl. rewrite Forall_app, Forall_singleton, Hlen1. split; [|lia].
      eapply Forall_impl; [done|]. simpl. lia.
    + apply Forall_dict_set; [simpl; lia|]. eapply stations_mono; [|done]. lia.
    + intros p [= <-]. lia.
    + done.
    + split_and!; [done|lia|done..].
Qed.

Lemma create_main_line_good k line_id (stations_data : list Data) color s :
  good k s → good k (create_main_line line_id stations_data color s).2.
Proof.
  intros (Hok & Hsts & Htracks & Hkeys). unfold create_main_line.
  destruct (main_line_loop _ _ _ _ _ _ _ _ _) as [[h' sts'] track'] eqn:Hloop.
  apply (main_line_loop_good k) in Hloop as (Hok' & Hlen' & Hsts' & Htrack' & Hid);
    [|done..|by apply Forall_nil].
  simpl. split_and!; [done..| |by apply dict_keys_set_NoDup].
  apply Forall_dict_set; [by split|].
  eapply Forall_impl; [done|]. intros kt. by apply track_ok_mono.
Qed.

(** ** create_branch_line *)

Lemma branch_line_loop_good k branch_id color n junction items :
  ∀ i prev h sts track h' sts' track',
    branch_line_loop branch_id color n junction i items prev h sts track
    = (h', sts', track') →
    heap_ok k h → prev < length h →
    Forall (λ kv, kv.2 < length h) sts →
    Forall (λ a, a < length h) (track_stations track) →
    heap_ok k h' ∧ length h ≤ length h'
    ∧ Forall (λ kv, kv.2 < length h') sts'
    ∧ Forall (λ a, a < length h') (track_stations track')
    ∧ track_id track' = track_id track.
Proof.
  induction items as [|d items IH];
    intros i prev h sts track h' sts' track'; simpl.
  - intros [= <- <- <-] ????. by split_and!.
  - set (new := add_line_color color (new_station _ d _)).
    set (h1 := mutate prev _ (mutate (length h) _ (h ++ [new]))).
    set (h2 := if bool_decide (i = 0) then _ else h1).
    intros Hloop Hok Hprev Hsts Htrack.
    assert (heap_ok k h1 ∧ length h1 = S (length h)) as [Hok1 Hlen1].
    { subst h1. split; [by apply heap_ok_link|].
      rewrite !length_mutate, length_app. simpl. lia. }
    assert (heap_ok k h2 ∧ length h2 = S (length h)) as [Hok2 Hlen2].
    { subst h2. destruct (bool_decide (i = 0)); [|done].
      split; [by apply heap_ok_keep|]. by rewrite length_mutate. }
    apply IH in Hloop as (Hok' & Hlen' & Hsts' & Htrack' & Hid); first last.
    + simpl. rewrite Forall_app, Forall_singleton, Hlen2. split; [|lia].
      eapply Forall_impl; [done|]. simpl. lia.
    + apply Forall_dict_set; [simpl; lia|]. eapply stations_mono; [|done]. lia.
    + lia.
    + done.
    + split_and!; [done|lia|done..].
Qed.

Lemma dict_get_Forall {K V} `{EqDecision K} (P : K * V → Prop) key v (d : dict K V) :
  Forall P d → dict_get key d = Some v → P (key, v).
Proof.
  intros Hd Hget%dict_get_Some_elem. by eapply Forall_forall in Hd.
Qed.

Lemma create_branch_line_good k branch_id junction_station_id
    (branch_data : list Data) color s :
  good k s →
  good k (state_of (create_branch_line branch_id junction_station_id
                      branch_data color s)).
Proof.
  intros (Hok & Hsts & Htracks & Hkeys). unfold create_branch_line.
  destruct (dict_get _ (stations s)) as [junction|] eqn:Hj; [|by split_and!].
  pose proof (dict_get_Forall _ _ _ _ Hsts Hj) as Hjlt. simpl in Hjlt.
  destruct (branch_line_loop _ _ _ _ _ _ _ _ _ _) as [[h' sts'] track'] eqn:Hloop.
  apply (branch_line_loop_good k) in Hloop as (Hok' & Hlen' & Hsts' & Htrack' & Hid);
    first last.
  - by apply Forall_nil.
  - by rewrite length_mutate.
  - by rewrite length_mutate.
  - by apply heap_ok_keep.
  - rewrite length_mutate in Hlen'.
    simpl. split_and!; [done..| |by apply dict_keys_set_NoDup].
    apply Forall_dict_set; [by split|].
    eapply Forall_impl; [done|]. intros kt. by apply track_ok_mono.
Qed.

(** ** create_express_line *)

Lemma py_index_elem {A} (l : list A) (i : Z) x : py_index l i = Some x → x ∈ l.
Proof.
  unfold py_index. destruct (0 <=? i)%Z.
  - apply list_elem_of_lookup_2.
  - destruct (_ <=? _)%Z; [apply list_elem_of_lookup_2|done].
Qed.

Lemma express_visit_good k color station prev h :
  k ≠ TrackType.EXPRESS → station < length h → heap_ok k h →
  heap_ok k (express_visit color station prev h)
  ∧ length (express_visit color station prev h) = length h.
Proof.
  intros Hk Hstation Hok. unfold express_visit. destruct prev as [p|].
  - split; [|by rewrite !length_mutate].
    apply heap_ok_keep; [done..|].
    apply heap_ok_set_next; [done|by rewrite !length_mutate|].
    apply heap_ok_set_prev; [done|]. by do 2 (apply heap_ok_keep; [done..|]).
  - split; [|by rewrite !length_mutate].
    by do 2 (apply heap_ok_keep; [done..|]).
Qed.

Lemma express_line_loop_good k main_stations color idxs :
  k ≠ TrackType.EXPRESS →
  ∀ prev h track,
    heap_ok k h → Forall (λ a, a < length h) main_stations →
    Forall (λ a, a < length h) (track_stations track) →
    match express_line_loop main_stations color idxs prev h track with
    | inl (h', track') =>
        heap_ok k h' ∧ length h' = length h
        ∧ Forall (λ a, a < length h) (track_stations track')
        ∧ track_id track' = track_id track
    | inr h' => heap_ok k h' ∧ length h' = length h
    end.
Proof.
  intros Hk. induction idxs as [|i idxs IH]; intros prev h track Hok Hmain Htrack; simpl.
  - by split_and!.
  - destruct (_ <=? _)%Z; [by apply IH|].
    destruct (py_index main_stations i) as [station|] eqn:Hpy; [|done].
    assert (station < length h) as Hlt.
    { apply py_index_elem in Hpy. by eapply Forall_forall in Hmain. }
    destruct (express_visit_good k color station prev h Hk Hlt Hok) as [Hok1 Hlen1].
    specialize (IH (Some station) (express_visit color station prev h)
      (track_add_stop (id_at (express_visit color station prev h) station)
         (track_append station track))).
    rewrite Hlen1 in IH.
    destruct (express_line_loop _ _ _ _ _ _) as [[h' track']|h'].
    + apply IH; [done..|]. simpl. rewrite Forall_app, Forall_singleton. by split.
    + apply IH; [done..|]. simpl. rewrite Forall_app, Forall_singleton. by split.
Qed.

Lemma create_express_line_good k express_id main_line_id express_stations color s :
  k ≠ TrackType.EXPRESS → good k s →
  good k (state_of (create_express_line express_id main_line_id
                      express_stations color s)).
Proof.
  intros Hk (Hok & Hsts & Htracks & Hkeys). unfold create_express_line.
  destruct (dict_get _ (tracks s)) as [main_track|] eqn:Hm; [|by split_and!].
  pose proof (dict_get_Forall _ _ _ _ Htracks Hm) as [Hmain _]. simpl in Hmain.
  pose proof (express_line_loop_good k (track_stations main_track) color
    express_stations Hk None (heap s)
    (new_track express_id TrackType.EXPRESS color) Hok Hmain) as Hloop.
  destruct (express_line_loop _ _ _ _ _ _) as [[h' track']|h'].
  - destruct Hloop as (Hok' & Hlen' & Htrack' & Hid); [by apply Forall_nil|].
    unfold good. simpl. rewrite Hlen'.
    split_and!; [done..| |by apply dict_keys_set_NoDup].
    by apply Forall_dict_set.
  - destruct Hloop as (Hok' & Hlen'); [by apply Forall_nil|].
    unfold good. simpl. rewrite Hlen'. by split_and!.
Qed.

(** ** create_loop_connection *)

Lemma create_loop_connection_good k start_station_id end_station_id color s :
  k ≠ TrackType.LOOP → good k s →
  good k (state_of (create_loop_connection start_station_id end_station_id
                      color s)).
Proof.
  intros Hk (Hok & Hsts & Htracks & Hkeys). unfold create_loop_connection.
  destruct (dict_get start_station_id (stations s)) as [a|] eqn:Ha; [|by split_and!].
  destruct (dict_get end_station_id (stations s)) as [b|] eqn:Hb; [|by split_and!].
  pose proof (dict_get_Forall _ _ _ _ Hsts Ha) as Halt.
  pose proof (dict_get_Forall _ _ _ _ Hsts Hb) as Hblt. simpl in Halt, Hblt.
  unfold good. cbn [state_of heap stations tracks]. rewrite !length_mutate.
  split_and!; [|done| |by apply dict_keys_set_NoDup].
  - do 2 (apply heap_ok_keep; [done..|]).
    apply heap_ok_set_prev; [done|]. by apply heap_ok_set_next.
  - apply Forall_dict_set; [|done]. split; [|done]. simpl.
    by repeat constructor.
Qed.

(** ** add_transfer_connection *)

Lemma add_transfer_connection_good k station1_id station2_id transfer_cost s :
  good k s → good k (add_transfer_connection station1_id station2_id transfer_cost s).
Proof.
  intros (Hok & Hsts & Htracks & Hkeys). unfold add_transfer_connection.
  destruct (dict_get station1_id (stations s)) as [a|]; [|by split_and!].
  destruct (dict_get station2_id (stations s)) as [b|]; [|by split_and!].
  unfold good. cbn [state_of heap stations tracks]. rewrite !length_mutate.
  split_and!; [|done..].
  by do 4 (apply heap_ok_keep; [done..|]).
Qed.

End WellFormed.

Section WellFormedInsert.
Context {Data : Type} `{!EqDecision Data}.
Implicit Types (s : SubwayNetwork Data) (h : list (SubwayStation Data))
  (st : SubwayStation Data) (a b p : nat) (k : TrackType.t)
  (sts : dict string nat) (track : SubwayTrack).

(** ** insert_data_optimally *)

Lemma least_loaded_elem (ts : dict string SubwayTrack) min_load target key track :
  least_loaded ts min_load target = Some (key, track) →
  (key, track) ∈ ts ∨ target = Some (key, track).
Proof.
  revert min_load target.
  induction ts as [|[k0 t0] ts IH]; intros min_load target; simpl; [by right|].
  assert (∀ m tg, least_loaded ts m tg = Some (key, track) →
                  tg = target ∨ tg = Some (k0, t0) →
                  (key, track) ∈ (k0, t0) :: ts ∨ target = Some (key, track)) as Hrec.
  { intros m tg [Hin| ->]%IH [->|Htg].
    - left. by apply elem_of_cons; right.
    - left. by apply elem_of_cons; right.
    - by right.
    - injection Htg as <- <-. left. apply elem_of_cons; by left. }
  destruct (bool_decide _); [|by eauto].
  destruct (match min_load with None => true | Some m => _ end); eauto.
Qed.

Lemma choose_track_elem preferred_line s key track :
  choose_track preferred_line s = Some (key, track) → (key, track) ∈ tracks s.
Proof.
  assert (least_loaded (tracks s) None None = Some (key, track) →
          (key, track) ∈ tracks s) as Hscan.
  { by intros [?|?]%least_loaded_elem. }
  unfold choose_track. destruct preferred_line as [pl|]; [|done].
  destruct (bool_decide (pl ≠ "")); [|done].
  destruct (dict_get pl (tracks s)) as [t|] eqn:Hget; [|done].
  intros [= <- <-]. by apply dict_get_Some_elem.
Qed.

Lemma last_elem {A} (l : list A) x : last l = Some x → x ∈ l.
Proof. intros [l' ->]%last_Some. apply elem_of_app. right. by apply elem_of_cons; left. Qed.

Lemma insert_data_optimally_good k d preferred_line s :
  good k s → good k (insert_data_optimally d preferred_line s).2.
Proof.
  intros Hgood. unfold insert_data_optimally.
  destruct (choose_track preferred_line s) as [[key target]|] eqn:Hchoose.
  2:{ pose proof (create_main_line_good k "main_0" [d] "blue" s Hgood) as Hmain.
      by destruct (create_main_line "main_0" [d] "blue" s). }
  destruct Hgood as (Hok & Hsts & Htracks & Hkeys).
  apply choose_track_elem in Hchoose.
  pose proof (proj1 (Forall_forall _ _) Htracks _ Hchoose) as [Hin Hid].
  simpl in Hin, Hid. unfold alloc. cbn beta iota zeta. cbn [snd].
  set (new := add_line_color _ (new_station _ d _)).
  match goal with |- context [mkNetwork ?h0 _ _ _] => set (h' := h0) end.
  assert (heap_ok k h' ∧ length h' = S (length (heap s))) as [Hok' Hlen'].
  { subst h'. destruct (last (track_stations target)) as [last_station|] eqn:Hlast.
    - assert (last_station < length (heap s)) as Hlt.
      { apply last_elem in Hlast. by eapply Forall_forall in Hin. }
      split.
      + apply heap_ok_keep; [done..|].
        assert (heap_ok k (mutate (length (heap s))
                   (set_prev (track_type target) last_station)
                   (mutate last_station
                      (set_next (track_type target) (length (heap s)))
                      (heap s ++ [new])))) as Hlink.
        { rewrite mutate_comm by lia. by apply heap_ok_link. }
        destruct (bool_decide _); [by apply heap_ok_keep|done].
      + destruct (bool_decide _); rewrite !length_mutate, length_app; simpl; lia.
    - split; [by apply heap_ok_alloc|]. rewrite length_app. simpl. lia. }
  unfold good. cbn [heap stations tracks]. rewrite Hlen'.
  split_and!; [done| | |by apply dict_keys_set_NoDup].
  - apply Forall_dict_set; [simpl; lia|]. eapply stations_mono; [|done]. lia.
  - apply Forall_dict_set.
    + split; [|done]. simpl. rewrite Forall_app, Forall_singleton. split; [|lia].
      eapply Forall_impl; [done|]. simpl. lia.
    + eapply Forall_impl; [done|]. intros kt. apply track_ok_mono. lia.
Qed.

(** ** Every network the operations build *)

Lemma empty_network_good k : good k (empty_network (Data := Data)).
Proof.
  unfold good, heap_ok. simpl. split_and!; try by constructor.
  - by intros a st k' b ?.
  - by intros a st b ?.
Qed.

Lemma run_good k op s :
  k ≠ TrackType.EXPRESS → k ≠ TrackType.LOOP → good k s → good k (run op s).
Proof.
  intros Hexpress Hloop Hgood. destruct op; simpl.
  - by apply create_main_line_good.
  - by apply create_branch_line_good.
  - by apply create_express_line_good.
  - by apply create_loop_connection_good.
  - by apply add_transfer_connection_good.
  - by apply insert_data_optimally_good.
Qed.

Lemma run_all_good k ops s :
  k ≠ TrackType.EXPRESS → k ≠ TrackType.LOOP → good k s → good k (run_all ops s).
Proof.
  intros Hexpress Hloop. revert s.
  induction ops as [|op ops IH]; intros s Hgood; simpl; [done|].
  apply IH. by apply run_good.
Qed.

(** C3 (amended): after any sequence of construction calls, for the MAIN
    and BRANCH edge kinds, if [A.next[k]] is [B] then [B.prev[k]] is [A]. *)
Theorem next_prev_consistent (ops : list (operation Data)) k a b st :
  k = TrackType.MAIN ∨ k = TrackType.BRANCH →
  let s := run_all ops empty_network in
  heap s !! a = Some st →
  dict_get k (next_stations st) = Some b →
  ∃ st', heap s !! b = Some st' ∧ dict_get k (prev_stations st') = Some a.
Proof.
  intros Hk s Ha Hnext.
  assert (good k s) as ([_ Hlinked] & _).
  { apply run_all_good; [by destruct Hk as [-> | ->]..|apply empty_network_good]. }
  by eapply Hlinked.
Qed.

End WellFormedInsert.

(** * insert_data_optimally: repeated insertion *)

Section Insertion.
Context {Data : Type} `{!EqDecision Data}.
Implicit Types (s : SubwayNetwork Data) (h : list (SubwayStation Data))
  (st : SubwayStation Data) (a b p : nat) (k : TrackType.t)
  (ts : dict string SubwayTrack) (track : SubwayTrack) (x : string).

(** ** Objects keep their identifier and payload *)

Lemma extends_refl h : extends h h.
Proof. intros a st Ha. eauto. Qed.

Lemma extends_trans h1 h2 h3 : extends h1 h2 → extends h2 h3 → extends h1 h3.
Proof.
  intros H12 H23 a st Ha.
  destruct (H12 _ _ Ha) as (st2 & Ha2 & Hid2 & Hd2).
  destruct (H23 _ _ Ha2) as (st3 & Ha3 & Hid3 & Hd3).
  exists st3. split_and!; [done|congruence..].
Qed.

Lemma extends_mutate h a f :
  (∀ st, station_id (f st) = station_id st ∧ data (f st) = data st) →
  extends h (mutate a f h).
Proof.
  intros Hf x st Hx. rewrite lookup_mutate, Hx.
  destruct (decide (a = x)); simpl; [|by eauto].
  eexists; split; [done|]. apply Hf.
Qed.

Lemma extends_alloc h st : extends h (h ++ [st]).
Proof. intros a st' Ha. exists st'. split; [by apply lookup_app_l_Some|done]. Qed.

(** ** Identifiers already given out *)

Lemma least_loaded_target ts min_load target0 :
  is_Some (least_loaded ts min_load (Some target0)).
Proof.
  revert min_load target0.
  induction ts as [|[k0 t0] ts IH]; intros min_load target0; simpl; [done|].
  destruct (bool_decide _); [|done].
  by destruct (match min_load with None => true | Some m => _ end).
Qed.

Lemma least_loaded_None ts :
  least_loaded ts None None = None → ¬ has_line ts.
Proof.
  induction ts as [|[k0 t0] ts IH]; simpl.
  - intros _ (key & track & Hin & _). by apply elem_of_nil in Hin.
  - destruct (decide (linelike t0)) as [Hl|Hl].
    + unfold linelike in Hl. rewrite bool_decide_true by done.
      intros Hnone. by destruct (least_loaded_target ts (Some (length (track_stations t0)))
                                   (k0, t0)) as [? Hsome]; rewrite Hsome in Hnone.
    + unfold linelike in Hl. rewrite bool_decide_false by done.
      intros Hnone (key & track & [Heq|Hin]%elem_of_cons & Hline).
      * by simplify_eq.
      * apply IH; [done|]. by exists key, track.
Qed.

Lemma least_loaded_Some ts min_load target key track :
  least_loaded ts min_load target = Some (key, track) →
  ((key, track) ∈ ts ∧ linelike track) ∨ target = Some (key, track).
Proof.
  revert min_load target.
  induction ts as [|[k0 t0] ts IH]; intros min_load target; simpl; [by right|].
  destruct (decide (linelike t0)) as [Hl|Hl]; unfold linelike in Hl.
  - rewrite bool_decide_true by done.
    destruct (match min_load with None => true | Some m => _ end).
    + intros [[Hin ?]|Heq]%IH.
      * left. split; [by apply elem_of_cons; right|done].
      * injection Heq as <- <-. left. split; [apply elem_of_cons; by left|done].
    + intros [[Hin ?]|Heq]%IH; [left|by right].
      split; [by apply elem_of_cons; right|done].
  - rewrite bool_decide_false by done.
    intros [[Hin ?]|Heq]%IH; [left|by right].
    split; [by apply elem_of_cons; right|done].
Qed.

Lemma dict_set_elem_old {K V} `{EqDecision K} (key key' : K) (v v' : V) (d : dict K V) :
  key ≠ key' → (key', v') ∈ d → (key', v') ∈ dict_set key v d.
Proof.
  intros Hne. induction d as [|[k0 v0] d IH]; simpl; [by intros ?%elem_of_nil|].
  intros [Heq|Hin]%elem_of_cons.
  - injection Heq as <- <-. rewrite decide_False by done. apply elem_of_cons; by left.
  - destruct (decide (key = k0)); apply elem_of_cons; right; [done|by apply IH].
Qed.

Lemma dict_set_elem_new {K V} `{EqDecision K} (key : K) (v : V) (d : dict K V) :
  (key, v) ∈ dict_set key v d.
Proof. apply dict_get_Some_elem, dict_get_set_eq. Qed.

Lemma dict_set_elem_inv {K V} `{EqDecision K} (key key' : K) (v v' : V) (d : dict K V) :
  (key', v') ∈ dict_set key v d → (key', v') = (key, v) ∨ (key', v') ∈ d.
Proof.
  induction d as [|[k0 v0] d IH]; simpl.
  - intros ->%list_elem_of_singleton. by left.
  - destruct (decide (key = k0)) as [->|Hne].
    + intros [?|?]%elem_of_cons; [by left|right; by apply elem_of_cons; right].
    + intros [?|Hin]%elem_of_cons; [right; apply elem_of_cons; by left|].
      destruct (IH Hin); [by left|right; by apply elem_of_cons; right].
Qed.

(** Appending to the track filed under [key]. *)
Lemma used_append ts key track a x :
  NoDup (dict_keys ts) → (key, track) ∈ ts →
  used ts x → used (dict_set key (track_append a track) ts) x.
Proof.
  intros Hnd Hin.
  assert (∀ key' track', (key', track') ∈ ts → linelike track' →
            ∃ track'', (key', track'') ∈ dict_set key (track_append a track) ts
              ∧ linelike track'' ∧ track_id track'' = track_id track'
              ∧ length (track_stations track') ≤ length (track_stations track''))
    as Hkeep.
  { intros key' track' Hin' Hline. destruct (decide (key = key')) as [<-|Hne].
    - assert (track' = track) as ->.
      { apply (dict_elem_get _ _ _ Hnd) in Hin, Hin'. congruence. }
      exists (track_append a track). split_and!; [apply dict_set_elem_new|done..|].
      simpl. rewrite length_app. lia.
    - exists track'. split_and!; [by apply dict_set_elem_old|done..]. }
  intros [[Hx (key' & track' & Hin' & Hline)]|(key' & track' & n & Hin' & Hline & Hx & Hn)].
  - left. split; [done|].
    destruct (Hkeep _ _ Hin' Hline) as (track'' & ? & ? & _).
    by exists key', track''.
  - right. destruct (Hkeep _ _ Hin' Hline) as (track'' & ? & ? & Hid & Hlen).
    exists key', track'', n. rewrite Hid. split_and!; [done..|lia].
Qed.

Lemma used_has_line ts x : used ts x → has_line ts.
Proof.
  intros [[_ ?]|(key & track & n & ? & ? & _)]; [done|]. by exists key, track.
Qed.

(** One insertion without a preferred line. *)
Lemma insert_step d s :
  good TrackType.MAIN s →
  let r := (insert_data_optimally d None s).1 in
  let s1 := (insert_data_optimally d None s).2 in
  let a := length (heap s) in
  ∃ st,
    heap s1 !! a = Some st ∧ data st = d
    ∧ stations s1 = dict_set (station_id st) a (stations s)
    ∧ length (heap s1) = S (length (heap s))
    ∧ total_data_items s1 = total_data_items s + 1
    ∧ extends (heap s) (heap s1)
    ∧ ¬ used (tracks s) r ∧ ¬ used (tracks s) (station_id st)
    ∧ used (tracks s1) r ∧ used (tracks s1) (station_id st)
    ∧ (∀ x, used (tracks s) x → used (tracks s1) x)
    ∧ ((has_line (tracks s) ∧ r = station_id st)
       ∨ (¬ has_line (tracks s) ∧ r = "main_0"
          ∧ station_id st = "main_0_station_0")).
Proof.
  intros (_ & _ & Htracks & Hkeys) r s1 a. subst r s1 a.
  unfold insert_data_optimally, choose_track.
  destruct (least_loaded (tracks s) None None) as [[key target]|] eqn:Hscan.
  - apply least_loaded_Some in Hscan as [[Hin Hline]|?]; [|done].
    pose proof (proj1 (Forall_forall _ _) Htracks _ Hin) as [_ Hid]. simpl in Hid.
    unfold alloc. cbn beta iota zeta. cbn [fst snd].
    set (sid := track_id target +:+ "_auto_" +:+ str (length (track_stations target))).
    set (new := add_line_color _ (new_station _ d _)).
    match goal with |- context [mkNetwork ?h0 _ _ _] => set (h' := h0) end.
    cbn [heap stations tracks total_data_items].
    assert (extends (heap s ++ [new]) h' ∧ length h' = S (length (heap s)))
      as [Hext Hlen].
    { subst h'. destruct (last (track_stations target)) as [last_station|].
      - split.
        + eapply extends_trans; [|by apply extends_mutate].
          assert (extends (heap s ++ [new])
                    (mutate (length (heap s))
                       (set_prev (track_type target) last_station)
                       (mutate last_station
                          (set_next (track_type target) (length (heap s)))
                          (heap s ++ [new])))) as Hlink.
          { eapply extends_trans; by apply extends_mutate. }
          destruct (bool_decide _); [|done].
          eapply extends_trans; [done|by apply extends_mutate].
        + destruct (bool_decide _); rewrite !length_mutate, length_app; simpl; lia.
      - split; [apply extends_refl|]. rewrite length_app. simpl. lia. }
    destruct (Hext (length (heap s)) new) as (st & Hst & Hsid & Hdata).
    { by apply list_lookup_middle. }
    simpl in Hsid, Hdata. fold sid in Hsid.
    assert (¬ used (tracks s) sid) as Hfresh.
    { intros [[[Hx|Hx] _]|(key' & track' & n & Hin' & Hline' & Hx & Hn)].
      - by apply auto_id_not_main_0 in Hx.
      - by apply (auto_id_not_station _ "main_0" _ 0) in Hx.
      - apply auto_id_inj in Hx as [Hids <-].
        pose proof (proj1 (Forall_forall _ _) Htracks _ Hin') as [_ Hid'].
        simpl in Hid'.
        assert (track' = target) as ->; [|lia].
        apply (dict_elem_get _ _ _ Hkeys) in Hin, Hin'. congruence. }
    assert (used (dict_set key (track_append (length (heap s)) target) (tracks s)) sid)
      as Hused.
    { right. exists key, (track_append (length (heap s)) target),
        (length (track_stations target)).
      split_and!; [apply dict_set_elem_new|done..|].
      simpl. rewrite length_app. simpl. lia. }
    exists st. rewrite Hsid.
    split_and!; try done.
    + by eapply extends_trans; [apply extends_alloc|].
    + intros x. by apply used_append.
    + left. split; [by exists key, target|done].
  - apply least_loaded_None in Hscan.
    unfold create_main_line. simpl.
    assert ("main_0" +:+ "_station_" +:+ str 0 = "main_0_station_0") as -> by done.
    set (new := add_line_color "blue" (new_station "main_0_station_0" d _)).
    assert (has_line (dict_set "main_0"
               (track_append (length (heap s))
                  (new_track "main_0" TrackType.MAIN "blue")) (tracks s))) as Hline.
    { eexists "main_0", _. split; [apply dict_set_elem_new|].
      unfold linelike. simpl. apply elem_of_cons; by left. }
    exists new.
    split_and!.
    + by apply list_lookup_middle.
    + done.
    + done.
    + rewrite length_app. simpl. lia.
    + lia.
    + apply extends_alloc.
    + by intros ?%used_has_line.
    + by intros ?%used_has_line.
    + left. split; [by left|done].
    + left. split; [by right|done].
    + by intros x ?%used_has_line.
    + by right.
Qed.

End Insertion.

Section RoundTrip.
Context {Data : Type} `{!EqDecision Data}.
Implicit Types (s : SubwayNetwork Data) (h : list (SubwayStation Data))
  (st : SubwayStation Data) (a b p : nat) (d : Data) (x : string).

Lemma insert_all_spec items :
  ∀ s, good TrackType.MAIN s →
  let rets := (insert_all items s).1 in
  let s' := (insert_all items s).2 in
  good TrackType.MAIN s'
  ∧ total_data_items s' = total_data_items s + length items
  ∧ length rets = length items
  ∧ length (heap s') = length (heap s) + length items
  ∧ extends (heap s) (heap s')
  ∧ (∀ x, used (tracks s) x → used (tracks s') x)
  ∧ (∀ x, used (tracks s) x → dict_get x (stations s') = dict_get x (stations s))
  ∧ (∀ r, r ∈ rets → ¬ used (tracks s) r)
  ∧ NoDup rets
  ∧ (∀ key a, (key, a) ∈ stations s' →
       (key, a) ∈ stations s ∨ length (heap s) ≤ a)
  ∧ ∀ i d r, items !! i = Some d → rets !! i = Some r →
      ∃ st, heap s' !! (length (heap s) + i) = Some st ∧ data st = d
        ∧ dict_get (station_id st) (stations s') = Some (length (heap s) + i)
        ∧ (i ≠ 0 ∨ has_line (tracks s) → r = station_id st)
        ∧ (i = 0 → ¬ has_line (tracks s) →
           r = "main_0" ∧ station_id st = "main_0_station_0").
Proof.
  induction items as [|d items IH]; intros s Hgood; simpl.
  - split_and!; try done; try lia.
    + apply extends_refl.
    + by intros r ?%elem_of_nil.
    + apply NoDup_nil_2.
    + by left.
  - pose proof (insert_step d s Hgood) as Hstep.
    pose proof (insert_data_optimally_good TrackType.MAIN d None s Hgood) as Hgood1.
    destruct (insert_data_optimally d None s) as [r s1]. simpl in Hstep, Hgood1.
    destruct Hstep as (st & Hst & Hdata & Hsts & Hlen & Htotal & Hext & Hr & Hsid
                       & Hr1 & Hsid1 & Hmono & Hret).
    specialize (IH s1 Hgood1).
    destruct (insert_all items s1) as [rs s']. simpl in IH |- *.
    destruct IH as (Hgood' & Htotal' & Hlenr & Hlenh & Hext' & Hmono' & Hkeep'
                    & Hfresh' & Hnd' & Hvals' & Hitems').
    split_and!.
    + done.
    + lia.
    + lia.
    + lia.
    + by eapply extends_trans.
    + intros x Hx. by apply Hmono', Hmono.
    + intros x Hx. rewrite Hkeep' by by apply Hmono.
      rewrite Hsts. apply dict_get_set_ne. by intros <-.
    + intros r' [->|Hin]%elem_of_cons; [done|].
      intros Hx. by apply (Hfresh' r' Hin), Hmono.
    + apply NoDup_cons. split; [|done]. intros Hin. by apply (Hfresh' r Hin).
    + intros key a [Hold|Hnew]%Hvals'; [|right; lia].
      rewrite Hsts in Hold. apply dict_set_elem_inv in Hold as [[= -> ->]|Hold].
      * by right.
      * by left.
    + intros [|i] d' r' Hi Hr'; simpl in Hi, Hr'.
      * injection Hi as <-. injection Hr' as <-. rewrite Nat.add_0_r.
        destruct (Hext' _ _ Hst) as (st' & Hst' & Hid' & Hdata').
        exists st'. rewrite Hid'. split_and!; [done|congruence| | |].
        -- rewrite Hkeep' by done. rewrite Hsts. apply dict_get_set_eq.
        -- intros Hline. destruct Hret as [[_ ?]|[Hno _]]; [done|].
           by destruct Hline.
        -- intros _ Hno. by destruct Hret as [[? _]|(_ & ? & ?)].
      * destruct (Hitems' _ _ _ Hi Hr')
          as (st' & Hst' & Hdata' & Hget' & Hret' & _).
        replace (length (heap s) + S i) with (length (heap s1) + i) by lia.
        exists st'. split_and!; [done..| |done].
        intros _. apply Hret'. right. by eapply used_has_line.
Qed.

Lemma first_with_data_Some h d (l : list nat) a :
  first_with_data h d l = Some a → a ∈ l ∧ ∃ st, h !! a = Some st ∧ data st = d.
Proof.
  induction l as [|a0 l IH]; simpl; [done|].
  assert (first_with_data h d l = Some a →
          a ∈ a0 :: l ∧ ∃ st, h !! a = Some st ∧ data st = d) as Hrec.
  { intros [? ?]%IH. split; [by apply elem_of_cons; right|done]. }
  destruct (h !! a0) as [st|] eqn:Hst; [|done].
  destruct (decide (data st = d)); [|done].
  intros [= <-]. split; [apply elem_of_cons; by left|eauto].
Qed.

Lemma first_with_data_None h d (l : list nat) a st :
  first_with_data h d l = None → a ∈ l → h !! a = Some st → data st ≠ d.
Proof.
  induction l as [|a0 l IH]; simpl; [by intros _ ?%elem_of_nil|].
  intros Hnone [->|Hin]%elem_of_cons Hst.
  - rewrite Hst in Hnone. by destruct (decide (data st = d)).
  - apply IH; [|done..]. destruct (h !! a0) as [st0|]; [|done].
    by destruct (decide (data st0 = d)).
Qed.

Lemma first_with_data_is_Some h d (l : list nat) a st :
  a ∈ l → h !! a = Some st → data st = d → is_Some (first_with_data h d l).
Proof.
  intros Hin Hst Hd. destruct (first_with_data h d l) eqn:Hf; [done|].
  by destruct (first_with_data_None _ _ _ _ _ Hf Hin Hst).
Qed.

(** A route from an item to itself is the single station found for it. *)
Lemma route_self s d a st :
  _find_station_by_data s d = Some a → heap s !! a = Some st →
  find_optimal_route s d d = Some (Returns [station_id st]).
Proof.
  intros Hfind Hst. unfold find_optimal_route. rewrite Hfind.
  change (route_fuel (heap s)) with (S (S (sum_list_with out_degree (heap s)))).
  erewrite route_loop_found; [|done|set_solver].
  unfold id_at. by rewrite Hst.
Qed.

Lemma dict_values_elem {K V} (d : dict K V) v :
  v ∈ dict_values d ↔ ∃ key, (key, v) ∈ d.
Proof.
  unfold dict_values. rewrite list_elem_of_fmap. split.
  - intros ([key v'] & -> & Hin). by exists key.
  - intros (key & Hin). by exists (key, v).
Qed.

End RoundTrip.

Section RoundTripClaim.
Context {Data : Type} `{!EqDecision Data}.
Implicit Types (s : SubwayNetwork Data) (d : Data).

(** C4 (amended): inserting pairwise distinct items one after the other,
    without a preferred line, into a network built by the operations adds
    their number to the item counter and returns pairwise distinct values.
    Insertion [i] creates the station object number [i] after those of the
    network, which holds the item and is filed under its identifier.  The
    value returned is that identifier, except for a first insertion into a
    network without MAIN or BRANCH track: it returns the line identifier
    ["main_0"], while the station is ["main_0_station_0"].  A route from an
    item to itself is the one-station path of a station holding that item;
    it is the new station when no station held the item before. *)
Theorem insert_round_trip (ops : list (operation Data)) (items : list Data) :
  NoDup items →
  let s := run_all ops empty_network in
  let rets := (insert_all items s).1 in
  let s' := (insert_all items s).2 in
  total_data_items s' = total_data_items s + length items
  ∧ length (heap s') = length (heap s) + length items
  ∧ length rets = length items
  ∧ NoDup rets
  ∧ ∀ i d r, items !! i = Some d → rets !! i = Some r →
      let a := length (heap s) + i in
      (∃ st,
         heap s !! a = None ∧ heap s' !! a = Some st ∧ data st = d
         ∧ dict_get (station_id st) (stations s') = Some a
         ∧ (i ≠ 0 ∨ has_line (tracks s) → r = station_id st)
         ∧ (i = 0 → ¬ has_line (tracks s) →
            r = "main_0" ∧ station_id st = "main_0_station_0")
         ∧ (_find_station_by_data s d = None →
            find_optimal_route s' d d = Some (Returns [station_id st])))
      ∧ ∃ a' st',
          find_optimal_route s' d d = Some (Returns [station_id st'])
          ∧ heap s' !! a' = Some st' ∧ data st' = d
          ∧ a' ∈ dict_values (stations s').
Proof.
  intros Hnd s rets s'.
  assert (good TrackType.MAIN s) as Hgood.
  { by apply run_all_good; [..|apply empty_network_good]. }
  destruct (insert_all_spec items s Hgood)
    as (Hgood' & Htotal & Hlenr & Hlenh & Hext & _ & _ & _ & Hndr & Hvals & Hitems).
  fold rets s' in Hgood', Htotal, Hlenr, Hlenh, Hext, Hndr, Hvals, Hitems.
  split_and!; [done..|].
  intros i d r Hi Hr a.
  destruct (Hitems _ _ _ Hi Hr) as (st & Hst & Hdata & Hget & Hret & Hfirst).
  fold a in Hst, Hget.
  assert (a ∈ dict_values (stations s')) as Hin.
  { apply dict_values_elem. eexists. by apply dict_get_Some_elem. }
  destruct (first_with_data_is_Some (heap s') d (dict_values (stations s'))
              _ _ Hin Hst Hdata) as [a' Hfind].
  destruct (first_with_data_Some _ _ _ _ Hfind) as (Hin' & st' & Hst' & Hdata').
  pose proof (route_self s' d a' st' Hfind Hst') as Hroute.
  split; [|by exists a', st'].
  exists st. split_and!; [apply lookup_ge_None_2; lia|done..|].
  intros Hnew. rewrite Hroute. do 4 f_equal.
  assert (a' = a) as ->; [|congruence].
  apply dict_values_elem in Hin' as [key Hkey].
  destruct Hgood as (_ & Hsts & _).
  destruct (Hvals _ _ Hkey) as [Hold|Hge].
  - (* a station of the initial network cannot hold [d] *)
    pose proof (proj1 (Forall_forall _ _) Hsts _ Hold) as Hlt. simpl in Hlt.
    destruct (lookup_lt_is_Some_2 _ _ Hlt) as [st0 Hst0].
    destruct (Hext _ _ Hst0) as (st1 & Hst1 & _ & Hdata1).
    exfalso. eapply (first_with_data_None _ _ _ a' st0 Hnew); [|done|].
    + apply dict_values_elem. by exists key.
    + congruence.
  - (* a new station holds the item of its own insertion *)
    pose proof (lookup_lt_Some _ _ _ Hst') as Hlt'. rewrite Hlenh in Hlt'.
    destruct (lookup_lt_is_Some_2 items (a' - length (heap s))) as [d' Hd'];
      [lia|].
    destruct (lookup_lt_is_Some_2 rets (a' - length (heap s))) as [r' Hr'];
      [lia|].
    destruct (Hitems _ _ _ Hd' Hr') as (st2 & Hst2 & Hdata2 & _).
    replace (length (heap s) + (a' - length (heap s))) with a' in Hst2 by lia.
    assert (d' = d) as -> by congruence.
    pose proof (NoDup_lookup _ _ _ _ Hnd Hd' Hi). subst a. lia.
Qed.

End RoundTripClaim.

(** * The claims on concrete networks *)

(** C1 on the line ["A" .. "F"] with identifier ["M"]. *)
Lemma express_shortcut_route_witness :
  find_optimal_route line_with_express "A" "F"
  = Some (Returns ["M_station_0"; "M_station_5"]).
Proof.
  by apply (express_shortcut_route "M" "X" "A" "B" "C" "D" "E" "F" "blue" "red").
Defined.

(** C2 on the three-station line, with anchors it does not have. *)
Lemma missing_anchor_raises_unchanged_witness :
  (∃ msg, create_branch_line "B" "M_station_9" ["x"] "green" short_line
          = Raise (ValueError msg) short_line)
  ∧ (∃ msg, create_express_line "X" "nowhere" [0%Z] "red" short_line
            = Raise (ValueError msg) short_line)
  ∧ (∃ msg, create_loop_connection "M_station_0" "M_station_9" "yellow" short_line
            = Raise (ValueError msg) short_line).
Proof.
  destruct (missing_anchor_raises_unchanged short_line) as (Hbranch & Hexpress & Hloop).
  split_and!.
  - apply Hbranch. reflexivity.
  - apply Hexpress. reflexivity.
  - apply Hloop. right. reflexivity.
Defined.

(** C3 (amended) between the first two stations of the three-station line. *)
Lemma next_prev_consistent_witness :
  ∃ st', heap short_line !! 1 = Some st'
         ∧ dict_get TrackType.MAIN (prev_stations st') = Some 0.
Proof.
  destruct (heap short_line !! 0) as [st|] eqn:Hst; [|discriminate Hst].
  apply (next_prev_consistent [CreateMainLine "M" ["A"; "B"; "C"] "blue"]
           TrackType.MAIN 0 1 st).
  - left. reflexivity.
  - exact Hst.
  - vm_compute in Hst. injection Hst as <-. reflexivity.
Defined.

(** C3 fails for LOOP and for EXPRESS: station 0 has station 2 as its next
    station, but the prev entry of station 2 names station 1. *)
Lemma next_prev_inconsistent :
  (∃ st0 st2, heap two_loops !! 0 = Some st0 ∧ heap two_loops !! 2 = Some st2
     ∧ dict_get TrackType.LOOP (next_stations st0) = Some 2
     ∧ dict_get TrackType.LOOP (prev_stations st2) = Some 1
     ∧ dict_get TrackType.LOOP (prev_stations st2) ≠ Some 0)
  ∧ (∃ st0 st2, heap two_express_lines !! 0 = Some st0
       ∧ heap two_express_lines !! 2 = Some st2
       ∧ dict_get TrackType.EXPRESS (next_stations st0) = Some 2
       ∧ dict_get TrackType.EXPRESS (prev_stations st2) = Some 1
       ∧ dict_get TrackType.EXPRESS (prev_stations st2) ≠ Some 0).
Proof.
  split.
  - destruct (heap two_loops !! 0) as [st0|] eqn:H0; [|discriminate H0].
    destruct (heap two_loops !! 2) as [st2|] eqn:H2; [|discriminate H2].
    exists st0, st2. vm_compute in H0, H2.
    injection H0 as <-. injection H2 as <-. by split_and!.
  - destruct (heap two_express_lines !! 0) as [st0|] eqn:H0; [|discriminate H0].
    destruct (heap two_express_lines !! 2) as [st2|] eqn:H2; [|discriminate H2].
    exists st0, st2. vm_compute in H0, H2.
    injection H0 as <-. injection H2 as <-. by split_and!.
Qed.

(** C4 (amended) for two items inserted into the three-station line. *)
Lemma insert_round_trip_witness :
  NoDup ["a"; "b"]
  ∧ total_data_items (insert_all ["a"; "b"] short_line).2
    = total_data_items short_line + 2
  ∧ NoDup (insert_all ["a"; "b"] short_line).1.
Proof.
  assert (NoDup ["a"; "b"]) as Hnd.
  { apply NoDup_cons. split; [|apply NoDup_singleton].
    intros Hin. apply list_elem_of_singleton in Hin. discriminate Hin. }
  split; [exact Hnd|].
  destruct (insert_round_trip [CreateMainLine "M" ["A"; "B"; "C"] "blue"]
              ["a"; "b"] Hnd) as (Htotal & _ & _ & Hrets & _).
  split; [exact Htotal|exact Hrets].
Defined.

(** C4 fails in two places.  Inserted into the empty network, an item comes
    back with ["main_0"], which names a line and no station.  Inserted into
    a network that already holds the item, the route from the item to itself
    ends at the older station, not at the one just returned. *)
Lemma insert_round_trip_fails :
  (let '(r, s') := insert_data_optimally "a" None (empty_network (Data := string)) in
   r = "main_0" ∧ dict_get r (stations s') = None
   ∧ dict_keys (stations s') = ["main_0_station_0"])
  ∧ (let '(r, s') := insert_data_optimally "A" None short_line in
     r = "M_auto_3"
     ∧ find_optimal_route s' "A" "A" = Some (Returns ["M_station_0"])).
Proof. split; vm_compute; by split_and!. Qed.

(** C5 for the three-station line. *)
Lemma create_main_line_spec_witness :
  let track := (create_main_line "M" ["A"; "B"; "C"] "blue" empty_network).1 in
  1 ≤ length ["A"; "B"; "C"]
  ∧ length (track_stations track) = 3
  ∧ (λ a, data <$> heap short_line !! a) <$> track_stations track
    = [Some "A"; Some "B"; Some "C"].
Proof.
  intros track.
  assert (1 ≤ length ["A"; "B"; "C"]) as Hn by (simpl; lia).
  split; [exact Hn|].
  destruct (create_main_line_spec empty_network "M" ["A"; "B"; "C"] "blue" Hn)
    as (_ & Hlen & Hdata & _).
  split; [exact Hlen|exact Hdata].
Defined.



(** C7 (amended) between the first two stations of the three-station line,
    and with a missing station. *)
Lemma add_transfer_connection_spec_witness :
  let s' := add_transfer_connection "M_station_0" "M_station_1" 3 short_line in
  (transfer_destinations <$> heap s' !! 0) = Some [(1, 3%Z)]
  ∧ (transfer_destinations <$> heap s' !! 1) = Some [(0, 3%Z)]
  ∧ add_transfer_connection "M_station_0" "M_station_9" 3 short_line = short_line.
Proof.
  intros s'.
  destruct (heap short_line !! 0) as [st0|] eqn:H0; [|discriminate H0].
  destruct (heap short_line !! 1) as [st1|] eqn:H1; [|discriminate H1].
  destruct (add_transfer_connection_spec short_line "M_station_0" "M_station_1" 3)
    as [Hboth _].
  destruct (Hboth 0 1 st0 st1 eq_refl eq_refl H0 H1)
    as (_ & _ & _ & _ & Hdistinct & _).
  destruct (Hdistinct ltac:(discriminate)) as [Ha Hb].
  subst s'. rewrite Ha, Hb.
  vm_compute in H0, H1. injection H0 as <-. injection H1 as <-.
  split; [reflexivity|]. split; [reflexivity|].
  apply (proj2 (add_transfer_connection_spec short_line "M_station_0" "M_station_9" 3)).
  right. reflexivity.
Defined.

(** C7 fails when both identifiers name the same station: it gets two
    entries, not one. *)
Lemma add_transfer_connection_self :
  let s' := add_transfer_connection "M_station_0" "M_station_0" 1 short_line in
  dict_get "M_station_0" (stations short_line) = Some 0
  ∧ (transfer_destinations <$> heap short_line !! 0) = Some []
  ∧ (transfer_destinations <$> heap s' !! 0) = Some [(0, 1%Z); (0, 1%Z)].
Proof. vm_compute. by split_and!. Qed.

(** C9 on the line with the express line. *)
Lemma find_optimal_route_terminates_witness :
  is_Some (find_optimal_route line_with_express "A" "F")
  ∧ ∃ r, route_loop 30 (heap line_with_express) 5 ∅ [(0, ["M_station_0"], Int 0)]
         = Some r.
Proof.
  destruct (find_optimal_route_terminates line_with_express "A" "F") as [Hsome Hloop].
  split; [exact Hsome|].
  destruct (Hloop (heap line_with_express) 5 ∅ [(0, ["M_station_0"], Int 0)])
    as [[r Hr] _].
  exists r. apply Hr. vm_compute. lia.
Defined.

(** * More about the operations *)

Section RouteSame.
Context {Data : Type} `{!EqDecision Data}.
Implicit Types (s : SubwayNetwork Data) (d : Data).

(** X1: the route from an item to itself is the one-station path of the
    first station holding it, and the empty path when no station holds it. *)
Theorem find_optimal_route_same_item s d :
  find_optimal_route s d d
  = Some (Returns match _find_station_by_data s d with
                  | Some a => [id_at (heap s) a]
                  | None => []
                  end).
Proof.
  destruct (_find_station_by_data s d) as [a|] eqn:Hfind.
  - destruct (first_with_data_Some _ _ _ _ Hfind) as (_ & st & Hst & _).
    rewrite (route_self s d a st Hfind Hst). unfold id_at. by rewrite Hst.
  - unfold find_optimal_route. by rewrite Hfind.
Qed.

End RouteSame.

Section ExpressSkip.
Context {Data : Type} `{!EqDecision Data}.
Implicit Types (s : SubwayNetwork Data) (h : list (SubwayStation Data)).

Lemma express_line_loop_skip (l : list nat) color idxs prev h track :
  express_line_loop l color idxs prev h track
  = express_line_loop l color
      (filter (λ i, (i < Z.of_nat (length l))%Z) idxs) prev h track.
Proof.
  revert prev h track.
  induction idxs as [|i idxs IH]; intros prev h track; [done|].
  rewrite filter_cons. simpl.
  destruct (Z.leb_spec (Z.of_nat (length l)) i) as [Hge|Hlt].
  - rewrite decide_False by lia. apply IH.
  - rewrite decide_True by lia. simpl.
    destruct (Z.leb_spec (Z.of_nat (length l)) i) as [?|_]; [lia|].
    destruct (py_index l i); [apply IH|done].
Qed.

(** X2: indices at or above the length of the main track are skipped: the
    call behaves as if they were not in the list, and with only such
    indices it files an empty express track and changes nothing else. *)
Theorem create_express_line_skips_large s express_id main_line_id
    express_stations color main_track :
  dict_get main_line_id (tracks s) = Some main_track →
  let n := Z.of_nat (length (track_stations main_track)) in
  create_express_line express_id main_line_id express_stations color s
  = create_express_line express_id main_line_id
      (filter (λ i, (i < n)%Z) express_stations) color s
  ∧ (Forall (λ i, (n ≤ i)%Z) express_stations →
     create_express_line express_id main_line_id express_stations color s
     = Return (new_track express_id TrackType.EXPRESS color)
         (mkNetwork (heap s) (stations s)
            (dict_set express_id (new_track express_id TrackType.EXPRESS color)
               (tracks s))
            (total_data_items s))).
Proof.
  intros Hmain n. unfold create_express_line. rewrite Hmain. split.
  - by rewrite express_line_loop_skip.
  - intros Hall. rewrite express_line_loop_skip.
    assert (filter (λ i, (i < Z.of_nat (length (track_stations main_track)))%Z)
              express_stations = []) as ->; [|done].
    induction Hall as [|i idxs Hi _ IH]; [done|].
    rewrite filter_cons, decide_False by (subst n; lia). done.
Qed.

End ExpressSkip.

Section LoopConnection.
Context {Data : Type} `{!EqDecision Data}.
Implicit Types (s : SubwayNetwork Data) (h : list (SubwayStation Data))
  (st : SubwayStation Data).

(** X3: with both stations present, [create_loop_connection] files a LOOP
    track of the two stations under ["loop_<start>_<end>"] and adds one
    directed LOOP edge from start to end.  Categories, payloads, the
    entries of the other edge kinds, the station dictionary, the item
    counter and every other station stay as they were; no edge back from
    end to start is made. *)
Theorem create_loop_connection_spec s start_station_id end_station_id color
    a b sta stb :
  dict_get start_station_id (stations s) = Some a →
  dict_get end_station_id (stations s) = Some b →
  heap s !! a = Some sta → heap s !! b = Some stb →
  let loop_id := "loop_" +:+ start_station_id +:+ "_" +:+ end_station_id in
  let track := mkTrack loop_id TrackType.LOOP color [a; b] ∅ in
  ∃ s',
    create_loop_connection start_station_id end_station_id color s
    = Return track s'
    ∧ dict_get loop_id (tracks s') = Some track
    ∧ stations s' = stations s
    ∧ total_data_items s' = total_data_items s
    ∧ (∀ x, x ≠ a → x ≠ b → heap s' !! x = heap s !! x)
    ∧ ∃ sta' stb',
        heap s' !! a = Some sta' ∧ heap s' !! b = Some stb'
        ∧ nxt TrackType.LOOP sta' = Some b
        ∧ prv TrackType.LOOP stb' = Some a
        ∧ same_core sta sta' ∧ same_core stb stb'
        ∧ color ∈ line_colors sta' ∧ color ∈ line_colors stb'
        ∧ (∀ k, k ≠ TrackType.LOOP →
             nxt k sta' = nxt k sta ∧ prv k sta' = prv k sta
             ∧ nxt k stb' = nxt k stb ∧ prv k stb' = prv k stb)
        ∧ (a ≠ b →
           nxt TrackType.LOOP stb' = nxt TrackType.LOOP stb
           ∧ prv TrackType.LOOP sta' = prv TrackType.LOOP sta).
Proof.
  intros Ha Hb Hsta Hstb loop_id track.
  unfold create_loop_connection. rewrite Ha, Hb.
  eexists. split; [reflexivity|]. cbn [heap stations tracks total_data_items].
  split_and!; [apply dict_get_set_eq|done|done| |].
  - intros x Hxa Hxb. by simpl_lookup.
  - destruct (decide (a = b)) as [<-|Hne].
    + simpl_lookup. rewrite Hsta. simpl. simplify_eq.
      eexists _, _. split_and!; try done.
      * unfold nxt. simpl. apply dict_get_set_eq.
      * unfold prv. simpl. apply dict_get_set_eq.
      * simpl. set_solver.
      * simpl. set_solver.
      * intros k Hk. unfold nxt, prv. simpl.
        by rewrite !dict_get_set_ne by done.
    + simpl_lookup. rewrite Hsta, Hstb. simpl.
      eexists _, _. split_and!; try done.
      * unfold nxt. simpl. apply dict_get_set_eq.
      * unfold prv. simpl. apply dict_get_set_eq.
      * simpl. set_solver.
      * simpl. set_solver.
      * intros k Hk. unfold nxt, prv. simpl.
        by rewrite !dict_get_set_ne by done.
Qed.

End LoopConnection.

Section Histogram.
Context {Data : Type} `{!EqDecision Data}.
Implicit Types (s : SubwayNetwork Data) (d : dict string nat).

Lemma track_type_value_inj k k' : TrackType.value k = TrackType.value k' → k = k'.
Proof. by destruct k, k'. Qed.

Lemma sum_dict_set_incr key d :
  sum_list (dict_values (dict_set key (default 0 (dict_get key d) + 1) d))
  = sum_list (dict_values d) + 1.
Proof.
  unfold dict_values. induction d as [|[k0 v0] d IH]; simpl; [done|].
  destruct (decide (key = k0)) as [->|Hne]; csimpl; [lia|].
  rewrite IH. lia.
Qed.

Lemma histogram_fold (l : list SubwayTrack) d :
  let hist :=
    foldl (λ track_types track,
             let v := TrackType.value (track_type track) in
             dict_set v (default 0 (dict_get v track_types) + 1) track_types)
      d l in
  sum_list (dict_values hist) = sum_list (dict_values d) + length l
  ∧ ∀ k, default 0 (dict_get (TrackType.value k) hist)
         = default 0 (dict_get (TrackType.value k) d)
           + length (filter (λ track, track_type track = k) l).
Proof.
  revert d. induction l as [|track l IH]; intros d; simpl.
  - split; [lia|]. intros k. lia.
  - destruct (IH (dict_set (TrackType.value (track_type track))
                    (default 0 (dict_get (TrackType.value (track_type track)) d) + 1) d))
      as [Hsum Hcount].
    simpl in Hsum, Hcount. split.
    + rewrite Hsum, sum_dict_set_incr. lia.
    + intros k. rewrite Hcount, filter_cons.
      destruct (decide (track_type track = k)) as [<-|Hne].
      * rewrite dict_get_set_eq. simpl. lia.
      * rewrite dict_get_set_ne; [lia|].
        intros Heq%track_type_value_inj. done.
Qed.

(** X4: the track histogram of the statistics counts every track once: for
    each kind, the entry under the kind's name (0 when there is none) is
    the number of tracks of that kind, and the entries add up to the number
    of tracks. *)
Theorem track_distribution_counts s :
  let stats := get_network_statistics s in
  sum_list (dict_values (track_distribution stats)) = total_tracks stats
  ∧ ∀ k, default 0 (dict_get (TrackType.value k) (track_distribution stats))
         = length (filter (λ track, track_type track = k)
                     (dict_values (tracks s))).
Proof.
  intros stats. subst stats. unfold get_network_statistics. simpl.
  destruct (histogram_fold (dict_values (tracks s)) []) as [Hsum Hcount].
  simpl in Hsum, Hcount. split.
  - rewrite Hsum. unfold dict_values. by rewrite length_fmap.
  - intros k. by rewrite Hcount.
Qed.

End Histogram.

Section LeastLoaded.
Context {Data : Type} `{!EqDecision Data}.
Implicit Types (s : SubwayNetwork Data) (ts : dict string SubwayTrack)
  (track : SubwayTrack).

Lemma least_loaded_acc ts m key0 track0 key track :
  least_loaded ts (Some m) (Some (key0, track0)) = Some (key, track) →
  ((key, track) = (key0, track0)
   ∧ Forall (λ kt, linelike kt.2 → m ≤ length (track_stations kt.2)) ts)
  ∨ ∃ pre post,
      ts = pre ++ (key, track) :: post ∧ linelike track
      ∧ length (track_stations track) < m
      ∧ Forall (λ kt, linelike kt.2 →
                      length (track_stations track) < length (track_stations kt.2)) pre
      ∧ Forall (λ kt, linelike kt.2 →
                      length (track_stations track) ≤ length (track_stations kt.2)) post.
Proof.
  revert m key0 track0.
  induction ts as [|[k1 t1] ts IH]; intros m key0 track0; simpl.
  - intros [= <- <-]. left. by split.
  - destruct (decide (linelike t1)) as [Hl|Hl]; unfold linelike in Hl.
    + rewrite bool_decide_true by done.
      destruct (Nat.ltb_spec (length (track_stations t1)) m) as [Hlt|Hge].
      * intros [[[= -> ->] Hall]|(pre & post & -> & Hline & Hlen & Hpre & Hpost)]%IH.
        -- right. exists [], ts. by split_and!.
        -- right. exists ((k1, t1) :: pre), post. split_and!; [done|done|lia| |done].
           apply Forall_cons. split; [simpl; lia|done].
      * intros [[Heq Hall]|(pre & post & -> & Hline & Hlen & Hpre & Hpost)]%IH.
        -- left. split; [done|]. apply Forall_cons. by split.
        -- right. exists ((k1, t1) :: pre), post. split_and!; [done..| |done].
           apply Forall_cons. split; [simpl; lia|done].
    + rewrite bool_decide_false by done.
      intros [[Heq Hall]|(pre & post & -> & Hline & Hlen & Hpre & Hpost)]%IH.
      * left. split; [done|]. apply Forall_cons. by split.
      * right. exists ((k1, t1) :: pre), post. split_and!; [done..| |done].
        apply Forall_cons. by split.
Qed.

Lemma least_loaded_first_minimal ts key track :
  least_loaded ts None None = Some (key, track) →
  ∃ pre post,
    ts = pre ++ (key, track) :: post ∧ linelike track
    ∧ Forall (λ kt, linelike kt.2 →
                    length (track_stations track) < length (track_stations kt.2)) pre
    ∧ Forall (λ kt, linelike kt.2 →
                    length (track_stations track) ≤ length (track_stations kt.2)) post.
Proof.
  induction ts as [|[k1 t1] ts IH]; simpl; [done|].
  destruct (decide (linelike t1)) as [Hl|Hl]; unfold linelike in Hl.
  - rewrite bool_decide_true by done.
    intros [[[= -> ->] Hall]|(pre & post & -> & Hline & Hlen & Hpre & Hpost)]%least_loaded_acc.
    + exists [], ts. by split_and!.
    + exists ((k1, t1) :: pre), post. split_and!; [done..| |done].
      apply Forall_cons. split; [simpl; lia|done].
  - rewrite bool_decide_false by done.
    intros (pre & post & -> & Hline & Hpre & Hpost)%IH.
    exists ((k1, t1) :: pre), post. split_and!; [done..| |done].
    apply Forall_cons. by split.
Qed.

Lemma has_line_least_loaded ts : has_line ts → is_Some (least_loaded ts None None).
Proof.
  intros Hline. destruct (least_loaded ts None None) eqn:Hscan; [done|].
  by apply least_loaded_None in Hscan.
Qed.

(** X5: without a (usable) preferred line the target is the first track,
    in the order of the track dictionary, among the MAIN and BRANCH tracks
    with the fewest stations; there is no target exactly when the network
    has no MAIN or BRANCH track.  A preferred line that is the empty string
    or names no track is ignored. *)
Theorem choose_track_least_loaded s :
  (∀ key track,
     choose_track None s = Some (key, track) →
     ∃ pre post,
       tracks s = pre ++ (key, track) :: post ∧ linelike track
       ∧ Forall (λ kt, linelike kt.2 →
                       length (track_stations track) < length (track_stations kt.2)) pre
       ∧ Forall (λ kt, linelike kt.2 →
                       length (track_stations track) ≤ length (track_stations kt.2)) post)
  ∧ (choose_track None s = None ↔ ¬ has_line (tracks s))
  ∧ (∀ d preferred_line,
       preferred_line = "" ∨ dict_get preferred_line (tracks s) = None →
       insert_data_optimally d (Some preferred_line) s
       = insert_data_optimally d None s).
Proof.
  split_and!.
  - intros key track. apply least_loaded_first_minimal.
  - unfold choose_track. split; [apply least_loaded_None|].
    intros Hno. destruct (least_loaded (tracks s) None None) as [[key track]|] eqn:Hscan;
      [|done].
    destruct Hno. apply least_loaded_Some in Hscan as [[? ?]|?]; [|done].
    by exists key, track.
  - intros d pl Hpl. unfold insert_data_optimally, choose_track.
    destruct Hpl as [-> | Hnone]; [done|].
    rewrite Hnone. by destruct (bool_decide (pl ≠ "")).
Qed.

End LeastLoaded.

Section InsertAppend.
Context {Data : Type} `{!EqDecision Data}.
Implicit Types (s : SubwayNetwork Data) (h : list (SubwayStation Data))
  (st : SubwayStation Data) (d : Data).

(** X6: an insertion with a target track files a new station
    ["<track_id>_auto_<n>"], [n] the number of stations of the track, and
    appends it to the track, whatever the kind of the track.  After a last
    station the new one is TERMINAL and linked behind it by the track's own
    edge kind, and the last station becomes REGULAR only if it was
    TERMINAL; on a track without stations the new station stays REGULAR
    and unlinked.  No other station changes. *)
Theorem insert_data_optimally_appends s d preferred_line key track :
  choose_track preferred_line s = Some (key, track) →
  let new := length (heap s) in
  let sid := track_id track +:+ "_auto_" +:+ str (length (track_stations track)) in
  let kind := track_type track in
  let fresh := add_line_color (color track) (new_station sid d StationType.REGULAR) in
  ∃ s' stn,
    insert_data_optimally d preferred_line s = (sid, s')
    ∧ dict_get sid (stations s') = Some new
    ∧ dict_get key (tracks s') = Some (track_append new track)
    ∧ total_data_items s' = total_data_items s + 1
    ∧ length (heap s') = S new
    ∧ heap s' !! new = Some stn
    ∧ match last (track_stations track) with
      | None => stn = fresh ∧ ∀ x, x < new → heap s' !! x = heap s !! x
      | Some l =>
          ∀ stl, heap s !! l = Some stl →
            stn = set_station_type StationType.TERMINAL (set_prev kind l fresh)
            ∧ heap s' !! l
              = Some (if decide (station_type stl = StationType.TERMINAL)
                      then set_station_type StationType.REGULAR (set_next kind new stl)
                      else set_next kind new stl)
            ∧ ∀ x, x < new → x ≠ l → heap s' !! x = heap s !! x
      end.
Proof.
  intros Hchoose new sid kind fresh.
  unfold insert_data_optimally. rewrite Hchoose.
  unfold alloc. cbn beta iota zeta. fold new sid kind fresh.
  destruct (last (track_stations track)) as [l|] eqn:Hlast.
  - set (h3 := mutate new (set_prev kind l) (mutate l (set_next kind new) (heap s ++ [fresh]))).
    set (h4 := if bool_decide (station_type <$> h3 !! l = Some StationType.TERMINAL)
               then mutate l (set_station_type StationType.REGULAR) h3 else h3).
    assert (length h4 = S new) as Hlen4.
    { subst h4 h3. destruct (bool_decide _);
        rewrite !length_mutate, length_app; simpl; lia. }
    assert (is_Some (mutate new (set_station_type StationType.TERMINAL) h4 !! new))
      as [stn Hstn].
    { apply lookup_lt_is_Some. rewrite length_mutate. lia. }
    eexists _, stn. split; [reflexivity|]. cbn [heap stations tracks total_data_items].
    split_and!; [apply dict_get_set_eq..|done|by rewrite length_mutate|done|].
    intros stl Hstl. pose proof (lookup_lt_Some _ _ _ Hstl) as Hlt. fold new in Hlt.
    assert (h3 !! l = Some (set_next kind new stl)) as H3l.
    { subst h3. rewrite lookup_mutate_ne, lookup_mutate_eq by lia.
      by rewrite lookup_app_l, Hstl by done. }
    assert (h3 !! new = Some (set_prev kind l fresh)) as H3n.
    { subst h3. rewrite lookup_mutate_eq, lookup_mutate_ne by lia.
      subst new. by rewrite list_lookup_middle. }
    assert (∀ x, x < new → x ≠ l → h3 !! x = heap s !! x) as H3x.
    { intros x Hx Hxl. subst h3. rewrite !lookup_mutate_ne by lia.
      by apply lookup_app_l. }
    split_and!.
    + rewrite lookup_mutate_eq in Hstn. subst h4.
      destruct (bool_decide _); rewrite ?lookup_mutate_ne in Hstn by lia;
        rewrite H3n in Hstn; by injection Hstn as <-.
    + rewrite lookup_mutate_ne by lia. subst h4. rewrite H3l. simpl.
      destruct (decide (station_type stl = StationType.TERMINAL)) as [Hty|Hty].
      * rewrite bool_decide_true by by rewrite Hty.
        by rewrite lookup_mutate_eq, H3l.
      * rewrite bool_decide_false by (intros [= ?]; done). done.
    + intros x Hx Hxl. rewrite lookup_mutate_ne by lia. subst h4.
      destruct (bool_decide _); rewrite ?lookup_mutate_ne by done; by apply H3x.
  - eexists _, fresh. split; [reflexivity|]. cbn [heap stations tracks total_data_items].
    split_and!.
    + apply dict_get_set_eq.
    + apply dict_get_set_eq.
    + done.
    + rewrite length_app. simpl. lia.
    + subst new. by apply list_lookup_middle.
    + done.
    + intros x Hx. by apply lookup_app_l.
Qed.

End InsertAppend.

Section RouteWalk.
Context {Data : Type} `{!EqDecision Data}.
Implicit Types (s : SubwayNetwork Data) (h : list (SubwayStation Data))
  (st : SubwayStation Data) (visited : gset string)
  (queue : list (nat * list string * number)) (w : list nat).

Lemma is_walk_snoc h w a b :
  is_walk h w → last w = Some a → edge h a b → is_walk h (w ++ [b]).
Proof.
  intros Hw Hlast Hedge i x y Hx Hy.
  apply last_Some in Hlast as [w' ->].
  destruct (decide (S i < length (w' ++ [a]))) as [Hlt|Hge].
  - rewrite lookup_app_l in Hx by lia. rewrite lookup_app_l in Hy by lia.
    by eapply Hw.
  - assert (S i = length (w' ++ [a])) as Hi.
    { apply lookup_lt_Some in Hy. rewrite length_app in Hy. simpl in Hy. lia. }
    rewrite Hi, list_lookup_middle in Hy by done. injection Hy as <-.
    rewrite length_app in Hi. simpl in Hi.
    rewrite <- (assoc_L (++)) in Hx. simpl in Hx.
    rewrite list_lookup_middle in Hx by lia. by injection Hx as <-.
Qed.

Lemma route_loop_walk fuel h e start visited queue path :
  Forall (entry_walk h start) queue →
  route_loop fuel h e visited queue = Some (Returns path) →
  path = [] ∨ entry_walk h start (e, path, Int 0).
Proof.
  revert visited queue.
  induction fuel as [|fuel IH]; intros visited queue Hq; simpl; [done|].
  destruct queue as [|[[current pth] cost] queue]; [intros [= <-]; by left|].
  apply Forall_cons in Hq as [Hcur Hq].
  destruct (h !! current) as [st|] eqn:Hst; [|by apply IH].
  destruct (bool_decide (station_id st ∈ visited)); [by apply IH|].
  destruct (decide (current = e)) as [->|Hne].
  { rewrite bool_decide_true by done. intros [= <-]. by right. }
  rewrite bool_decide_false by done.
  destruct (next_options _ _ _ _ _) as [candidates|] eqn:Hcand; [|done].
  apply IH. apply Forall_app. split; [done|].
  apply Forall_forall. intros x Hx%sort_by_elem.
  destruct (next_options_elem _ _ _ _ _ _ _ Hcand Hx) as (_ & _ & Hpath).
  pose proof (next_options_successors _ _ _ _ _ _ _ Hcand Hx) as Hsucc.
  destruct Hcur as (w & Hw & Hhead & Hlast & Hwalk). simpl in Hw, Hlast.
  exists (w ++ [x.1.1]). split_and!.
  - by rewrite Hpath, Hw, fmap_app.
  - destruct w; [done|]. done.
  - by rewrite last_snoc.
  - eapply is_walk_snoc; [done..|]. by exists st.
Qed.

(** X7: a non-empty result spells a walk: the identifiers of a chain of
    stations that starts at the station found for the start item, ends at
    the one found for the end item, and in which each station is a
    successor (next of any kind, express shortcut, branch connection or
    transfer destination) of the one before. *)
Theorem find_optimal_route_walk s (start_data end_data : Data) path :
  find_optimal_route s start_data end_data = Some (Returns path) → path ≠ [] →
  ∃ start_station end_station w,
    _find_station_by_data s start_data = Some start_station
    ∧ _find_station_by_data s end_data = Some end_station
    ∧ path = id_at (heap s) <$> w
    ∧ head w = Some start_station ∧ last w = Some end_station
    ∧ is_walk (heap s) w.
Proof.
  unfold find_optimal_route. intros Hroute Hne.
  destruct (_find_station_by_data s start_data) as [a|]; [|by simplify_eq].
  destruct (_find_station_by_data s end_data) as [b|]; [|by simplify_eq].
  apply (route_loop_walk _ _ _ a) in Hroute as [?|(w & Hw & Hhead & Hlast & Hwalk)];
    [done| |].
  - exists a, b, w. by split_and!.
  - apply Forall_singleton. exists [a]. split_and!; [done..|].
    intros i x y Hx Hy. by destruct i.
Qed.

End RouteWalk.

Section RouteComplete.
Context {Data : Type} `{!EqDecision Data}.
Implicit Types (s : SubwayNetwork Data) (h : list (SubwayStation Data))
  (st : SubwayStation Data) (visited : gset string)
  (queue : list (nat * list string * number)).

(** Every successor that is not visited is among the candidates. *)
Lemma next_options_complete h visited st path cost candidates b :
  next_options h visited st path cost = Some candidates →
  b ∈ successors st → id_at h b ∉ visited →
  ∃ x, x ∈ candidates ∧ entry_station x = b.
Proof.
  intros Hc%next_options_targets Hb%next_targets_successors Hnew.
  assert ((b, path ++ [id_at h b]) ∈ candidates.*1) as Hin.
  { rewrite Hc. apply list_elem_of_fmap. exists b. split; [done|].
    by apply list_elem_of_filter. }
  apply list_elem_of_fmap in Hin as (x & Hx & Hin).
  exists x. split; [done|]. unfold entry_station. by rewrite <- Hx.
Qed.

Lemma visited_region_not_connected h e visited :
  (∀ a st b, h !! a = Some st → station_id st ∈ visited → b ∈ successors st →
             b < length h ∧ id_at h b ∈ visited) →
  id_at h e ∉ visited →
  ∀ x, x < length h → id_at h x ∈ visited → ¬ connected h x e.
Proof.
  intros Hclosed He x Hx Hvis Hconn.
  revert Hx Hvis. induction Hconn as [x|x y z (st & Hst & Hy) _ IH]; intros Hx Hvis.
  - done.
  - assert (station_id st ∈ visited) as Hst'.
    { unfold id_at in Hvis. by rewrite Hst in Hvis. }
    destruct (Hclosed _ _ _ Hst Hst' Hy). by apply IH.
Qed.

Lemma route_loop_complete fuel h e visited queue :
  NoDup (station_id <$> h) →
  Forall (λ st, Forall (λ b, b < length h) (successors st)) h →
  e < length h →
  Forall (λ x, entry_station x < length h ∧ x.1.2 ≠ []) queue →
  id_at h e ∉ visited →
  (∀ a st b, h !! a = Some st → station_id st ∈ visited → b ∈ successors st →
             id_at h b ∈ visited ∨ b ∈ entry_station <$> queue) →
  route_loop fuel h e visited queue = Some (Returns []) →
  ∀ x, x ∈ entry_station <$> queue ∨ (x < length h ∧ id_at h x ∈ visited) →
       ¬ connected h x e.
Proof.
  intros Hids Hsucc He.
  assert (∀ a st b, h !! a = Some st → b ∈ successors st → b < length h) as Hin.
  { intros a st b Hst Hb. apply list_elem_of_lookup_2 in Hst.
    eapply Forall_forall in Hsucc; [|done]. by eapply Forall_forall in Hsucc. }
  assert (∀ a b sta stb, h !! a = Some sta → h !! b = Some stb →
                         station_id sta = station_id stb → a = b) as Huniq.
  { intros a b sta stb Ha Hb Heq.
    eapply (NoDup_lookup _ _ _ _ Hids); rewrite list_lookup_fmap.
    - by rewrite Ha.
    - rewrite Hb. simpl. by rewrite Heq. }
  revert visited queue.
  induction fuel as [|fuel IH]; intros visited queue Hq Hend Hfront; simpl; [done|].
  destruct queue as [|[[current pth] cost] queue].
  { intros _ x [Hx|[Hx Hvis]]; [by apply elem_of_nil in Hx|].
    apply (visited_region_not_connected h e visited); [|done..].
    intros a st b Hst Hvis' Hb. split; [by eapply Hin|].
    destruct (Hfront _ _ _ Hst Hvis' Hb) as [?|Hnil]; [done|].
    by apply elem_of_nil in Hnil. }
  apply Forall_cons in Hq as [[Hcur Hpth] Hq]. unfold entry_station in Hcur.
  simpl in Hcur, Hpth.
  destruct (lookup_lt_is_Some_2 _ _ Hcur) as [st Hst]. rewrite Hst.
  assert (id_at h current = station_id st) as Hidc.
  { unfold id_at. by rewrite Hst. }
  destruct (decide (station_id st ∈ visited)) as [Hvis|Hvis].
  - rewrite bool_decide_true by done. intros Hrun.
    assert (∀ x, x ∈ entry_station <$> queue ∨ x < length h ∧ id_at h x ∈ visited →
                 ¬ connected h x e) as Hrec.
    { apply IH; [done..| |done].
      intros a sta b Hsta Hva Hb.
      destruct (Hfront _ _ _ Hsta Hva Hb) as [?|Hq']; [by left|].
      rewrite fmap_cons in Hq'. apply elem_of_cons in Hq' as [->|?]; [|by right].
      left. unfold entry_station. simpl. by rewrite Hidc. }
    intros x [Hx|Hx]; [|by apply Hrec; right].
    rewrite fmap_cons in Hx. apply elem_of_cons in Hx as [->|Hx].
    + apply Hrec. right. unfold entry_station. simpl. by rewrite Hidc.
    + apply Hrec. by left.
  - rewrite bool_decide_false by done.
    destruct (decide (current = e)) as [->|Hne].
    { rewrite bool_decide_true by done. intros [= ->]. done. }
    rewrite bool_decide_false by done.
    set (visited' := visited ∪ {[station_id st]}) in *.
    destruct (next_options _ _ _ _ _) as [candidates|] eqn:Hcand; [|done].
    intros Hrun.
    set (cands := sort_by _ _) in *.
    assert (∀ x, x ∈ entry_station <$> (queue ++ cands)
                 ∨ x < length h ∧ id_at h x ∈ visited' →
                 ¬ connected h x e) as Hrec.
    { apply IH; [| | |done].
      - apply Forall_app. split; [done|].
        apply Forall_forall. intros x Hx%sort_by_elem. split.
        + apply (next_options_successors _ _ _ _ _ _ _ Hcand) in Hx.
          by eapply Hin.
        + destruct (next_options_elem _ _ _ _ _ _ _ Hcand Hx) as (_ & _ & Hp).
          rewrite Hp. by destruct pth.
      - subst visited'. apply not_elem_of_union. split; [done|].
        intros Heq%elem_of_singleton.
        destruct (lookup_lt_is_Some_2 _ _ He) as [ste Hste].
        unfold id_at in Heq. rewrite Hste in Heq. simpl in Heq.
        apply Hne. by eapply Huniq.
      - intros a sta b Hsta Hva Hb. subst visited'.
        apply elem_of_union in Hva as [Hva|Hva%elem_of_singleton].
        + destruct (Hfront _ _ _ Hsta Hva Hb) as [?|Hq'].
          * left. apply elem_of_union. by left.
          * rewrite fmap_cons in Hq'. apply elem_of_cons in Hq' as [->|?].
            -- left. unfold entry_station. simpl. rewrite Hidc.
               apply elem_of_union. right. by apply elem_of_singleton.
            -- right. rewrite fmap_app. apply elem_of_app. by left.
        + assert (a = current) as -> by by eapply Huniq.
          assert (sta = st) as -> by congruence.
          destruct (decide (id_at h b ∈ visited ∪ {[station_id st]})) as [?|Hnew];
            [by left|right].
          destruct (next_options_complete _ _ _ _ _ _ b Hcand Hb Hnew)
            as (x & Hx & <-).
          rewrite fmap_app. apply elem_of_app. right.
          apply list_elem_of_fmap. exists x. split; [done|].
          by apply sort_by_elem. }
    intros x [Hx|[Hx Hxv]].
    + rewrite fmap_cons in Hx. apply elem_of_cons in Hx as [->|Hx].
      * apply Hrec. right. unfold entry_station. simpl. split; [done|].
        rewrite Hidc. subst visited'. set_solver.
      * apply Hrec. left. rewrite fmap_app. apply elem_of_app. by left.
    + apply Hrec. right. split; [done|]. subst visited'. set_solver.
Qed.


End RouteComplete.

Section Growth.
Context {Data : Type} `{!EqDecision Data}.
Implicit Types (s : SubwayNetwork Data) (h : list (SubwayStation Data))
  (st : SubwayStation Data) (a b p : nat) (sts : dict string nat)
  (track : SubwayTrack).

Lemma dict_keys_set_prefix {K V} `{EqDecision K} (key : K) (v : V) (d : dict K V) :
  dict_keys d `prefix_of` dict_keys (dict_set key v d).
Proof.
  rewrite dict_keys_set. destruct (bool_decide _); [done|]. by apply prefix_app_r.
Qed.

Lemma dict_set_length {K V} `{EqDecision K} (key : K) (v : V) (d : dict K V) :
  length (dict_set key v d) ≤ S (length d).
Proof.
  induction d as [|[k0 v0] d IH]; simpl; [lia|].
  destruct (decide (key = k0)); simpl; lia.
Qed.

Lemma filed_entry_extends h h' kv :
  extends h h' → filed_entry h kv → filed_entry h' kv.
Proof.
  intros Hext (st & Hst & Hid).
  destruct (Hext _ _ Hst) as (st' & Hst' & Hid' & _).
  exists st'. split; [done|congruence].
Qed.

Lemma extends_length h h' : extends h h' → length h ≤ length h'.
Proof.
  intros Hext. destruct (decide (length h = 0)) as [?|Hne]; [lia|].
  destruct (lookup_lt_is_Some_2 h (length h - 1)) as [st Hst]; [lia|].
  destruct (Hext _ _ Hst) as (st' & Hst' & _).
  apply lookup_lt_Some in Hst'. lia.
Qed.

Lemma extends_mutate_alloc h h' st :
  extends (h ++ [st]) h' → length h' = S (length h) →
  extends h h' ∧ filed_entry h' (station_id st, length h).
Proof.
  intros Hext Hlen. split.
  - eapply extends_trans; [apply extends_alloc|done].
  - destruct (Hext (length h) st) as (st' & Hst' & Hid & _).
    { by apply list_lookup_middle. }
    by exists st'.
Qed.

(** ** The loops *)

Lemma main_line_loop_grows line_id color n items :
  ∀ i prev h sts track h' sts' track',
    main_line_loop line_id color n i items prev h sts track = (h', sts', track') →
    extends h h' ∧ length h' = length h + length items
    ∧ dict_keys sts `prefix_of` dict_keys sts'
    ∧ length sts' ≤ length sts + length items
    ∧ (Forall (filed_entry h) sts → Forall (filed_entry h') sts').
Proof.
  induction items as [|d items IH];
    intros i prev h sts track h' sts' track'; simpl.
  - intros [= <- <- <-]. split_and!; [apply extends_refl|lia|done|lia|done].
  - set (new := add_line_color color (new_station _ d _)).
    set (h1 := match prev with Some p => _ | None => _ end).
    intros Hloop.
    assert (extends (h ++ [new]) h1 ∧ length h1 = S (length h)) as [Hext1 Hlen1].
    { subst h1. destruct prev as [p|].
      - split; [|rewrite !length_mutate, length_app; simpl; lia].
        eapply extends_trans; by apply extends_mutate.
      - split; [apply extends_refl|]. rewrite length_app. simpl. lia. }
    destruct (extends_mutate_alloc _ _ _ Hext1 Hlen1) as [Hext Hnew].
    apply IH in Hloop as (Hext' & Hlen' & Hkeys' & Hlens' & Hfiled').
    split_and!.
    + by eapply extends_trans.
    + lia.
    + etrans; [apply dict_keys_set_prefix|done].
    + pose proof (dict_set_length (line_id +:+ "_station_" +:+ str i) (length h) sts).
      lia.
    + intros Hfiled. apply Hfiled'. apply Forall_dict_set; [done|].
      eapply Forall_impl; [done|]. intros kv. by apply filed_entry_extends.
Qed.

Lemma branch_line_loop_grows branch_id color n junction items :
  ∀ i prev h sts track h' sts' track',
    branch_line_loop branch_id color n junction i items prev h sts track
    = (h', sts', track') →
    extends h h' ∧ length h' = length h + length items
    ∧ dict_keys sts `prefix_of` dict_keys sts'
    ∧ length sts' ≤ length sts + length items
    ∧ (Forall (filed_entry h) sts → Forall (filed_entry h') sts').
Proof.
  induction items as [|d items IH];
    intros i prev h sts track h' sts' track'; simpl.
  - intros [= <- <- <-]. split_and!; [apply extends_refl|lia|done|lia|done].
  - set (new := add_line_color color (new_station _ d _)).
    set (h1 := mutate prev _ (mutate (length h) _ (h ++ [new]))).
    set (h2 := if bool_decide (i = 0) then _ else h1).
    intros Hloop.
    assert (extends (h ++ [new]) h2 ∧ length h2 = S (length h)) as [Hext2 Hlen2].
    { assert (extends (h ++ [new]) h1) as Hext1.
      { subst h1. eapply extends_trans; by apply extends_mutate. }
      assert (length h1 = S (length h)) as Hlen1.
      { subst h1. rewrite !length_mutate, length_app. simpl. lia. }
      subst h2. destruct (bool_decide (i = 0)); [|done].
      split; [|by rewrite length_mutate].
      eapply extends_trans; [done|by apply extends_mutate]. }
    destruct (extends_mutate_alloc _ _ _ Hext2 Hlen2) as [Hext Hnew].
    apply IH in Hloop as (Hext' & Hlen' & Hkeys' & Hlens' & Hfiled').
    split_and!.
    + by eapply extends_trans.
    + lia.
    + etrans; [apply dict_keys_set_prefix|done].
    + pose proof (dict_set_length (branch_id +:+ "_station_" +:+ str i) (length h) sts).
      lia.
    + intros Hfiled. apply Hfiled'. apply Forall_dict_set; [done|].
      eapply Forall_impl; [done|]. intros kv. by apply filed_entry_extends.
Qed.

Lemma express_visit_extends color station prev h :
  extends h (express_visit color station prev h)
  ∧ length (express_visit color station prev h) = length h.
Proof.
  unfold express_visit. destruct prev as [p|].
  - split; [|by rewrite !length_mutate].
    do 4 (eapply extends_trans; [|by apply extends_mutate]).
    by apply extends_mutate.
  - split; [|by rewrite !length_mutate].
    eapply extends_trans; by apply extends_mutate.
Qed.

Lemma express_line_loop_extends (l : list nat) color idxs :
  ∀ prev h track,
    match express_line_loop l color idxs prev h track with
    | inl (h', _) => extends h h' ∧ length h' = length h
    | inr h' => extends h h' ∧ length h' = length h
    end.
Proof.
  induction idxs as [|i idxs IH]; intros prev h track; simpl.
  - split; [apply extends_refl|done].
  - destruct (_ <=? _)%Z; [apply IH|].
    destruct (py_index l i) as [station|]; [|split; [apply extends_refl|done]].
    destruct (express_visit_extends color station prev h) as [Hext Hlen].
    specialize (IH (Some station) (express_visit color station prev h)
      (track_add_stop (id_at (express_visit color station prev h) station)
         (track_append station track))).
    destruct (express_line_loop _ _ _ _ _ _) as [[h' track']|h'];
      destruct IH as [Hext' Hlen']; (split; [by eapply extends_trans|lia]).
Qed.

(** ** The operations *)

Lemma grows_refl s : grows s s.
Proof. split_and!; [apply extends_refl|done|done|done|lia|lia]. Qed.

Lemma grows_trans s1 s2 s3 : grows s1 s2 → grows s2 s3 → grows s1 s3.
Proof.
  intros (He & Hl & Hs & Ht & Hc & Hn) (He' & Hl' & Hs' & Ht' & Hc' & Hn').
  split_and!; [by eapply extends_trans|lia|by etrans|by etrans|lia|lia].
Qed.

Lemma create_main_line_grows line_id (stations_data : list Data) color s :
  let s' := (create_main_line line_id stations_data color s).2 in
  grows s s' ∧ (filed s → filed s').
Proof.
  unfold create_main_line.
  destruct (main_line_loop _ _ _ _ _ _ _ _ _) as [[h' sts'] track'] eqn:Hloop.
  apply main_line_loop_grows in Hloop as (Hext & Hlen & Hkeys & Hlens & Hfiled).
  simpl. split; [|done].
  split_and!; simpl; [done|lia|done|apply dict_keys_set_prefix|lia|lia].
Qed.

Lemma create_branch_line_grows branch_id junction_station_id
    (branch_data : list Data) color s :
  let s' := state_of (create_branch_line branch_id junction_station_id
                        branch_data color s) in
  grows s s' ∧ (filed s → filed s').
Proof.
  unfold create_branch_line.
  destruct (dict_get _ (stations s)) as [junction|]; [|split; [apply grows_refl|done]].
  destruct (branch_line_loop _ _ _ _ _ _ _ _ _ _) as [[h' sts'] track'] eqn:Hloop.
  apply branch_line_loop_grows in Hloop as (Hext & Hlen & Hkeys & Hlens & Hfiled).
  rewrite length_mutate in Hlen.
  assert (extends (heap s) h') as Hext0.
  { eapply extends_trans; [|exact Hext]. by apply extends_mutate. }
  simpl. split.
  - split_and!; simpl; [done|lia|done|apply dict_keys_set_prefix|lia|lia].
  - intros Hs. apply Hfiled. eapply Forall_impl; [exact Hs|].
    intros kv. apply filed_entry_extends. by apply extends_mutate.
Qed.

Lemma create_express_line_grows express_id main_line_id express_stations color s :
  let s' := state_of (create_express_line express_id main_line_id
                        express_stations color s) in
  grows s s' ∧ (filed s → filed s').
Proof.
  unfold create_express_line.
  destruct (dict_get _ (tracks s)) as [main_track|]; [|split; [apply grows_refl|done]].
  pose proof (express_line_loop_extends (track_stations main_track) color
    express_stations None (heap s)
    (new_track express_id TrackType.EXPRESS color)) as Hloop.
  destruct (express_line_loop _ _ _ _ _ _) as [[h' track']|h'];
    destruct Hloop as [Hext Hlen]; simpl.
  - split.
    + split_and!; simpl; [done|lia|done|apply dict_keys_set_prefix|lia|lia].
    + intros Hs. eapply Forall_impl; [exact Hs|].
      intros kv. by apply filed_entry_extends.
  - split.
    + split_and!; simpl; [done|lia|done|done|lia|lia].
    + intros Hs. eapply Forall_impl; [exact Hs|].
      intros kv. by apply filed_entry_extends.
Qed.

Lemma create_loop_connection_grows start_station_id end_station_id color s :
  let s' := state_of (create_loop_connection start_station_id end_station_id
                        color s) in
  grows s s' ∧ (filed s → filed s').
Proof.
  unfold create_loop_connection.
  destruct (dict_get start_station_id (stations s)) as [a|];
    [|split; [apply grows_refl|done]].
  destruct (dict_get end_station_id (stations s)) as [b|];
    [|split; [apply grows_refl|done]].
  cbn [state_of].
  match goal with |- context [mkNetwork ?h0 _ _ _] => set (h' := h0) end.
  assert (extends (heap s) h' ∧ length h' = length (heap s)) as [Hext Hlen].
  { subst h'. split; [|by rewrite !length_mutate].
    do 3 (eapply extends_trans; [|by apply extends_mutate]).
    by apply extends_mutate. }
  split.
  - split_and!; cbn [heap stations tracks total_data_items];
      [done|lia|done|apply dict_keys_set_prefix|lia|lia].
  - intros Hs. eapply Forall_impl; [exact Hs|].
    intros kv. by apply filed_entry_extends.
Qed.

Lemma add_transfer_connection_grows station1_id station2_id transfer_cost s :
  let s' := add_transfer_connection station1_id station2_id transfer_cost s in
  grows s s' ∧ (filed s → filed s').
Proof.
  unfold add_transfer_connection.
  destruct (dict_get station1_id (stations s)) as [a|];
    [|split; [apply grows_refl|done]].
  destruct (dict_get station2_id (stations s)) as [b|];
    [|split; [apply grows_refl|done]].
  match goal with |- context [mkNetwork ?h0 _ _ _] => set (h' := h0) end.
  assert (extends (heap s) h' ∧ length h' = length (heap s)) as [Hext Hlen].
  { subst h'. split; [|by rewrite !length_mutate].
    do 3 (eapply extends_trans; [|by apply extends_mutate]).
    by apply extends_mutate. }
  split.
  - split_and!; cbn [heap stations tracks total_data_items];
      [done|lia|done|done|lia|lia].
  - intros Hs. eapply Forall_impl; [exact Hs|].
    intros kv. by apply filed_entry_extends.
Qed.

Lemma insert_data_optimally_grows d preferred_line s :
  let s' := (insert_data_optimally d preferred_line s).2 in
  grows s s' ∧ (filed s → filed s').
Proof.
  unfold insert_data_optimally.
  destruct (choose_track preferred_line s) as [[key target]|].
  2:{ pose proof (create_main_line_grows "main_0" [d] "blue" s) as Hmain.
      by destruct (create_main_line "main_0" [d] "blue" s). }
  unfold alloc. cbn beta iota zeta. cbn [snd].
  set (new := add_line_color _ (new_station _ d _)).
  match goal with |- context [mkNetwork ?h0 _ _ _] => set (h' := h0) end.
  assert (extends (heap s ++ [new]) h' ∧ length h' = S (length (heap s)))
    as [Hext1 Hlen].
  { subst h'. destruct (last (track_stations target)) as [last_station|].
    - split.
      + eapply extends_trans; [|by apply extends_mutate].
        assert (extends (heap s ++ [new])
                  (mutate (length (heap s))
                     (set_prev (track_type target) last_station)
                     (mutate last_station
                        (set_next (track_type target) (length (heap s)))
                        (heap s ++ [new])))) as Hlink.
        { eapply extends_trans; by apply extends_mutate. }
        destruct (bool_decide _); [|done].
        eapply extends_trans; [done|by apply extends_mutate].
      + destruct (bool_decide _); rewrite !length_mutate, length_app; simpl; lia.
    - split; [apply extends_refl|]. rewrite length_app. simpl. lia. }
  destruct (extends_mutate_alloc _ _ _ Hext1 Hlen) as [Hext Hnew].
  split.
  - split_and!; cbn [heap stations tracks total_data_items];
      [done|lia|apply dict_keys_set_prefix|apply dict_keys_set_prefix|lia|].
    pose proof (dict_set_length (station_id new) (length (heap s)) (stations s)).
    simpl in *. lia.
  - intros Hs. unfold filed. cbn [heap stations].
    apply Forall_dict_set; [done|].
    eapply Forall_impl; [exact Hs|]. intros kv. by apply filed_entry_extends.
Qed.

Lemma run_grows op s : grows s (run op s) ∧ (filed s → filed (run op s)).
Proof.
  destruct op; simpl.
  - apply create_main_line_grows.
  - apply create_branch_line_grows.
  - apply create_express_line_grows.
  - apply create_loop_connection_grows.
  - apply add_transfer_connection_grows.
  - apply insert_data_optimally_grows.
Qed.

Lemma run_all_grows ops s :
  grows s (run_all ops s) ∧ (filed s → filed (run_all ops s)).
Proof.
  revert s. induction ops as [|op ops IH]; intros s; simpl.
  - split; [apply grows_refl|done].
  - destruct (run_grows op s) as [Hg Hf]. destruct (IH (run op s)) as [Hg' Hf'].
    split; [by eapply grows_trans|auto].
Qed.

(** X9: the network is append-only.  Whatever calls are made, returning or
    raising, every station object keeps its identifier and payload, every
    key of the station and track dictionaries stays where it is in the
    iteration order, and the item counter does not decrease. *)
Theorem network_append_only (ops : list (operation Data)) s :
  let s' := run_all ops s in
  (∀ a st, heap s !! a = Some st →
     ∃ st', heap s' !! a = Some st' ∧ station_id st' = station_id st
            ∧ data st' = data st)
  ∧ dict_keys (stations s) `prefix_of` dict_keys (stations s')
  ∧ dict_keys (tracks s) `prefix_of` dict_keys (tracks s')
  ∧ total_data_items s ≤ total_data_items s'.
Proof.
  intros s'. destruct (run_all_grows ops s) as [(He & Hl & Hs & Ht & Hc & Hn) _].
  fold s' in He, Hl, Hs, Ht, Hc, Hn. split_and!; [done..|lia].
Qed.

(** X10: in a network built by the operations the item counter is the
    number of station objects created so far, and the number of stations on
    file (what the statistics call total_stations) never exceeds it. *)
Theorem item_counter_counts_objects (ops : list (operation Data)) :
  let s := run_all ops empty_network in
  let stats := get_network_statistics s in
  total_data_items s = length (heap s)
  ∧ stat_total_data_items stats = total_data_items s
  ∧ total_stations stats ≤ stat_total_data_items stats.
Proof.
  intros s stats. subst stats.
  destruct (run_all_grows ops (empty_network (Data := Data)))
    as [(He & Hl & Hs & Ht & Hc & Hn) _].
  fold s in He, Hl, Hs, Ht, Hc, Hn. simpl in *. split_and!; [lia|done|lia].
Qed.

(** X11: in a network built by the operations every key of the station
    dictionary is the identifier of the object it leads to, so two keys
    never lead to the same object. *)
Theorem stations_filed_under_own_id (ops : list (operation Data)) key a :
  let s := run_all ops empty_network in
  dict_get key (stations s) = Some a →
  (∃ st, heap s !! a = Some st ∧ station_id st = key)
  ∧ ∀ key', dict_get key' (stations s) = Some a → key' = key.
Proof.
  intros s Hget.
  assert (filed s) as Hfiled.
  { apply run_all_grows. apply Forall_nil_2. }
  assert (∀ k, dict_get k (stations s) = Some a →
               ∃ st, heap s !! a = Some st ∧ station_id st = k) as Hentry.
  { intros k Hk. apply dict_get_Some_elem in Hk.
    by apply (proj1 (Forall_forall _ _) Hfiled _ Hk). }
  split; [by apply Hentry|].
  intros key' Hget'.
  destruct (Hentry _ Hget) as (st & Hst & <-).
  destruct (Hentry _ Hget') as (st' & Hst' & <-). congruence.
Qed.

End Growth.

Section MainLineChain.
Context {Data : Type} `{!EqDecision Data}.
Implicit Types (s : SubwayNetwork Data) (h : list (SubwayStation Data))
  (st : SubwayStation Data) (a b p : nat) (sts : dict string nat)
  (track : SubwayTrack).

Lemma main_line_loop_heap line_id color n items :
  ∀ i prev h sts track h' sts' track',
    main_line_loop line_id color n i items prev h sts track = (h', sts', track') →
    (∀ p, prev = Some p → p < length h) →
    (∀ a, a < length h → prev ≠ Some a ∨ items = [] → h' !! a = h !! a)
    ∧ (∀ p, prev = Some p → items ≠ [] →
         h' !! p = set_next TrackType.MAIN (length h) <$> h !! p)
    ∧ (∀ j d, items !! j = Some d →
         h' !! (length h + j)
         = Some (chain_station TrackType.MAIN
                   (add_line_color color
                      (new_station (line_id +:+ "_station_" +:+ str (i + j)) d
                         (if bool_decide (i + j = 0)
                             || (Z.of_nat (i + j) =? Z.of_nat n - 1)%Z
                          then StationType.TERMINAL else StationType.REGULAR)))
                   (if decide (j = 0) then prev else Some (length h + j - 1))
                   (if decide (S j < length items)
                    then Some (length h + S j) else None)))
    ∧ (∀ j, j < length items →
         dict_get (line_id +:+ "_station_" +:+ str (i + j)) sts'
         = Some (length h + j))
    ∧ (∀ key, (∀ j, j < length items → key ≠ line_id +:+ "_station_" +:+ str (i + j)) →
         dict_get key sts' = dict_get key sts).
Proof.
  induction items as [|d items IH];
    intros i prev h sts track h' sts' track'; simpl.
  - intros [= <- <- <-] Hprev. split_and!; try done.
    intros j Hj. lia.
  - set (sid := line_id +:+ "_station_" +:+ str i).
    set (new := add_line_color color (new_station sid d _)).
    set (h1 := match prev with Some p => _ | None => _ end).
    intros Hloop Hprev.
    assert (length h1 = S (length h)) as Hlen1.
    { subst h1. destruct prev; rewrite ?length_mutate, length_app; simpl; lia. }
    assert (h1 !! length h
            = Some (match prev with
                    | Some p => set_prev TrackType.MAIN p new
                    | None => new
                    end)) as Hnew1.
    { subst h1. destruct prev as [p|].
      - rewrite lookup_mutate_ne by (specialize (Hprev p eq_refl); lia).
        by rewrite lookup_mutate_eq, list_lookup_middle.
      - by rewrite list_lookup_middle. }
    assert (∀ a, a < length h →
              h1 !! a = if decide (prev = Some a)
                        then set_next TrackType.MAIN (length h) <$> h !! a
                        else h !! a) as Hold1.
    { intros a Ha. subst h1. destruct prev as [p|].
      - destruct (decide (Some p = Some a)) as [[= ->]|Hne].
        + by rewrite lookup_mutate_eq, lookup_mutate_ne, lookup_app_l by lia.
        + rewrite !lookup_mutate_ne by (try lia; congruence).
          by rewrite lookup_app_l.
      - rewrite decide_False by done. by rewrite lookup_app_l. }
    apply IH in Hloop as (Hold & Hprev' & Hnew & Hget & Hother);
      [|intros p [= <-]; lia].
    split_and!.
    + intros a Ha [Hne|?]; [|done].
      rewrite Hold by (try lia; left; intros [= ?]; lia).
      rewrite Hold1 by done. by rewrite decide_False.
    + intros p -> _.
      specialize (Hprev p eq_refl).
      rewrite Hold by (try lia; left; intros [= ?]; lia).
      rewrite Hold1 by done. by rewrite decide_True.
    + intros [|j] d' Hj; simpl in Hj.
      * injection Hj as <-. rewrite !Nat.add_0_r.
        rewrite (decide_True (P := 0 = 0)) by done.
        destruct items as [|d2 items].
        -- rewrite decide_False by (simpl; lia).
           rewrite Hold by (try lia; by right). by rewrite Hnew1.
        -- rewrite decide_True by (simpl; lia).
           rewrite (Hprev' (length h)) by done. rewrite Hnew1, Hlen1.
           replace (length h + 1) with (S (length h)) by lia. done.
      * replace (length h + S j) with (length h1 + j) by lia.
        rewrite (Hnew _ _ Hj).
        replace (S i + j) with (i + S j) by lia.
        rewrite (decide_False (P := S j = 0)) by done. rewrite Hlen1.
        replace (if decide (j = 0) then Some (length h)
                 else Some (S (length h) + j - 1))
          with (Some (length h + S j - 1)).
        2:{ destruct (decide (j = 0)) as [->|]; f_equal; lia. }
        replace (if decide (S j < length items)
                 then Some (S (length h) + S j) else None)
          with (if decide (S (S j) < length (d :: items))
                then Some (length h + S (S j)) else None).
        { simpl. replace (length h + S j - 1) with (S (length h) + j - 1) by lia.
          done. }
        simpl. destruct (decide (S j < length items));
          [rewrite decide_True by lia|rewrite decide_False by lia];
          [f_equal; lia|done].
    + intros [|j] Hj.
      * rewrite !Nat.add_0_r, Hother.
        -- apply dict_get_set_eq.
        -- intros j' _ Heq%station_id_inj. lia.
      * replace (i + S j) with (S i + j) by lia.
        replace (length h + S j) with (length h1 + j) by lia.
        apply Hget. simpl in Hj. lia.
    + intros key Hkey. rewrite Hother.
      * apply dict_get_set_ne. specialize (Hkey 0 ltac:(simpl; lia)).
        rewrite Nat.add_0_r in Hkey. done.
      * intros j Hj. replace (S i + j) with (i + S j) by lia.
        apply Hkey. simpl. lia.
Qed.

(** X12: [create_main_line] leaves every existing station object as it was
    and files the new ones, under ["<line_id>_station_<j>"], as a chain:
    station [j] has station [j - 1] as its only prev entry (none for the
    first) and station [j + 1] as its only next entry (none for the last),
    both of kind MAIN, the line colour as its only colour, and no branch
    connection, express shortcut or transfer destination.  The other keys
    of the station dictionary keep their values. *)
Theorem create_main_line_chain s line_id (stations_data : list Data) color :
  let s' := (create_main_line line_id stations_data color s).2 in
  let base := length (heap s) in
  let n := length stations_data in
  (∀ a, a < base → heap s' !! a = heap s !! a)
  ∧ (∀ j d, stations_data !! j = Some d →
       dict_get (line_id +:+ "_station_" +:+ str j) (stations s') = Some (base + j)
       ∧ ∃ st, heap s' !! (base + j) = Some st
           ∧ station_id st = line_id +:+ "_station_" +:+ str j
           ∧ data st = d
           ∧ prev_stations st
             = (if decide (j = 0) then [] else [(TrackType.MAIN, base + j - 1)])
           ∧ next_stations st
             = (if decide (S j < n) then [(TrackType.MAIN, base + S j)] else [])
           ∧ branch_connections st = [] ∧ express_skip_to st = None
           ∧ transfer_destinations st = []
           ∧ line_colors st = {[color]})
  ∧ (∀ key, (∀ j, j < n → key ≠ line_id +:+ "_station_" +:+ str j) →
       dict_get key (stations s') = dict_get key (stations s)).
Proof.
  intros s' base n. subst s'. unfold create_main_line.
  destruct (main_line_loop _ _ _ _ _ _ _ _ _) as [[h' sts'] track'] eqn:Hloop.
  apply main_line_loop_heap in Hloop as (Hold & _ & Hnew & Hget & Hother); [|done].
  simpl. split_and!.
  - intros a Ha. apply Hold; [done|by left].
  - intros j d Hj. split.
    + apply (Hget j). by eapply lookup_lt_Some.
    + eexists. split; [by apply Hnew|]. fold base n.
      unfold chain_station.
      destruct (decide (j = 0)), (decide (S j < n)); simpl;
        (split_and!; [done..|]); apply (left_id_L ∅ (∪)).
  - intros key Hkey. by apply Hother.
Qed.

End MainLineChain.

(** * The benchmark's build loop *)

Section BenchmarkBuild.
Context {Data : Type} `{!EqDecision Data}.
Implicit Types (s : SubwayNetwork Data) (d : Data) (test_data rest : list Data).

Lemma insert_data_optimally_key d s :
  ∃ key a, stations (insert_data_optimally d None s).2
           = dict_set key a (stations s) ∧ inserted_key key.
Proof.
  unfold insert_data_optimally.
  destruct (choose_track None s) as [[k target]|].
  - unfold alloc. cbn beta iota zeta. cbn [snd stations].
    eexists _, _. split; [done|]. right. eauto.
  - unfold create_main_line. cbn. eexists _, _. split; [done|]. by left.
Qed.

Lemma insert_all_keys items :
  ∀ s, Forall (λ kv, inserted_key kv.1) (stations s) →
       Forall (λ kv, inserted_key kv.1) (stations (insert_all items s).2).
Proof.
  induction items as [|d items IH]; intros s Hs; simpl; [done|].
  destruct (insert_data_optimally_key d s) as (key & a & Hsts & Hkey).
  destruct (insert_data_optimally d None s) as [r s1]. simpl in Hsts.
  specialize (IH s1).
  destruct (insert_all items s1) as [rs s']. simpl in *.
  apply IH. rewrite Hsts. apply Forall_forall.
  intros [key' a'] [[= -> ->]|Hin]%dict_set_elem_inv; [done|].
  by apply (proj1 (Forall_forall _ _) Hs _ Hin).
Qed.

Lemma inserted_key_not_station_50 key :
  inserted_key key → key ≠ "main_0_station_50".
Proof.
  intros [->|(t & n & ->)]; [done|].
  apply (auto_id_not_station t "main_0" n 50).
Qed.

Lemma benchmark_build_loop_insert test_data l1 :
  ∀ l2 i s, i + length l1 ≤ 100 →
    benchmark_build_loop test_data i (l1 ++ l2) s
    = benchmark_build_loop test_data (i + length l1) l2 (insert_all l1 s).2.
Proof.
  induction l1 as [|d l1 IH]; intros l2 i s Hi;
    cbn [benchmark_build_loop app length insert_all].
  - by rewrite Nat.add_0_r.
  - assert (bool_decide (i mod 100 = 0) && bool_decide (0 < i) = false) as ->.
    { apply andb_false_iff. simpl in Hi.
      destruct (decide (i = 0)) as [->|].
      - right. apply bool_decide_eq_false_2. lia.
      - left. apply bool_decide_eq_false_2. rewrite Nat.mod_small by lia. done. }
    rewrite IH by (simpl in Hi; lia).
    destruct (insert_data_optimally d None s) as [r s1]. cbn [snd].
    destruct (insert_all l1 s1) as [rs s']. cbn [snd].
    f_equal. lia.
Qed.

(** X13: the loop that fills the benchmark's network inserts the first
    hundred items one by one; at index 100 it asks for a branch at the
    junction "main_0_station_50".  Insertions file stations under
    "main_0_station_0" and "<track>_auto_<n>" only, so with more than a
    hundred items the loop raises the not-found error there, and with at
    most a hundred it returns. *)
Theorem benchmark_build_raises test_data :
  (length test_data ≤ 100 →
   benchmark_build test_data
   = Return tt (insert_all test_data empty_network).2)
  ∧ (100 < length test_data →
     benchmark_build test_data
     = Raise (ValueError "Junction station main_0_station_50 not found")
         (insert_all (take 100 test_data) empty_network).2).
Proof.
  unfold benchmark_build. split; intros Hlen.
  - rewrite <- (app_nil_r test_data) at 2.
    rewrite benchmark_build_loop_insert by (simpl; lia). done.
  - rewrite <- (take_drop 100 test_data) at 2.
    rewrite benchmark_build_loop_insert by (rewrite length_take; lia).
    rewrite length_take, Nat.min_l by lia. change (0 + 100) with 100.
    destruct (drop 100 test_data) as [|d rest] eqn:Hdrop.
    { apply (f_equal length) in Hdrop. rewrite length_drop in Hdrop.
      simpl in Hdrop. lia. }
    pose proof (insert_all_keys (take 100 test_data) empty_network
                  (Forall_nil_2 _)) as Hkeys.
    destruct (insert_all (take 100 test_data) empty_network) as [rs s'].
    cbn [snd benchmark_build_loop] in Hkeys |- *.
    change (bool_decide (100 `mod` 100 = 0) && bool_decide (0 < 100)) with true.
    cbn iota. unfold create_branch_line.
    change ("main_0_station_" +:+ str (100 / 2)) with "main_0_station_50".
    destruct (dict_get "main_0_station_50" (stations s')) as [a|] eqn:Hget; [|done].
    apply dict_get_Some_elem in Hget.
    apply (proj1 (Forall_forall _ _) Hkeys) in Hget.
    by apply inserted_key_not_station_50 in Hget.
Qed.

End BenchmarkBuild.

(** * create_branch_line: the chain it builds *)

Section BranchLineChain.
Context {Data : Type} `{!EqDecision Data}.
Implicit Types (s : SubwayNetwork Data) (h : list (SubwayStation Data))
  (st : SubwayStation Data) (a b p : nat) (sts : dict string nat)
  (track : SubwayTrack).

Lemma branch_line_loop_heap branch_id color n junction items :
  ∀ i prev h sts track h' sts' track',
    branch_line_loop branch_id color n junction i items prev h sts track
    = (h', sts', track') →
    prev < length h → junction < length h →
    track' = mkTrack (track_id track) (track_type track) (track_color track)
               (track_stations track ++ seq (length h) (length items))
               (express_stops track)
    ∧ (∀ a, a < length h →
         h' !! a
         = (λ st,
              if decide (items = []) then st
              else
                let st := if decide (a = prev)
                          then set_next TrackType.BRANCH (length h) st else st in
                if decide (i = 0 ∧ a = junction)
                then add_branch_connection (length h) st else st) <$> h !! a)
    ∧ (∀ j d, items !! j = Some d →
         h' !! (length h + j)
         = Some (chain_station TrackType.BRANCH
                   (add_line_color color
                      (new_station (branch_id +:+ "_station_" +:+ str (i + j)) d
                         (if (Z.of_nat (i + j) =? Z.of_nat n - 1)%Z
                          then StationType.TERMINAL else StationType.REGULAR)))
                   (Some (if decide (j = 0) then prev else length h + j - 1))
                   (if decide (S j < length items)
                    then Some (length h + S j) else None)))
    ∧ (∀ j, j < length items →
         dict_get (branch_id +:+ "_station_" +:+ str (i + j)) sts'
         = Some (length h + j))
    ∧ (∀ key, (∀ j, j < length items →
                 key ≠ branch_id +:+ "_station_" +:+ str (i + j)) →
         dict_get key sts' = dict_get key sts).
Proof.
  induction items as [|d items IH];
    intros i prev h sts track h' sts' track'; simpl.
  - intros [= <- <- <-] Hprev Hjunction. rewrite app_nil_r.
    split_and!; try done.
    + by destruct track.
    + intros a Ha. by destruct (h !! a).
    + intros j Hj. lia.
  - set (sid := branch_id +:+ "_station_" +:+ str i).
    set (new := add_line_color color (new_station sid d _)).
    set (h1 := if bool_decide (i = 0) then _ else _).
    intros Hloop Hprev Hjunction.
    assert (length h1 = S (length h)) as Hlen1.
    { subst h1. destruct (bool_decide (i = 0));
        rewrite ?length_mutate, length_app; simpl; lia. }
    assert (h1 !! length h = Some (set_prev TrackType.BRANCH prev new)) as Hnew1.
    { subst h1. destruct (bool_decide (i = 0));
        rewrite ?lookup_mutate_ne by lia;
        by rewrite lookup_mutate_eq, list_lookup_middle. }
    assert (∀ a, a < length h →
              h1 !! a
              = (λ st,
                   let st := if decide (a = prev)
                             then set_next TrackType.BRANCH (length h) st else st in
                   if decide (i = 0 ∧ a = junction)
                   then add_branch_connection (length h) st else st) <$> h !! a)
      as Hold1.
    { intros a Ha. subst h1.
      assert (mutate prev (set_next TrackType.BRANCH (length h))
                (mutate (length h) (set_prev TrackType.BRANCH prev) (h ++ [new])) !! a
              = (λ st, if decide (a = prev)
                       then set_next TrackType.BRANCH (length h) st else st)
                  <$> h !! a) as Hprev1.
      { destruct (decide (a = prev)) as [->|Hne].
        - by rewrite lookup_mutate_eq, lookup_mutate_ne, lookup_app_l by lia.
        - rewrite !lookup_mutate_ne, lookup_app_l by (try lia; congruence).
          by destruct (h !! a). }
      destruct (decide (i = 0)) as [->|Hi].
      - rewrite bool_decide_eq_true_2 by done.
        destruct (decide (a = junction)) as [->|Hne].
        + rewrite lookup_mutate_eq, Hprev1.
          destruct (h !! junction); simpl; [|done].
          by rewrite (decide_True (P := 0 = 0 ∧ junction = junction)).
        + rewrite lookup_mutate_ne, Hprev1 by congruence.
          destruct (h !! a); simpl; [|done].
          by rewrite (decide_False (P := 0 = 0 ∧ a = junction)) by tauto.
      - rewrite bool_decide_eq_false_2 by done. rewrite Hprev1.
        destruct (h !! a); simpl; [|done].
        by rewrite (decide_False (P := i = 0 ∧ a = junction)) by tauto. }
    apply IH in Hloop as (Htrack & Hold & Hnew & Hget & Hother); [|lia..].
    split_and!.
    + rewrite Htrack. simpl. rewrite Hlen1, <- (assoc_L (++)). done.
    + intros a Ha. rewrite Hold, Hold1 by lia.
      destruct (h !! a); simpl; [|done].
      rewrite (decide_False (P := a = length h)) by lia.
      by destruct (decide (items = [])).
    + intros [|j] d' Hj; simpl in Hj.
      * injection Hj as <-. rewrite !Nat.add_0_r.
        rewrite (decide_True (P := 0 = 0)) by done.
        rewrite Hold, Hnew1 by lia. simpl.
        rewrite (decide_True (P := length h = length h)) by done.
        destruct items as [|d2 items]; simpl.
        -- done.
        -- rewrite Hlen1.
           replace (length h + 1) with (S (length h)) by lia. done.
      * replace (length h + S j) with (length h1 + j) by lia.
        rewrite (Hnew _ _ Hj). rewrite Hlen1.
        replace (S i + j) with (i + S j) by lia.
        rewrite (decide_False (P := S j = 0)) by done.
        assert ((if decide (j = 0) then length h else S (length h) + j - 1)
                = S (length h) + j - 1) as ->.
        { destruct (decide (j = 0)) as [->|]; lia. }
        assert ((if decide (S j < length items)
                 then Some (S (length h) + S j) else None)
                = (if decide (S (S j) < length (d :: items))
                   then Some (length h + S (S j)) else None)) as ->; [|done].
        cbn [length]. destruct (decide (S j < length items));
          [rewrite decide_True by lia|rewrite decide_False by lia];
          [f_equal; lia|done].
    + intros [|j] Hj.
      * rewrite !Nat.add_0_r, Hother.
        -- apply dict_get_set_eq.
        -- intros j' _ Heq%station_id_inj. lia.
      * replace (i + S j) with (S i + j) by lia.
        replace (length h + S j) with (length h1 + j) by lia.
        apply Hget. simpl in Hj. lia.
    + intros key Hkey. rewrite Hother.
      * apply dict_get_set_ne. specialize (Hkey 0 ltac:(simpl; lia)).
        rewrite Nat.add_0_r in Hkey. done.
      * intros j Hj. replace (S i + j) with (i + S j) by lia.
        apply Hkey. simpl. lia.
Qed.

(** X14: [create_branch_line] at a junction that is filed and exists returns
    the BRANCH track of the new stations and files it under [branch_id]; the
    item counter grows by the number of items.  The junction becomes a
    JUNCTION, also when there are no items; with items, its BRANCH next entry
    is overwritten with the first new station, which is also appended to its
    branch connections.  No other existing station is touched.  New station
    [j] is filed under ["<branch_id>_station_<j>"]; it is a TERMINAL when it
    is the last and REGULAR otherwise, its only prev entry is the BRANCH one
    to the junction (for the first) or to station [j - 1], and its only next
    entry the BRANCH one to station [j + 1], if there is one.  The other keys
    of the station dictionary keep their values. *)
Theorem create_branch_line_chain s branch_id junction_station_id
    (branch_data : list Data) color junction jst :
  dict_get junction_station_id (stations s) = Some junction →
  heap s !! junction = Some jst →
  let base := length (heap s) in
  let n := length branch_data in
  let track := mkTrack branch_id TrackType.BRANCH color (seq base n) ∅ in
  ∃ s',
    create_branch_line branch_id junction_station_id branch_data color s
    = Return track s'
    ∧ tracks s' = dict_set branch_id track (tracks s)
    ∧ total_data_items s' = total_data_items s + n
    ∧ (∀ a, a < base → a ≠ junction → heap s' !! a = heap s !! a)
    ∧ heap s' !! junction
      = Some (let jst := set_station_type StationType.JUNCTION jst in
              if decide (n = 0) then jst
              else add_branch_connection base
                     (set_next TrackType.BRANCH base jst))
    ∧ (∀ j d, branch_data !! j = Some d →
         dict_get (branch_id +:+ "_station_" +:+ str j) (stations s')
         = Some (base + j)
         ∧ ∃ st, heap s' !! (base + j) = Some st
             ∧ station_id st = branch_id +:+ "_station_" +:+ str j
             ∧ data st = d
             ∧ station_type st
               = (if decide (S j = n) then StationType.TERMINAL
                  else StationType.REGULAR)
             ∧ prev_stations st
               = [(TrackType.BRANCH, if decide (j = 0) then junction
                                     else base + j - 1)]
             ∧ next_stations st
               = (if decide (S j < n) then [(TrackType.BRANCH, base + S j)]
                  else [])
             ∧ branch_connections st = [] ∧ express_skip_to st = None
             ∧ transfer_destinations st = []
             ∧ line_colors st = {[color]})
    ∧ (∀ key, (∀ j, j < n → key ≠ branch_id +:+ "_station_" +:+ str j) →
         dict_get key (stations s') = dict_get key (stations s)).
Proof.
  intros Hjunction Hjst base n track.
  pose proof (lookup_lt_Some _ _ _ Hjst) as Hlt.
  unfold create_branch_line. rewrite Hjunction.
  destruct (branch_line_loop _ _ _ _ _ _ _ _ _ _) as [[h' sts'] track'] eqn:Hloop.
  apply branch_line_loop_heap in Hloop
    as (Htrack & Hold & Hnew & Hget & Hother); rewrite ?length_mutate; [|done..].
  rewrite length_mutate in Hold, Hnew, Hget, Htrack.
  eexists. split; [by rewrite Htrack|]. cbn [tracks total_data_items heap stations].
  split_and!.
  - by rewrite Htrack.
  - done.
  - intros a Ha Hne. rewrite Hold, lookup_mutate_ne by done.
    destruct (heap s !! a); simpl; [|done].
    rewrite (decide_False (P := a = junction)) by done.
    rewrite (decide_False (P := 0 = 0 ∧ a = junction)) by tauto.
    by destruct (decide (branch_data = [])).
  - rewrite Hold, lookup_mutate_eq, Hjst by done. simpl.
    rewrite (decide_True (P := junction = junction)) by done.
    rewrite (decide_True (P := 0 = 0 ∧ junction = junction)) by done.
    fold base. subst n.
    by destruct branch_data.
  - intros j d Hj. split; [apply (Hget j); by eapply lookup_lt_Some|].
    eexists. split; [by apply Hnew|]. fold base n.
    pose proof (lookup_lt_Some _ _ _ Hj) as Hjn. fold n in Hjn.
    unfold chain_station.
    assert ((Z.of_nat (0 + j) =? Z.of_nat n - 1)%Z = bool_decide (S j = n)) as ->.
    { destruct (decide (S j = n)).
      - rewrite bool_decide_eq_true_2 by done. apply Z.eqb_eq. lia.
      - rewrite bool_decide_eq_false_2 by done. apply Z.eqb_neq. lia. }
    destruct (decide (S j = n)), (decide (S j < n)); try lia;
      rewrite ?bool_decide_eq_true_2, ?bool_decide_eq_false_2 by done; simpl;
      (split_and!; [done..|]); apply (left_id_L ∅ (∪)).
  - intros key Hkey. by apply Hother.
Qed.

End BranchLineChain.

(** * create_express_line: the chain it builds *)

Section ExpressLineChain.
Context {Data : Type} `{!EqDecision Data}.
Implicit Types (s : SubwayNetwork Data) (h : list (SubwayStation Data))
  (st : SubwayStation Data) (a b p : nat) (l : list nat).

Lemma py_index_large {A} (l : list A) (i : Z) :
  (Z.of_nat (length l) ≤ i)%Z → py_index l i = None.
Proof.
  intros Hi. unfold py_index. destruct (Z.leb_spec 0 i); [|lia].
  apply lookup_ge_None_2. lia.
Qed.

Lemma py_index_is_Some {A} (l : list A) (i : Z) :
  (- Z.of_nat (length l) ≤ i < Z.of_nat (length l))%Z → is_Some (py_index l i).
Proof.
  intros Hi. unfold py_index. destruct (Z.leb_spec 0 i).
  - apply lookup_lt_is_Some. lia.
  - destruct (Z.leb_spec (- Z.of_nat (length l)) i); [|lia].
    apply lookup_lt_is_Some. lia.
Qed.

Lemma id_at_express_visit color station prev h a :
  id_at (express_visit color station prev h) a = id_at h a.
Proof.
  unfold id_at.
  destruct (express_visit_extends color station prev h) as [Hext Hlen].
  destruct (h !! a) as [st|] eqn:Hst.
  - by destruct (Hext _ _ Hst) as (st' & -> & Hid & _).
  - rewrite lookup_ge_None_2; [done|]. apply lookup_ge_None_1 in Hst. lia.
Qed.

Lemma express_visit_other color station prev h a :
  a ≠ station → prev ≠ Some a →
  express_visit color station prev h !! a = h !! a.
Proof.
  intros Hne Hprev. unfold express_visit. destruct prev as [p|].
  - by rewrite !lookup_mutate_ne by congruence.
  - by rewrite !lookup_mutate_ne by congruence.
Qed.

Lemma express_visit_selected color station prev h :
  prev ≠ Some station →
  express_visit color station prev h !! station
  = (λ st, let st := add_line_color color
                       (set_station_type StationType.EXPRESS st) in
           match prev with
           | Some p => set_prev TrackType.EXPRESS p st
           | None => st
           end) <$> h !! station.
Proof.
  intros Hprev. unfold express_visit. destruct prev as [p|].
  - rewrite !lookup_mutate_ne by congruence. rewrite !lookup_mutate_eq.
    by destruct (h !! station).
  - rewrite !lookup_mutate_eq. by destruct (h !! station).
Qed.

Lemma express_visit_before color station p h :
  p ≠ station →
  express_visit color station (Some p) h !! p
  = (λ st, set_express_skip_to station
             (set_next TrackType.EXPRESS station st)) <$> h !! p.
Proof.
  intros Hne. unfold express_visit.
  rewrite !lookup_mutate_eq, !lookup_mutate_ne by congruence.
  by destruct (h !! p).
Qed.

Lemma express_visit_type color station prev h a st :
  h !! a = Some st →
  ∃ st', express_visit color station prev h !! a = Some st'
         ∧ station_type st'
           = if decide (a = station) then StationType.EXPRESS
             else station_type st.
Proof.
  intros Hst. unfold express_visit. destruct prev as [p|];
    rewrite !lookup_mutate, Hst.
  - destruct (decide (p = a)) as [->|], (decide (station = a)) as [->|]; simpl;
      (eexists; split; [done|]); simpl;
      rewrite ?decide_True by done; rewrite ?decide_False by done; done.
  - destruct (decide (station = a)) as [->|]; simpl;
      (eexists; split; [done|]); simpl;
      rewrite ?decide_True by done; rewrite ?decide_False by done; done.
Qed.

Lemma express_line_loop_returns l color idxs :
  ∀ prev h t,
    Forall (λ i, (- Z.of_nat (length l) ≤ i)%Z) idxs →
    ∃ h' t', express_line_loop l color idxs prev h t = inl (h', t').
Proof.
  induction idxs as [|i idxs IH]; intros prev h t Hall; simpl; [by eauto|].
  apply Forall_cons in Hall as [Hi Hall].
  destruct (Z.leb_spec (Z.of_nat (length l)) i) as [Hge|Hlt]; [by apply IH|].
  destruct (py_index_is_Some l i) as [station ->]; [lia|]. by apply IH.
Qed.

Lemma express_line_loop_selects l color idxs :
  ∀ prev h t h' t',
    express_line_loop l color idxs prev h t = inl (h', t') →
    let sel := omap (py_index l) idxs in
    t' = mkTrack (track_id t) (track_type t) (track_color t)
           (track_stations t ++ sel)
           (express_stops t ∪ list_to_set (id_at h <$> sel))
    ∧ (∀ a, a ∉ sel → prev ≠ Some a ∨ sel = [] → h' !! a = h !! a)
    ∧ (∀ a st, h !! a = Some st →
         ∃ st', h' !! a = Some st'
                ∧ station_type st'
                  = if decide (a ∈ sel) then StationType.EXPRESS
                    else station_type st)
    ∧ (NoDup (option_list prev ++ sel) →
       (∀ i a, sel !! i = Some a →
          h' !! a
          = express_station color
              (if decide (i = 0) then prev else sel !! (i - 1))
              (sel !! S i) <$> h !! a)
       ∧ (∀ p, prev = Some p →
            h' !! p
            = (λ st, match sel with
                     | b :: _ => set_express_skip_to b
                                   (set_next TrackType.EXPRESS b st)
                     | [] => st
                     end) <$> h !! p)).
Proof.
  induction idxs as [|i idxs IH]; intros prev h t h' t'.
  - intros [= <- <-] sel. subst sel. simpl.
    rewrite app_nil_r, (right_id_L ∅ (∪)). split_and!.
    + by destruct t.
    + done.
    + intros a st Hst. by exists st.
    + intros _. split; [by intros i a ?|].
      intros p _. by destruct (h !! p).
  - cbn [express_line_loop].
    destruct (Z.leb_spec (Z.of_nat (length l)) i) as [Hge|Hlt].
    { intros Hloop. cbn [omap list_omap].
      rewrite py_index_large by done. by apply IH. }
    destruct (py_index l i) as [x|] eqn:Hpy; [|done].
    set (h1 := express_visit color x prev h).
    intros Hloop. cbn [omap list_omap]. rewrite Hpy.
    fold (omap (py_index l) idxs). set (sel := omap (py_index l) idxs).
    apply IH in Hloop as (Htrack & Hother & Htype & Hchain). fold sel in Htrack, Hother, Htype, Hchain.
    split_and!.
    + rewrite Htrack. cbn [track_add_stop track_append track_id track_type
        track_color track_stations express_stops].
      rewrite <- (assoc_L (++)). cbn [app fmap list_fmap list_to_set foldr].
      unfold h1. rewrite id_at_express_visit.
      rewrite (list_fmap_ext (id_at (express_visit color x prev h)) (id_at h) sel)
        by (intros; apply id_at_express_visit).
      by rewrite (assoc_L (∪)).
    + intros a Ha Hprev.
      apply not_elem_of_cons in Ha as [Hne Ha].
      destruct Hprev as [Hprev|?]; [|done].
      rewrite Hother by (try done; left; congruence).
      by apply express_visit_other.
    + intros a st Hst.
      destruct (express_visit_type color x prev h a st Hst) as (st1 & Hst1 & Hty1).
      destruct (Htype a st1 Hst1) as (st' & Hst' & Hty').
      exists st'. split; [done|]. rewrite Hty', Hty1.
      destruct (decide (a = x)) as [->|Hne].
      * rewrite (decide_True (P := x ∈ x :: sel)) by (apply elem_of_cons; by left).
        by destruct (decide (x ∈ sel)).
      * destruct (decide (a ∈ sel)) as [Hin|Hnin].
        -- by rewrite decide_True by (apply elem_of_cons; by right).
        -- rewrite decide_False; [done|].
           intros [?|?]%elem_of_cons; done.
    + intros Hnd.
      apply NoDup_app in Hnd as (Hndp & Hdisj & Hnd).
      apply NoDup_cons in Hnd as [Hx Hnd].
      assert (prev ≠ Some x) as Hpx.
      { intros ->. apply (Hdisj x); [by apply list_elem_of_singleton|].
        apply elem_of_cons; by left. }
      assert (∀ p, prev = Some p → p ∉ sel) as Hpsel.
      { intros p -> Hin. apply (Hdisj p); [by apply list_elem_of_singleton|].
        apply elem_of_cons; by right. }
      destruct Hchain as [Hsel Hbefore].
      { apply NoDup_app. split_and!; [apply NoDup_singleton| |done].
        by intros ? ->%list_elem_of_singleton. }
      split.
      * intros [|j] a Ha; simpl in Ha.
        -- injection Ha as <-.
           rewrite (Hbefore x eq_refl). unfold h1.
           rewrite express_visit_selected by done.
           rewrite (decide_True (P := 0 = 0)) by done.
           destruct (h !! x); [|done]. simpl.
           by destruct sel.
        -- assert (a ∈ sel) as Hin by by eapply list_elem_of_lookup_2.
           rewrite (Hsel _ _ Ha). unfold h1.
           rewrite express_visit_other
             by (try (intros ->; done); intros ->; by eapply Hpsel).
           rewrite (decide_False (P := S j = 0)) by done.
           replace (S j - 1) with j by lia.
           destruct j as [|j]; simpl; [done|].
           by rewrite Nat.sub_0_r.
      * intros p ->. rewrite Hother.
        -- unfold h1. apply express_visit_before. congruence.
        -- by eapply Hpsel.
        -- left. congruence.
Qed.

(** X15: [create_express_line] on a filed main line returns when no index
    is below [-len]: the stations it selects are those at the indices below
    [len], in the order given, negative indices counting from the end.  The
    EXPRESS track returned holds them and the set of their identifiers and
    is filed under [express_id]; the station dictionary and the item counter
    are unchanged.  Stations not selected are untouched, every selected one
    is an EXPRESS station afterwards, and when no station is selected twice,
    each selected station gets the colour, an EXPRESS prev entry to the one
    selected before it, and an EXPRESS next entry and the express shortcut
    to the one selected after it, and nothing else of it changes. *)
Theorem create_express_line_chain s express_id main_line_id express_stations
    color main_track :
  dict_get main_line_id (tracks s) = Some main_track →
  Forall (λ i, (- Z.of_nat (length (track_stations main_track)) ≤ i)%Z)
    express_stations →
  let sel := omap (py_index (track_stations main_track)) express_stations in
  let track := mkTrack express_id TrackType.EXPRESS color sel
                 (list_to_set (id_at (heap s) <$> sel)) in
  ∃ s',
    create_express_line express_id main_line_id express_stations color s
    = Return track s'
    ∧ stations s' = stations s
    ∧ tracks s' = dict_set express_id track (tracks s)
    ∧ total_data_items s' = total_data_items s
    ∧ (∀ a, a ∉ sel → heap s' !! a = heap s !! a)
    ∧ (∀ a st, a ∈ sel → heap s !! a = Some st →
         ∃ st', heap s' !! a = Some st'
                ∧ station_type st' = StationType.EXPRESS)
    ∧ (NoDup sel →
       ∀ i a, sel !! i = Some a →
         heap s' !! a
         = express_station color
             (if decide (i = 0) then None else sel !! (i - 1))
             (sel !! S i) <$> heap s !! a).
Proof.
  intros Hmain Hall sel track. unfold create_express_line. rewrite Hmain.
  destruct (express_line_loop_returns (track_stations main_track) color
              express_stations None (heap s)
              (new_track express_id TrackType.EXPRESS color) Hall)
    as (h' & t' & Hloop).
  rewrite Hloop.
  apply express_line_loop_selects in Hloop as (Htrack & Hother & Htype & Hchain).
  fold sel in Htrack, Hother, Htype, Hchain.
  cbn [new_track track_id track_type track_color track_stations
       express_stops app] in Htrack.
  rewrite (left_id_L ∅ (∪)) in Htrack. fold track in Htrack. subst t'.
  eexists. split; [done|]. cbn [stations tracks total_data_items heap].
  split_and!; try done.
  - intros a Ha. apply Hother; [done|by left].
  - intros a st Hin Hst. destruct (Htype a st Hst) as (st' & Hst' & Hty).
    exists st'. split; [done|]. by rewrite decide_True in Hty.
  - intros Hnd. by apply Hchain.
Qed.

End ExpressLineChain.

(** * create_express_line: negative indices *)

Section ExpressNegative.
Context {Data : Type} `{!EqDecision Data}.
Implicit Types (s : SubwayNetwork Data) (h : list (SubwayStation Data))
  (st : SubwayStation Data) (a b p : nat) (l : list nat).

(** The loop over a list in two parts: the second part goes on from the
    store and the track the first part leaves, after the station the first
    part selected last. *)
Lemma express_line_loop_app l color pre :
  ∀ rest prev h t h1 t1,
    express_line_loop l color pre prev h t = inl (h1, t1) →
    express_line_loop l color (pre ++ rest) prev h t
    = express_line_loop l color rest
        (match last (omap (py_index l) pre) with
         | Some a => Some a
         | None => prev
         end) h1 t1.
Proof.
  induction pre as [|i pre IH]; intros rest prev h t h1 t1.
  - by intros [= <- <-].
  - cbn [express_line_loop app omap list_omap].
    destruct (Z.leb_spec (Z.of_nat (length l)) i) as [Hge|Hlt].
    { rewrite py_index_large by done. apply IH. }
    destruct (py_index l i) as [x|]; [|done].
    intros Hloop. rewrite (IH _ _ _ _ _ _ Hloop).
    fold (omap (py_index l) pre). rewrite last_cons.
    by destruct (last (omap (py_index l) pre)).
Qed.

(** What [express_visit] leaves at the station it selects. *)
Lemma express_visit_station color station prev h st :
  h !! station = Some st →
  ∃ st', express_visit color station prev h !! station = Some st'
         ∧ station_type st' = StationType.EXPRESS
         ∧ color ∈ line_colors st'
         ∧ ∀ p, prev = Some p →
             dict_get TrackType.EXPRESS (prev_stations st') = Some p.
Proof.
  intros Hst. unfold express_visit. destruct prev as [p|].
  - destruct (decide (p = station)) as [->|Hne];
      simpl_lookup; rewrite Hst; simpl;
      (eexists; split; [done|]); simpl;
      (split_and!; [done|set_solver|]); intros ? [= <-]; apply dict_get_set_eq.
  - simpl_lookup. rewrite Hst. simpl.
    eexists; split; [done|]. simpl. split_and!; [done|set_solver|done].
Qed.

(** The station selected last before the loop goes on, when the rest of
    the loop does not select it again: only its EXPRESS next entry and its
    express shortcut are set, to the first station the rest selects. *)
Lemma express_line_loop_prev l color idxs :
  ∀ p h t h' t',
    express_line_loop l color idxs (Some p) h t = inl (h', t') →
    p ∉ omap (py_index l) idxs →
    h' !! p
    = (λ st, match omap (py_index l) idxs with
             | b :: _ => set_express_skip_to b
                           (set_next TrackType.EXPRESS b st)
             | [] => st
             end) <$> h !! p.
Proof.
  induction idxs as [|i idxs IH]; intros p h t h' t'.
  - intros [= <- <-] _. simpl. by destruct (h !! p).
  - cbn [express_line_loop omap list_omap].
    destruct (Z.leb_spec (Z.of_nat (length l)) i) as [Hge|Hlt].
    { rewrite py_index_large by done. apply IH. }
    destruct (py_index l i) as [x|]; [|done].
    fold (omap (py_index l) idxs).
    intros Hloop [Hne Hnin]%not_elem_of_cons.
    apply express_line_loop_selects in Hloop as (_ & Hother & _).
    rewrite Hother by (try done; left; congruence).
    by apply express_visit_before.
Qed.

(** C10: an index [i] with [-len <= i < 0] is not skipped.  In a call whose
    other indices are not below [-len], the station at position [len + i]
    of the main track is selected: it stands in the track returned and
    filed between the stations selected before and after it, and it is an
    EXPRESS station afterwards.  When the call does not select it again
    later, it has the colour, its EXPRESS prev entry is the station
    selected before it, and its EXPRESS next entry and express shortcut are
    the station selected after it; when no station is selected twice, it
    is changed in nothing else.  An index below [-len]
    makes the call raise IndexError; the express track is then not filed,
    and nothing at all has changed when no station was selected before. *)
Theorem express_line_negative_index s express_id main_line_id color main_track
    (pre post : list Z) (i : Z) :
  dict_get main_line_id (tracks s) = Some main_track →
  let l := track_stations main_track in
  let n := Z.of_nat (length l) in
  Forall (λ j, (- n ≤ j)%Z) pre →
  let before := omap (py_index l) pre in
  let after := omap (py_index l) post in
  ((- n ≤ i < 0)%Z → Forall (λ j, (- n ≤ j)%Z) post →
   ∃ station track s',
     l !! Z.to_nat (n + i) = Some station
     ∧ create_express_line express_id main_line_id (pre ++ i :: post) color s
       = Return track s'
     ∧ track_stations track = before ++ station :: after
     ∧ dict_get express_id (tracks s') = Some track
     ∧ (∀ st, heap s !! station = Some st →
          ∃ st', heap s' !! station = Some st'
                 ∧ station_type st' = StationType.EXPRESS)
     ∧ (station ∉ after → ∀ st, heap s !! station = Some st →
          ∃ st', heap s' !! station = Some st'
                 ∧ color ∈ line_colors st'
                 ∧ (∀ p, last before = Some p →
                      dict_get TrackType.EXPRESS (prev_stations st') = Some p)
                 ∧ (∀ b, head after = Some b →
                      dict_get TrackType.EXPRESS (next_stations st') = Some b
                      ∧ express_skip_to st' = Some b))
     ∧ (NoDup (before ++ station :: after) →
        heap s' !! station
        = express_station color (last before) (head after)
            <$> heap s !! station))
  ∧ ((i < - n)%Z →
     ∃ s',
       create_express_line express_id main_line_id (pre ++ i :: post) color s
       = Raise IndexError s'
       ∧ stations s' = stations s ∧ tracks s' = tracks s
       ∧ total_data_items s' = total_data_items s
       ∧ (before = [] → s' = s)).
Proof.
  intros Hmain l n Hpre before after. split.
  - intros Hi Hpost.
    destruct (py_index_negative l i Hi) as [Hpy [station Hstation]].
    rewrite Hstation in Hpy.
    assert (omap (py_index l) (pre ++ i :: post) = before ++ station :: after)
      as Hsel.
    { rewrite omap_app. cbn [omap list_omap]. by rewrite Hpy. }
    assert (Forall (λ j, (- Z.of_nat (length l) ≤ j)%Z) (pre ++ i :: post))
      as Hall.
    { apply Forall_app. split; [done|]. apply Forall_cons. split; [lia|done]. }
    unfold create_express_line. rewrite Hmain. fold l.
    destruct (express_line_loop_returns l color (pre ++ i :: post) None (heap s)
                (new_track express_id TrackType.EXPRESS color) Hall)
      as (h' & t' & Hloop).
    rewrite Hloop. pose proof Hloop as Hparts.
    apply express_line_loop_selects in Hloop
      as (Htrack & _ & Htype & Hchain).
    rewrite Hsel in Htrack, Htype, Hchain.
    exists station, t'. eexists. split_and!; [done..| | | | |].
    + by rewrite Htrack.
    + cbn [tracks]. apply dict_get_set_eq.
    + intros st Hst. destruct (Htype station st Hst) as (st' & Hst' & Hty).
      exists st'. split; [done|]. rewrite decide_True in Hty; [done|].
      apply elem_of_app. right. apply elem_of_cons. by left.
    + intros Hnin st Hst. cbn [heap].
      destruct (express_line_loop_returns l color pre None (heap s)
                  (new_track express_id TrackType.EXPRESS color) Hpre)
        as (h1 & t1 & Hfirst).
      rewrite (express_line_loop_app _ _ _ _ _ _ _ _ _ Hfirst) in Hparts.
      fold before in Hparts.
      assert (match last before with Some a => Some a | None => None end
              = last before) as Hlast by by destruct (last before).
      rewrite Hlast in Hparts. cbn [express_line_loop] in Hparts.
      destruct (Z.leb_spec (Z.of_nat (length l)) i) as [?|_]; [lia|].
      rewrite Hpy in Hparts.
      apply express_line_loop_selects in Hfirst as (_ & _ & Hfirst & _).
      destruct (Hfirst station st Hst) as (st1 & Hst1 & _).
      destruct (express_visit_station color station (last before) h1 st1 Hst1)
        as (st2 & Hst2 & _ & Hcolor & Hprev).
      apply express_line_loop_prev in Hparts; [|done].
      fold after in Hparts. rewrite Hst2 in Hparts. simpl in Hparts.
      eexists. split; [exact Hparts|].
      destruct after as [|b after']; simpl; split_and!; try done.
      intros ? [= <-]. split; [apply dict_get_set_eq|done].
    + intros Hnd. cbn [heap].
      destruct (Hchain Hnd) as [Hat _].
      rewrite (Hat (length before) station) by by apply list_lookup_middle.
      f_equal. f_equal.
      * destruct (decide (length before = 0)) as [Hnil|Hne].
        -- apply nil_length_inv in Hnil. by rewrite Hnil.
        -- rewrite last_lookup, lookup_app_l by lia.
           f_equal. lia.
      * rewrite lookup_app_r by lia.
        replace (S (length before) - length before) with 1 by lia.
        by destruct after.
  - intros Hi.
    destruct (express_line_loop_returns l color pre None (heap s)
                (new_track express_id TrackType.EXPRESS color) Hpre)
      as (h1 & t1 & Hloop).
    unfold create_express_line. rewrite Hmain. fold l.
    rewrite (express_line_loop_app _ _ _ _ _ _ _ _ _ Hloop).
    cbn [express_line_loop].
    destruct (Z.leb_spec (Z.of_nat (length l)) i) as [?|_]; [lia|].
    rewrite py_index_below by done.
    eexists. split_and!; [done..|].
    fold before. intros Hnil.
    apply express_line_loop_selects in Hloop as (_ & Hother & _).
    fold before in Hother. rewrite Hnil in Hother.
    assert (h1 = heap s) as ->.
    { apply list_eq. intros a. apply Hother; [apply not_elem_of_nil|by right]. }
    by destruct s.
Qed.

End ExpressNegative.

(** * Routes along a main line *)

Section MainLineRoute.
Context {Data : Type} `{!EqDecision Data}.
Implicit Types (s : SubwayNetwork Data) (h : list (SubwayStation Data))
  (st : SubwayStation Data) (a b : nat) (w : list nat).

Lemma successors_chain_station k color sid (d : Data) ty before after :
  successors (chain_station k (add_line_color color (new_station sid d ty))
                before after)
  = option_list after.
Proof. unfold chain_station. by destruct before, after. Qed.

(** The store of a fresh network after one [create_main_line]. *)
Lemma fresh_main_line line_id (stations_data : list Data) color :
  let s := (create_main_line line_id stations_data color empty_network).2 in
  let n := length stations_data in
  length (heap s) = n
  ∧ (∀ j d, stations_data !! j = Some d →
       j ∈ dict_values (stations s)
       ∧ ∃ st, heap s !! j = Some st
           ∧ station_id st = line_id +:+ "_station_" +:+ str j
           ∧ data st = d
           ∧ successors st = (if decide (S j < n) then [S j] else [])
           ∧ dict_get TrackType.EXPRESS (next_stations st) = None
           ∧ express_skip_to st = None).
Proof.
  intros s n. subst s. unfold create_main_line.
  destruct (main_line_loop _ _ _ _ _ _ _ _ _) as [[h' sts'] track'] eqn:Hloop.
  pose proof (main_line_loop_grows _ _ _ _ _ _ _ _ _ _ _ _ Hloop)
    as (_ & Hlen & _).
  apply main_line_loop_heap in Hloop as (_ & _ & Hnew & Hget & _); [|done].
  simpl in *. split; [done|].
  intros j d Hj. split.
  - apply dict_values_elem. exists (line_id +:+ "_station_" +:+ str j).
    apply dict_get_Some_elem, (Hget j). by eapply lookup_lt_Some.
  - eexists. split; [by apply Hnew|]. split_and!.
    + unfold chain_station. by destruct (decide (j = 0)), (decide (S j < _)).
    + unfold chain_station. by destruct (decide (j = 0)), (decide (S j < _)).
    + rewrite successors_chain_station. fold n. by destruct (decide (S j < n)).
    + unfold chain_station. by destruct (decide (j = 0)), (decide (S j < _)).
    + unfold chain_station. by destruct (decide (j = 0)), (decide (S j < _)).
Qed.

(** A walk of a store whose only edges lead from [a] to [a + 1]. *)
Lemma chain_walk h w :
  (∀ a b, edge h a b → b = S a) →
  is_walk h w → ∀ i j, head w = Some i → last w = Some j →
  i ≤ j ∧ w = seq i (S j - i).
Proof.
  intros Hedge. induction w as [|a w IH]; intros Hw i j Hhead Hlast; [done|].
  injection Hhead as ->. destruct w as [|b w].
  - injection Hlast as ->. split; [done|]. by replace (S j - j) with 1 by lia.
  - pose proof (Hedge i b (Hw 0 i b eq_refl eq_refl)) as ->.
    destruct (IH (λ k x y Hx Hy, Hw (S k) x y Hx Hy) (S i) j eq_refl Hlast)
      as [Hle Heq].
    split; [lia|]. rewrite Heq.
    replace (S j - i) with (S (S j - S i)) by lia. done.
Qed.

(** X16: on a fresh network with one main line whose items are pairwise
    different, the route from the item at position [i] to the item at
    position [j] is the stretch of the line from station [i] to station
    [j] when [i <= j]; there is no route from a station back to an earlier
    one, since the search follows next entries only. *)
Theorem main_line_route line_id (stations_data : list Data) color i j di dj :
  NoDup stations_data →
  stations_data !! i = Some di → stations_data !! j = Some dj →
  find_optimal_route
    (create_main_line line_id stations_data color empty_network).2 di dj
  = Some (Returns
            (if decide (i ≤ j)
             then (λ k, line_id +:+ "_station_" +:+ str k) <$> seq i (S j - i)
             else [])).
Proof.
  intros Hnd Hi Hj.
  set (s := (create_main_line line_id stations_data color empty_network).2).
  destruct (fresh_main_line line_id stations_data color) as [Hlen Hsts].
  fold s in Hlen, Hsts.
  assert (∀ k d, stations_data !! k = Some d →
            _find_station_by_data s d = Some k) as Hfind.
  { intros k d Hk. destruct (Hsts k d Hk) as (Hin & st & Hst & _ & Hd & _).
    destruct (first_with_data_is_Some (heap s) d _ k st Hin Hst Hd) as [a Ha].
    unfold _find_station_by_data. rewrite Ha. f_equal.
    apply first_with_data_Some in Ha as (_ & sta & Hsta & Hda).
    pose proof (lookup_lt_Some _ _ _ Hsta) as Hlt. rewrite Hlen in Hlt.
    destruct (lookup_lt_is_Some_2 stations_data a Hlt) as [d' Hd'].
    destruct (Hsts a d' Hd') as (_ & sta' & Hsta' & _ & Hda' & _).
    eapply NoDup_lookup; [done..|]. congruence. }
  assert (∀ a b, edge (heap s) a b ↔ b = S a ∧ S a < length stations_data)
    as Hedge.
  { intros a b. split.
    - intros (st & Hst & Hb).
      pose proof (lookup_lt_Some _ _ _ Hst) as Hlt. rewrite Hlen in Hlt.
      destruct (lookup_lt_is_Some_2 stations_data a Hlt) as [d Hd].
      destruct (Hsts a d Hd) as (_ & st' & Hst' & _ & _ & Hsucc & _).
      assert (st' = st) as -> by congruence. rewrite Hsucc in Hb.
      destruct (decide (S a < length stations_data)); [|by apply elem_of_nil in Hb].
      by apply list_elem_of_singleton in Hb.
    - intros [-> Hlt].
      destruct (lookup_lt_is_Some_2 stations_data a ltac:(lia)) as [d Hd].
      destruct (Hsts a d Hd) as (_ & st & Hst & _ & _ & Hsucc & _).
      exists st. split; [done|]. rewrite Hsucc, decide_True by done.
      by apply list_elem_of_singleton. }
  assert (∀ k, k < length stations_data →
            id_at (heap s) k = line_id +:+ "_station_" +:+ str k) as Hid.
  { intros k Hk. destruct (lookup_lt_is_Some_2 stations_data k Hk) as [d Hd].
    destruct (Hsts k d Hd) as (_ & st & Hst & Hsid & _).
    unfold id_at. by rewrite Hst. }
  pose proof (lookup_lt_Some _ _ _ Hi) as Hilt.
  pose proof (lookup_lt_Some _ _ _ Hj) as Hjlt.
  assert (no_express (heap s)) as Hno.
  { apply Forall_forall. intros st [k Hst]%list_elem_of_lookup_1.
    pose proof (lookup_lt_Some _ _ _ Hst) as Hlt. rewrite Hlen in Hlt.
    destruct (lookup_lt_is_Some_2 stations_data k Hlt) as [d Hd].
    destruct (Hsts k d Hd) as (_ & st' & Hst' & _ & _ & _ & Hexp & Hskip).
    by assert (st' = st) as -> by congruence. }
  destruct (find_optimal_route_no_express s di dj Hno) as [path Hpath].
  rewrite Hpath. do 2 f_equal.
  unfold find_optimal_route in Hpath.
  rewrite (Hfind _ _ Hi), (Hfind _ _ Hj) in Hpath.
  pose proof Hpath as Hwalk.
  apply (route_loop_walk _ _ _ i) in Hwalk.
  2:{ apply Forall_singleton. exists [i]. split_and!; [done..|].
      intros k x y Hx Hy. by destruct k. }
  assert (path ≠ [] →
          i ≤ j ∧ path = (λ k, line_id +:+ "_station_" +:+ str k)
                           <$> seq i (S j - i)) as Hshape.
  { intros Hne. destruct Hwalk as [?|(w & Hw & Hhead & Hlast & Hiswalk)]; [done|].
    simpl in Hw, Hlast.
    destruct (chain_walk (heap s) w) with (i := i) (j := j) as [Hle ->];
      [|done..|].
    { intros a b Hab. by apply Hedge in Hab as [-> _]. }
    split; [done|]. rewrite Hw. apply list_fmap_ext.
    intros _ k Hk%list_elem_of_lookup_2%elem_of_seq. apply Hid. lia. }
  destruct (decide (i ≤ j)) as [Hle|Hgt].
  - apply Hshape. intros ->.
    eapply (route_loop_complete _ (heap s) j ∅ [(i, [id_at (heap s) i], Int 0)]);
      [| |by rewrite Hlen| |set_solver| |done| |].
    + assert (station_id <$> heap s
              = (λ k, line_id +:+ "_station_" +:+ str k)
                  <$> seq 0 (length stations_data)) as ->.
      { apply list_eq. intros k. rewrite !list_lookup_fmap.
        destruct (decide (k < length stations_data)) as [Hk|Hk].
        - destruct (lookup_lt_is_Some_2 stations_data k Hk) as [d Hd].
          destruct (Hsts k d Hd) as (_ & st & Hst & Hsid & _).
          rewrite Hst, lookup_seq_lt by done. simpl. by rewrite Hsid.
        - rewrite lookup_ge_None_2 by (rewrite Hlen; lia).
          by rewrite lookup_seq_ge by lia. }
      apply NoDup_fmap_2_strong; [|apply NoDup_seq].
      intros x y _ _ Heq. by apply station_id_inj in Heq.
    + apply Forall_forall. intros st [a Hst]%list_elem_of_lookup_1.
      apply Forall_forall. intros b Hb.
      assert (edge (heap s) a b) as [-> Hlt]%Hedge by by exists st.
      by rewrite Hlen.
    + apply Forall_singleton. unfold entry_station. simpl.
      split; [by rewrite Hlen|done].
    + intros a st b _ Hvis. set_solver.
    + left. rewrite list_fmap_singleton. by apply list_elem_of_singleton.
    + clear -Hle Hjlt Hedge. induction Hle as [|j Hle IH]; [apply rtc_refl|].
      eapply rtc_r; [apply IH; lia|]. apply Hedge. split; [done|lia].
  - destruct path as [|x path]; [done|].
    destruct Hshape as [Hle _]; [done|lia].
Qed.

End MainLineRoute.

(** * get_network_statistics: the station classes *)

Section StationClasses.
Context {Data : Type} `{!EqDecision Data}.
Implicit Types (s : SubwayNetwork Data) (st : SubwayStation Data).

Lemma station_values_length s :
  filed s → length (station_values s) = length (stations s).
Proof.
  unfold filed, station_values, dict_values.
  induction (stations s) as [|[key a] sts IH]; intros Hfiled; [done|].
  apply Forall_cons in Hfiled as [(st & Hst & _) Hfiled].
  simpl in Hst |- *. rewrite Hst. simpl. f_equal. by apply IH.
Qed.

Lemma count_by_type (l : list (SubwayStation Data)) :
  length (filter (λ st, station_type st = StationType.JUNCTION) l)
  + length (filter (λ st, station_type st = StationType.EXPRESS) l)
  + length (filter (λ st, station_type st = StationType.TRANSFER) l)
  + length (filter (λ st, station_type st = StationType.TERMINAL) l)
  + length (filter (λ st, station_type st = StationType.REGULAR) l)
  = length l.
Proof.
  induction l as [|st l IH]; [done|].
  rewrite !filter_cons. destruct (station_type st);
    repeat (first [rewrite decide_True by done | rewrite decide_False by done]);
    simpl; lia.
Qed.

(** X17: in a network built by the operations the four class counts of the
    statistics and the number of REGULAR stations add up to
    [total_stations]: every key of the station dictionary leads to a station
    object, which is counted in exactly one class. *)
Theorem station_classes_partition (ops : list (operation Data)) :
  let s := run_all ops empty_network in
  let stats := get_network_statistics s in
  junction_count stats + express_stations stats + transfer_hubs stats
  + terminal_points stats + count_type StationType.REGULAR s
  = total_stations stats.
Proof.
  intros s stats. subst stats. simpl. unfold count_type.
  rewrite count_by_type. apply station_values_length.
  apply run_all_grows. apply Forall_nil_2.
Qed.

End StationClasses.

(** * The further properties on concrete networks *)

(** X2 on the three-station line: index 7 is skipped. *)
Lemma create_express_line_skips_large_witness :
  create_express_line "X" "M" [0; 7]%Z "red" short_line
  = create_express_line "X" "M" [0]%Z "red" short_line.
Proof.
  destruct (dict_get "M" (tracks short_line)) as [main_track|] eqn:Hmain;
    [|discriminate Hmain].
  destruct (create_express_line_skips_large short_line "X" "M" [0; 7]%Z "red"
              main_track Hmain) as [Hskip _].
  vm_compute in Hmain. injection Hmain as <-. exact Hskip.
Defined.

(** X3 between the two ends of the three-station line. *)
Lemma create_loop_connection_spec_witness :
  ∃ s', create_loop_connection "M_station_0" "M_station_2" "yellow" short_line
        = Return (mkTrack "loop_M_station_0_M_station_2" TrackType.LOOP
                    "yellow" [0; 2] ∅) s'
        ∧ stations s' = stations short_line.
Proof.
  destruct (heap short_line !! 0) as [sta|] eqn:Ha; [|discriminate Ha].
  destruct (heap short_line !! 2) as [stb|] eqn:Hb; [|discriminate Hb].
  destruct (create_loop_connection_spec short_line "M_station_0" "M_station_2"
              "yellow" 0 2 sta stb eq_refl eq_refl Ha Hb)
    as (s' & Hret & _ & Hsts & _).
  exists s'. split; [exact Hret|exact Hsts].
Defined.

(** X6: a fourth item for the three-station line. *)
Lemma insert_data_optimally_appends_witness :
  ∃ s', insert_data_optimally "D" None short_line = ("M_auto_3", s')
        ∧ dict_get "M_auto_3" (stations s') = Some 3.
Proof.
  destruct (choose_track None short_line) as [[key track]|] eqn:Hchoose;
    [|discriminate Hchoose].
  destruct (insert_data_optimally_appends short_line "D" None key track Hchoose)
    as (s' & stn & Hret & Hget & _).
  vm_compute in Hchoose. injection Hchoose as <- <-.
  exists s'. split; [exact Hret|exact Hget].
Defined.

(** X7 along the three-station line. *)
Lemma find_optimal_route_walk_witness :
  ∃ start_station end_station w,
    _find_station_by_data short_line "A" = Some start_station
    ∧ _find_station_by_data short_line "C" = Some end_station
    ∧ ["M_station_0"; "M_station_1"; "M_station_2"] = id_at (heap short_line) <$> w
    ∧ head w = Some start_station ∧ last w = Some end_station
    ∧ is_walk (heap short_line) w.
Proof.
  apply (find_optimal_route_walk short_line "A" "C"
           ["M_station_0"; "M_station_1"; "M_station_2"]).
  - vm_compute. reflexivity.
  - discriminate.
Defined.


(** X11 for the middle station of the three-station line. *)
Lemma stations_filed_under_own_id_witness :
  (∃ st, heap short_line !! 1 = Some st ∧ station_id st = "M_station_1")
  ∧ ∀ key', dict_get key' (stations short_line) = Some 1 → key' = "M_station_1".
Proof.
  apply (stations_filed_under_own_id
           [CreateMainLine "M" ["A"; "B"; "C"] "blue"] "M_station_1" 1).
  reflexivity.
Defined.

(** X13 with a hundred and one items. *)
Lemma benchmark_build_raises_witness :
  benchmark_build (replicate 101 "x")
  = Raise (ValueError "Junction station main_0_station_50 not found")
      (insert_all (take 100 (replicate 101 "x")) empty_network).2.
Proof.
  apply (benchmark_build_raises (replicate 101 "x")).
  rewrite length_replicate. lia.
Defined.

(** X14: a branch of two items at the middle of the three-station line. *)
Lemma create_branch_line_chain_witness :
  ∃ s', create_branch_line "B" "M_station_1" ["x"; "y"] "green" short_line
        = Return (mkTrack "B" TrackType.BRANCH "green" [3; 4] ∅) s'
        ∧ total_data_items s' = 5.
Proof.
  destruct (heap short_line !! 1) as [jst|] eqn:Hjst; [|discriminate Hjst].
  destruct (create_branch_line_chain short_line "B" "M_station_1" ["x"; "y"]
              "green" 1 jst eq_refl Hjst) as (s' & Hret & _ & Htotal & _).
  exists s'. split; [exact Hret|exact Htotal].
Defined.

(** X15 on the three-station line: the first station, the last one by a
    negative index, and an index that is skipped. *)
Lemma create_express_line_chain_witness :
  ∃ track s', create_express_line "X" "M" [0; -1; 9]%Z "red" short_line
              = Return track s'
              ∧ track_stations track = [0; 2]
              ∧ stations s' = stations short_line.
Proof.
  destruct (dict_get "M" (tracks short_line)) as [main_track|] eqn:Hmain;
    [|discriminate Hmain].
  assert (Forall (λ i, (- Z.of_nat (length (track_stations main_track)) ≤ i)%Z)
            [0; -1; 9]%Z) as Hall.
  { vm_compute in Hmain. injection Hmain as <-.
    repeat apply Forall_cons_2; [simpl; lia..|apply Forall_nil_2]. }
  destruct (create_express_line_chain short_line "X" "M" [0; -1; 9]%Z "red"
              main_track Hmain Hall) as (s' & Hret & Hsts & _).
  vm_compute in Hmain. injection Hmain as <-.
  eexists _, s'. split; [exact Hret|]. split; [reflexivity|exact Hsts].
Defined.

(** X16 from the first to the last item of a three-station line. *)
Lemma main_line_route_witness :
  find_optimal_route
    (create_main_line "M" ["A"; "B"; "C"] "blue" empty_network).2 "A" "C"
  = Some (Returns
            (if decide (0 ≤ 2)
             then (λ k, "M" +:+ "_station_" +:+ str k) <$> seq 0 (3 - 0)
             else [])).
Proof.
  apply (main_line_route "M" ["A"; "B"; "C"] "blue" 0 2 "A" "C").
  - refine (bool_decide_unpack _ _); vm_compute; exact I.
  - reflexivity.
  - reflexivity.
Defined.

(** C10 on the three-station line: after index 0, index [-1] selects the
    last station; index [-4] raises and leaves the network as it was. *)
Lemma express_line_negative_index_witness :
  (∃ track s', create_express_line "X" "M" [0; -1]%Z "red" short_line
               = Return track s'
               ∧ track_stations track = [0; 2])
  ∧ create_express_line "X" "M" [(-4)%Z] "red" short_line
    = Raise IndexError short_line.
Proof.
  assert (dict_get "M" (tracks short_line)
          = Some (mkTrack "M" TrackType.MAIN "blue" [0; 1; 2] ∅)) as Hmain
    by reflexivity.
  split.
  - destruct (express_line_negative_index short_line "X" "M" "red" _
                [0%Z] [] (-1)%Z Hmain) as [Hneg _].
    { apply Forall_singleton. simpl. lia. }
    destruct Hneg as (station & track & s' & Hstation & Hret & Htrack & _).
    { simpl. lia. }
    { apply Forall_nil_2. }
    exists track, s'. split; [exact Hret|].
    rewrite Htrack. injection Hstation as <-. reflexivity.
  - destruct (express_line_negative_index short_line "X" "M" "red" _
                [] [] (-4)%Z Hmain) as [_ Hbelow].
    { apply Forall_nil_2. }
    destruct Hbelow as (s' & Hret & _ & _ & _ & Hsame).
    { simpl. lia. }
    rewrite <- (Hsame eq_refl) at 2. exact Hret.
Defined.
